(** * The DAM★とも extractors of yt_dlp/extractor/damtomo.py

    A shallow embedding of [DamtomoVideoIE] and [DamtomoRecordIE]: Python
    strings are lists of code points, the regular expressions of the source
    are terms of a small syntax run by a backtracking matcher that follows
    Python's [re], the scraped dictionary is a [gmap], and the two HTTP
    requests of an extraction are operations of a small state-and-error
    monad that logs every request. *)

From Stdlib Require Import NArith ZArith Ascii String List Lia Bool.
From stdpp Require Import base option list gmap.
Import ListNotations.

Set Warnings "-register-all".

Local Open Scope N_scope.
Local Open Scope list_scope.

(** ** Python strings *)

(** A [str] is a sequence of Unicode code points. *)
Abbreviation pystr := (list N).

(** Literals are written as in the (UTF-8 encoded) source file and decoded. *)
Fixpoint utf8_decode (bs : list N) : pystr :=
  match bs with
  | [] => []
  | b0 :: r0 =>
    if b0 <? 128 then b0 :: utf8_decode r0
    else if b0 <? 224 then
      match r0 with
      | b1 :: r1 => ((b0 - 192) * 64 + (b1 - 128)) :: utf8_decode r1
      | _ => []
      end
    else if b0 <? 240 then
      match r0 with
      | b1 :: b2 :: r2 =>
        ((b0 - 224) * 4096 + (b1 - 128) * 64 + (b2 - 128)) :: utf8_decode r2
      | _ => []
      end
    else
      match r0 with
      | b1 :: b2 :: b3 :: r3 =>
        ((b0 - 240) * 262144 + (b1 - 128) * 4096 + (b2 - 128) * 64 + (b3 - 128))
          :: utf8_decode r3
      | _ => []
      end
  end.

Definition u (s : string) : pystr :=
  utf8_decode (map N_of_ascii (list_ascii_of_string s)).

Arguments u : simpl never.

(** The quotation mark, which a literal of this file cannot hold. *)
Definition dq : pystr := [34].

(** [Py_UNICODE_ISSPACE]: what [str.isspace], [str.strip] and the pattern
    [\s] of a [str] pattern all use. *)
Definition is_space (c : N) : bool :=
  ((9 <=? c) && (c <=? 13)) || ((28 <=? c) && (c <=? 32))
  || (c =? 133) || (c =? 160) || (c =? 5760)
  || ((8192 <=? c) && (c <=? 8202))
  || (c =? 8232) || (c =? 8233) || (c =? 8239) || (c =? 8287) || (c =? 12288).

Definition pystr_eqb (a b : pystr) : bool := bool_decide (a = b).

(** [s.startswith(p)], giving what follows the prefix. *)
Fixpoint strip_prefix (p s : pystr) : option pystr :=
  match p with
  | [] => Some s
  | c :: p' =>
    match s with
    | [] => None
    | x :: s' => if c =? x then strip_prefix p' s' else None
    end
  end.

(** [needle in hay]. *)
Fixpoint py_in (needle hay : pystr) : bool :=
  match strip_prefix needle hay with
  | Some _ => true
  | None => match hay with [] => false | _ :: hay' => py_in needle hay' end
  end.

Fixpoint drop_while (p : N -> bool) (s : pystr) : pystr :=
  match s with
  | [] => []
  | x :: s' => if p x then drop_while p s' else s
  end.

Fixpoint take_while (p : N -> bool) (s : pystr) : pystr :=
  match s with
  | [] => []
  | x :: s' => if p x then x :: take_while p s' else []
  end.

Definition lstrip (s : pystr) : pystr := drop_while is_space s.

Fixpoint rstrip (s : pystr) : pystr :=
  match s with
  | [] => []
  | x :: s' =>
    match rstrip s' with
    | [] => if is_space x then [] else [x]
    | r => x :: r
    end
  end.

(** [s.strip()]. *)
Definition strip (s : pystr) : pystr := rstrip (lstrip s).

(** [s.replace(c, '')] for a one-character [c]. *)
Definition replace_char_empty (c : N) (s : pystr) : pystr :=
  List.filter (fun x => negb (x =? c)) s.

(** ** Regular expressions

    The fragment of Python's [re] syntax the extractors use: literals,
    character classes, repetition of a class ([c*], [c+], [c*?], [c+?]),
    optional parts, alternation, capturing groups, a backreference and [$]. *)

Inductive cclass :=
| CAny                  (* [.] under [(?s)] *)
| CSpace                (* [\s] *)
| CDigit                (* [\d] *)
| CNoneOf (l : pystr).  (* [[^...]] *)

Inductive regex :=
| Lit (l : pystr)
| Cls (c : cclass)
| Rep (greedy : bool) (min : nat) (c : cclass)
| Opt (r : regex)
| Alt (r1 r2 : regex)
| Cat (r1 r2 : regex)
| Grp (n : nat) (r : regex)
| Ref (n : nat)
| Eos.

Infix "+>" := Cat (at level 60, right associativity).

(** What a successful match leaves: the text after the match and the groups. *)
Abbreviation caps := (gmap nat pystr).
Abbreviation mres := (pystr * gmap nat pystr)%type.

(** A match object: [group(0)] and the groups that took part. *)
Record Match := { m_text : pystr; m_groups : gmap nat pystr }.

(** One piece of a scanned string: a character outside every match, or a match. *)
Inductive piece :=
| Gap (c : N)
| Hit (m : Match).

(** [$] without [re.MULTILINE]: the end, or just before a final newline. *)
Definition at_eos (s : pystr) : bool :=
  match s with
  | [] => true
  | [c] => c =? 10
  | _ => false
  end.

(** ** ElementTree *)

Inductive Element :=
| Elem (tag : pystr) (text : option pystr) (children : list Element).

Definition e_tag (e : Element) : pystr := match e with Elem t _ _ => t end.
Definition e_text (e : Element) : option pystr := match e with Elem _ t _ => t end.
Definition e_children (e : Element) : list Element := match e with Elem _ _ c => c end.

(** [Element.iter()]: the element and its descendants in document order. *)
Fixpoint iter (e : Element) : list Element :=
  match e with
  | Elem _ _ ch => e :: flat_map iter ch
  end.

(** The tag ElementPath looks for when given [prefix:name] and a namespace
    map sending the prefix to [ns]. *)
Definition qname (ns name : pystr) : pystr := u "{" ++ ns ++ u "}" ++ name.

(** [x.find('.//d:name', {'d': ns})]: the first proper descendant of [x]
    with that qualified tag. *)
Definition find_descendant (ns name : pystr) (x : Element) : option Element :=
  head (List.filter (fun e => pystr_eqb (e_tag e) (qname ns name))
                    (flat_map iter (e_children x))).

(** The element a list of child positions leads to from [e]; the empty list
    is [e] itself. *)
Fixpoint subelement (path : list nat) (e : Element) : option Element :=
  match path with
  | [] => Some e
  | i :: rest =>
      match e_children e !! i with
      | Some c => subelement rest c
      | None => None
      end
  end.

(** Document order on positions: an element comes before its descendants,
    and before everything under its later siblings. *)
Fixpoint path_le (p q : list nat) : bool :=
  match p, q with
  | [], _ => true
  | _ :: _, [] => false
  | i :: p', j :: q' => (i <? j)%nat || ((i =? j)%nat && path_le p' q')
  end.

(** What the first element of a pre-order listing that satisfies [f] is, in
    terms of positions: it satisfies [f], and every element that does is at
    its position or at a later one. *)
Definition first_in (f : Element -> bool) (e : Element) : Prop :=
  match head (List.filter f (iter e)) with
  | Some y =>
      exists p, subelement p e = Some y /\ f y = true
                /\ forall p' y', subelement p' e = Some y' -> f y' = true ->
                                 path_le p p' = true
  | None => forall p' y', subelement p' e = Some y' -> f y' = false
  end.

(** The same of the elements under a list of siblings [cs], each with its
    descendants. *)
Definition first_below (f : Element -> bool) (cs : list Element) : Prop :=
  match head (List.filter f (flat_map iter cs)) with
  | Some y =>
      exists i c p, cs !! i = Some c /\ subelement p c = Some y /\ f y = true
                    /\ forall i' c' p' y',
                         cs !! i' = Some c' -> subelement p' c' = Some y' ->
                         f y' = true -> path_le (i :: p) (i' :: p') = true
  | None => forall i' c' p' y',
              cs !! i' = Some c' -> subelement p' c' = Some y' -> f y' = false
  end.

(** ** Requests, exceptions and the extraction monad *)

Inductive request :=
| GetPage (url : pystr)
| GetXML (url : pystr).

(** What the site answers: for a page, its decoded text and the URL the
    request ended at; for an XML endpoint, the parsed tree. [None] is a
    download that fails. *)
Record Web := {
  web_page : pystr -> option (pystr * pystr);
  web_xml : pystr -> option Element
}.

Inductive exn :=
| ExtractorError (msg : pystr) (expected : bool)
| KeyError (key : pystr)
| DownloadFailed (r : request)
| UnsuitableURL.

Inductive outcome (A : Type) :=
| Return (a : A)
| Raise (e : exn).
Arguments Return {A} a.
Arguments Raise {A} e.

(** A computation reads the site and adds to the log of requests made. *)
Definition M (A : Type) : Type := Web -> list request -> outcome A * list request.

Definition ret {A} (a : A) : M A := fun _ log => (Return a, log).
Definition raise {A} (e : exn) : M A := fun _ log => (Raise e, log).
Definition bind {A B} (m : M A) (f : A -> M B) : M B :=
  fun w log =>
    match m w log with
    | (Return a, log') => f a w log'
    | (Raise e, log') => (Raise e, log')
    end.

Notation "x <- c1 ;; c2" := (bind c1 (fun x => c2))
  (at level 100, c1 at next level, right associativity).

Definition run {A} (m : M A) (w : Web) : outcome A * list request := m w [].

(** Modelled from the spec: [InfoExtractor._download_webpage_handle]
    (extractor/common.py): one GET, giving the decoded page and the URL of
    the response; a failed download raises. *)
Definition _download_webpage_handle (url : pystr) : M (pystr * pystr) :=
  fun w log =>
    match web_page w url with
    | Some r => (Return r, log ++ [GetPage url])
    | None => (Raise (DownloadFailed (GetPage url)), log ++ [GetPage url])
    end.

(** Modelled from the spec: [InfoExtractor._download_xml]: one GET, giving
    the root of the parsed document; a failed download raises. *)
Definition _download_xml (url : pystr) : M Element :=
  fun w log =>
    match web_xml w url with
    | Some r => (Return r, log ++ [GetXML url])
    | None => (Raise (DownloadFailed (GetXML url)), log ++ [GetXML url])
    end.

(** [d[k]]. *)
Definition getitem (d : gmap pystr pystr) (k : pystr) : M pystr :=
  match d !! k with
  | Some v => ret v
  | None => raise (KeyError k)
  end.

(** ** The result of an extraction *)

Record format := {
  format_id : pystr;
  format_url : pystr;
  format_ext : pystr;
  format_protocol : pystr
}.

Record info_dict := {
  info_id : pystr;
  info_title : pystr;
  info_uploader_id : option pystr;
  info_description : option pystr;
  info_formats : list format;
  info_uploader : pystr;
  info_upload_date : option pystr;
  info_view_count : option Z;
  info_like_count : option Z;
  info_song_title : pystr;
  info_song_artist : pystr
}.

(** ** The patterns and constants of the source *)

(** ['https://www.clubdam.com/sorry/'] *)
Definition sorry_url : pystr := u "https://www.clubdam.com/sorry/".

(** ['<h2>予期せぬエラーが発生しました。</h2>'] *)
Definition server_error_marker : pystr := u "<h2>予期せぬエラーが発生しました。</h2>".

Definition msg_rate_limited : pystr := u "You are rate-limited. Try again later.".
Definition msg_server_error : pystr := u "There is an error on server-side. Try again later.".
Definition msg_no_m3u8 : pystr := u "Failed to obtain m3u8 URL".

(** The patterns are quoted with [\x22] for the quotation mark.

    [(?m)<div id=\x22public_comment\x22>\s*<p>\s*([^<]*?)\s*</p>] *)
Definition re_description : regex :=
  Lit (u "<div id=" ++ dq ++ u "public_comment" ++ dq ++ u ">")
  +> Rep true 0 CSpace +> Lit (u "<p>") +> Rep true 0 CSpace
  +> Grp 1 (Rep false 0 (CNoneOf (u "<")))
  +> Rep true 0 CSpace +> Lit (u "</p>").

(** [<a href=\x22https://www\.clubdam\.com/app/damtomo/member/info/Profile\.do\?damtomoId=([^\x22]+)\x22] *)
Definition re_uploader_id : regex :=
  Lit (u "<a href=" ++ dq
       ++ u "https://www.clubdam.com/app/damtomo/member/info/Profile.do?damtomoId=")
  +> Grp 1 (Rep true 1 (CNoneOf dq)) +> Lit dq.

(** [(?s)<(p|div)\s+class=\x22([^\x22 ]+?)\x22>(.+?)</\1>] *)
Definition re_field : regex :=
  Lit (u "<") +> Grp 1 (Alt (Lit (u "p")) (Lit (u "div")))
  +> Rep true 1 CSpace +> Lit (u "class=" ++ dq)
  +> Grp 2 (Rep false 1 (CNoneOf (dq ++ u " "))) +> Lit (dq ++ u ">")
  +> Grp 3 (Rep false 1 CAny) +> Lit (u "</") +> Ref 1 +> Lit (u ">").

(** [\s+] *)
Definition re_spaces : regex := Rep true 1 CSpace.

(** ['さん'] *)
Definition san : pystr := Eval vm_compute in u "さん".

(** [\s*さん\s*$] *)
Definition re_san : regex :=
  Rep true 0 CSpace +> Lit san +> Rep true 0 CSpace +> Eos.

Definition slash : N := 47.

(** [(\d\d\d\d/\d\d/\d\d)] *)
Definition re_date : regex :=
  Grp 1 (Cls CDigit +> Cls CDigit +> Cls CDigit +> Cls CDigit +> Lit [slash]
         +> Cls CDigit +> Cls CDigit +> Lit [slash] +> Cls CDigit +> Cls CDigit).

(** [(\d+)] *)
Definition re_digits : regex := Grp 1 (Rep true 1 CDigit).

Definition k_user_name : pystr := Eval vm_compute in u "user_name".
Definition k_song_title : pystr := Eval vm_compute in u "song_title".
Definition k_song_artist : pystr := Eval vm_compute in u "song_artist".
Definition k_audience : pystr := Eval vm_compute in u "audience".
Definition k_nice : pystr := Eval vm_compute in u "nice".
Definition k_date : pystr := Eval vm_compute in u "date".

Definition hyphen : pystr := Eval vm_compute in u "-".

Definition hls_format (m3u8_url : pystr) : format :=
  {| format_id := u "hls"; format_url := m3u8_url;
     format_ext := u "mp4"; format_protocol := u "m3u8_native" |}.

(** The constants of [DamtomoVideoIE]. *)

(** [https?://(www\.)?clubdam\.com/app/damtomo/(?:SP/)?karaokeMovie/StreamingDkm\.do\?karaokeMovieId=(?P<id>\d+)] *)
Definition DamtomoVideoIE_VALID_URL : regex :=
  Lit (u "http") +> Opt (Lit (u "s")) +> Lit (u "://")
  +> Opt (Grp 1 (Lit (u "www."))) +> Lit (u "clubdam.com/app/damtomo/")
  +> Opt (Lit (u "SP/"))
  +> Lit (u "karaokeMovie/StreamingDkm.do?karaokeMovieId=")
  +> Grp 2 (Rep true 1 CDigit).

Definition DamtomoVideoIE_page_url : pystr :=
  u "https://www.clubdam.com/app/damtomo/karaokeMovie/StreamingDkm.do?karaokeMovieId=".
Definition DamtomoVideoIE_xml_url : pystr :=
  u "https://www.clubdam.com/app/damtomo/karaokeMovie/GetStreamingDkmUrlXML.do?movieSelectFlg=2&karaokeMovieId=".
Definition DamtomoVideoIE_ns : pystr :=
  u "https://www.clubdam.com/app/damtomo/karaokeMovie/GetStreamingDkmUrlXML".

(** The constants of [DamtomoRecordIE]. *)

(** [https?://(www\.)?clubdam\.com/app/damtomo/(?:SP/)?karaokePost/StreamingKrk\.do\?karaokeContributeId=(?P<id>\d+)] *)
Definition DamtomoRecordIE_VALID_URL : regex :=
  Lit (u "http") +> Opt (Lit (u "s")) +> Lit (u "://")
  +> Opt (Grp 1 (Lit (u "www."))) +> Lit (u "clubdam.com/app/damtomo/")
  +> Opt (Lit (u "SP/"))
  +> Lit (u "karaokePost/StreamingKrk.do?karaokeContributeId=")
  +> Grp 2 (Rep true 1 CDigit).

Definition DamtomoRecordIE_page_url : pystr :=
  u "https://www.clubdam.com/app/damtomo/karaokePost/StreamingKrk.do?karaokeContributeId=".
Definition DamtomoRecordIE_xml_url : pystr :=
  u "https://www.clubdam.com/app/damtomo/karaokePost/GetStreamingKrkUrlXML.do?karaokeContributeId=".
Definition DamtomoRecordIE_ns : pystr :=
  u "https://www.clubdam.com/app/damtomo/karaokePost/GetStreamingKrkUrlXML".

(** ** Literals and characters of the patterns *)

(** The literal the comment pattern opens with. *)
Definition comment_open : pystr :=
  u "<div id=" ++ dq ++ u "public_comment" ++ dq ++ u ">".

(** The literal the profile-link pattern opens with. *)
Definition profile_open : pystr :=
  u "<a href=" ++ dq
  ++ u "https://www.clubdam.com/app/damtomo/member/info/Profile.do?damtomoId=".

(** The positions of [hay], counted from [from], at which [needle] starts. *)
Fixpoint occurrences_from (from : nat) (needle hay : pystr) : list nat :=
  (match strip_prefix needle hay with Some _ => [from] | None => [] end)
  ++ match hay with
     | [] => []
     | _ :: hay' => occurrences_from (S from) needle hay'
     end.

Definition occurrences (needle hay : pystr) : list nat :=
  occurrences_from 0 needle hay.

(** [c not in s]. *)
Definition lacks (c : N) (s : pystr) : bool := forallb (fun x => negb (x =? c)) s.

(** The code points of [<], of the quotation mark and of the space. *)
Definition lt_sign : N := 60.
Definition quote_sign : N := 34.
Definition space : N := 32.

(** The comment pattern from its group on: [([^<]*?)\s*</p>]. *)
Definition comment_tail : regex :=
  Grp 1 (Rep false 0 (CNoneOf (u "<"))) +> Rep true 0 CSpace +> Lit (u "</p>").

(** [sys.int_info.str_digits_check_threshold]: a string of digits no longer
    than this is converted by [int] without a look at the limit. *)
Definition str_digits_check_threshold : nat := 640.

(** ** A concrete interpreter and sample inputs *)

(** [sys.int_info.default_max_str_digits], the limit of CPython 3.11 and
    later as it starts. *)
Definition default_max_str_digits : nat := 4300.


(** The code points of the zero of each run of ten decimal digits (Unicode
    14.0, category Nd). *)
Definition decimal_zeros : list N :=
  [48; 1632; 1776; 1984; 2406; 2534; 2662; 2790; 2918; 3046; 3174; 3302; 3430;
   3558; 3664; 3792; 3872; 4160; 4240; 6112; 6160; 6470; 6608; 6784; 6800;
   6992; 7088; 7232; 7248; 42528; 43216; 43264; 43472; 43504; 43600; 44016;
   65296; 66720; 68912; 69734; 69872; 69942; 70096; 70384; 70736; 70864;
   71248; 71360; 71472; 71904; 72016; 72784; 73040; 73120; 92768; 92864;
   93008; 120782; 120792; 120802; 120812; 120822; 123200; 123632; 125264;
   130032].

Definition unicode_decimal (c : N) : option N :=
  (fun z => c - z) <$> List.find (fun z => (z <=? c) && (c <? z + 10)) decimal_zeros.

(** A stand-in for [clean_html] on text without tags or entities, where only
    its final [strip] acts. *)
Definition strip_only (html : pystr) : pystr := strip html.

Definition field (tag cls content : string) : pystr :=
  u "<" ++ u tag ++ u " class=" ++ dq ++ u cls ++ dq ++ u ">" ++ u content
  ++ u "</" ++ u tag ++ u ">".

Definition page_around (fields : pystr) : pystr :=
  u "<html><div id=" ++ dq ++ u "public_comment" ++ dq ++ u ">  <p>
    </p></div> <a href=" ++ dq
  ++ u "https://www.clubdam.com/app/damtomo/member/info/Profile.do?damtomoId=MzAyMDExNTY"
  ++ dq ++ u ">link</a>" ++ fields ++ u "</html>".

Definition five_fields : pystr :=
  field "p" "user_name" "ＮＡＮＡさん"
  ++ field "div" "song_title" "イカSUMMER
      [良音]"
  ++ field "p" "song_artist" "ORANGE RANGE"
  ++ field "p" "audience" "4 回視聴"
  ++ field "p" "nice" "1".

(** A page with the fields of the second test of [DamtomoRecordIE]. *)
Definition record_page : pystr :=
  page_around (five_fields ++ field "div" "date" " 2021/07/21   12:00 ").

(** The same page without its [date] field. *)
Definition nodate_page : pystr := page_around five_fields.

Definition error_page : pystr :=
  u "<html><h2>予期せぬエラーが発生しました。</h2></html>".

Definition stream_doc (ns : pystr) (url : string) : Element :=
  Elem (qname ns (u "result")) None
    [Elem (qname ns (u "status")) (Some (u "OK")) [];
     Elem (qname ns (u "streamingUrl")) (Some (u url)) []].

(** A site that answers one page URL and one XML URL. *)
Definition serve (p_url x_url page final_url : pystr) (doc : Element) : Web :=
  {| web_page := fun url =>
       if pystr_eqb url p_url then Some (page, final_url) else None;
     web_xml := fun url =>
       if pystr_eqb url x_url then Some doc else None |}.

Definition sample_id : pystr := u "27376862".
Definition sample_m3u8 : pystr := u "https://example.invalid/27376862.m3u8".

Definition record_doc : Element :=
  stream_doc DamtomoRecordIE_ns "
   https://example.invalid/27376862.m3u8
 ".

Definition video_doc : Element :=
  stream_doc DamtomoVideoIE_ns "
   https://example.invalid/27376862.m3u8
 ".

Definition blank_doc : Element := stream_doc DamtomoRecordIE_ns "   ".

Definition record_serve (page final_url : pystr) (doc : Element) : Web :=
  serve (DamtomoRecordIE_page_url ++ sample_id)
        (DamtomoRecordIE_xml_url ++ sample_id) page final_url doc.

Definition record_web : Web :=
  record_serve record_page (DamtomoRecordIE_page_url ++ sample_id) record_doc.

Definition video_web : Web :=
  serve (DamtomoVideoIE_page_url ++ sample_id)
        (DamtomoVideoIE_xml_url ++ sample_id)
        record_page (DamtomoVideoIE_page_url ++ sample_id) video_doc.

Definition sorry_web : Web := record_serve record_page sorry_url record_doc.

Definition error_web : Web :=
  record_serve error_page (DamtomoRecordIE_page_url ++ sample_id) record_doc.

(** The element is there, but in the namespace of the other endpoint. *)
Definition no_manifest_web : Web :=
  record_serve record_page (DamtomoRecordIE_page_url ++ sample_id) video_doc.

Definition blank_manifest_web : Web :=
  record_serve record_page (DamtomoRecordIE_page_url ++ sample_id) blank_doc.

Definition nodate_web : Web :=
  record_serve nodate_page (DamtomoRecordIE_page_url ++ sample_id) record_doc.

Definition record_input : pystr :=
  u "https://www.clubdam.com/app/damtomo/karaokePost/StreamingKrk.do?karaokeContributeId=27376862".

Definition video_input : pystr :=
  u "http://clubdam.com/app/damtomo/SP/karaokeMovie/StreamingDkm.do?karaokeMovieId=27376862".

(** The comment block and the profile link of a page. *)
Definition comment_block (body : pystr) : pystr :=
  comment_open ++ u "
      " ++ u "<p>" ++ body ++ u "</p></div>".

Definition profile_link (id : pystr) : pystr :=
  profile_open ++ id ++ dq ++ u ">profile</a>".

(** The comment of the third test of the module. *)
Definition comment_text : pystr :=
  u "やっぱりキーを下げて正解だった感じ。リベンジ成功ということで。".

Definition box_fields : pystr :=
  field "p" "user_name" "箱の「中の人」さん"
  ++ field "div" "song_title" "心みだれて〜say it with flowers〜(生音)"
  ++ field "p" "song_artist" "小林明子"
  ++ field "p" "audience" "5 回視聴"
  ++ field "p" "nice" "3"
  ++ field "div" "date" "2021/08/15 10:00".

(** A page with the values of the third test of the module. *)
Definition comment_page : pystr :=
  u "<html>" ++ comment_block (u "
        " ++ comment_text ++ u "
      ") ++ profile_link (u "NjI1MjI2MjU") ++ box_fields ++ u "</html>".

(** A page whose comment holds a tag and whose profile link has no id. *)
Definition markup_page : pystr :=
  u "<html>" ++ comment_block (u " line one<br>line two ") ++ profile_link []
  ++ box_fields ++ u "</html>".

(** A page without the [nice] field. *)
Definition no_nice_page : pystr :=
  page_around (field "p" "user_name" "ＮＡＮＡさん"
               ++ field "div" "song_title" "イカSUMMER [良音]"
               ++ field "p" "song_artist" "ORANGE RANGE"
               ++ field "p" "audience" "4 回視聴").

Definition comment_web : Web :=
  record_serve comment_page (DamtomoRecordIE_page_url ++ sample_id) record_doc.

Definition no_nice_web : Web :=
  record_serve no_nice_page (DamtomoRecordIE_page_url ++ sample_id) record_doc.

Definition empty_web : Web :=
  record_serve [] (DamtomoRecordIE_page_url ++ sample_id) record_doc.

(** A document in which a blank [streamingUrl] element, deeper in the tree,
    comes before one with an address. *)
Definition two_url_doc : Element :=
  Elem (qname DamtomoRecordIE_ns (u "result")) None
    [Elem (qname DamtomoRecordIE_ns (u "list")) None
       [Elem (qname DamtomoRecordIE_ns (u "streamingUrl")) (Some (u " ")) []];
     Elem (qname DamtomoRecordIE_ns (u "streamingUrl"))
       (Some (u "https://example.invalid/27376862.m3u8")) []].

(** A document whose root is the [streamingUrl] element. *)
Definition root_only_doc : Element :=
  Elem (qname DamtomoRecordIE_ns (u "streamingUrl"))
    (Some (u "https://example.invalid/27376862.m3u8")) [].

(** A run of 4301 nines, one digit more than [int] converts as CPython 3.11
    starts, and a page whose [audience] field holds it. *)
Definition long_run : pystr := repeat 57 4301%nat.

Definition long_count_page : pystr :=
  page_around (five_fields ++ u "<p class=" ++ dq ++ u "audience" ++ dq ++ u ">"
               ++ long_run ++ u "</p>").

Definition long_count_web : Web :=
  record_serve long_count_page (DamtomoRecordIE_page_url ++ sample_id) record_doc.

(** [s.endswith(suffix)]. *)
Definition ends_with (suffix s : pystr) : bool :=
  pystr_eqb (drop (length s - length suffix) s) suffix.

Section Damtomo.

(** [Py_UNICODE_TODECIMAL]: the decimal value of a code point in the Unicode
    database of the interpreter, for the code points of category Nd. Both
    [\d] and [int] go through it. *)
Variable todecimal : N -> option N.

(** [yt_dlp.utils.clean_html], which lives outside this module. *)
Variable clean_html : pystr -> pystr.

(** [sys.get_int_max_str_digits()]: the longest string of digits the
    interpreter lets [int] convert, 0 when there is no such limit (CPython
    before 3.11 without the backport, or the limit switched off). *)
Variable int_max_str_digits : nat.

Definition is_digit (c : N) : bool :=
  match todecimal c with Some _ => true | None => false end.

Definition cmem (c : cclass) (x : N) : bool :=
  match c with
  | CAny => true
  | CSpace => is_space x
  | CDigit => is_digit x
  | CNoneOf l => negb (bool_decide (x ∈ l))
  end.

(** *** The backtracking matcher

    Written in continuation-passing style: [k] is what remains of the
    pattern, and the first alternative under which [k] succeeds wins, as in
    the [sre] engine. *)

Fixpoint rep_min (c : cclass) (n : nat) (s : pystr) (k : pystr -> option mres)
  : option mres :=
  match n with
  | O => k s
  | S n' =>
    match s with
    | x :: s' => if cmem c x then rep_min c n' s' k else None
    | [] => None
    end
  end.

(** Greedy: as many as possible, then give back one at a time. *)
Fixpoint star_greedy (c : cclass) (s : pystr) (k : pystr -> option mres)
  : option mres :=
  match s with
  | x :: s' =>
    if cmem c x then
      match star_greedy c s' k with
      | Some m => Some m
      | None => k s
      end
    else k s
  | [] => k s
  end.

(** Lazy: as few as possible, then take one more at a time. *)
Fixpoint star_lazy (c : cclass) (s : pystr) (k : pystr -> option mres)
  : option mres :=
  match k s with
  | Some m => Some m
  | None =>
    match s with
    | x :: s' => if cmem c x then star_lazy c s' k else None
    | [] => None
    end
  end.

Fixpoint rmatch (r : regex) (s : pystr) (g : caps)
    (k : pystr -> caps -> option mres) {struct r} : option mres :=
  match r with
  | Lit l =>
    match strip_prefix l s with
    | Some s' => k s' g
    | None => None
    end
  | Cls c =>
    match s with
    | x :: s' => if cmem c x then k s' g else None
    | [] => None
    end
  | Rep greedy n c =>
    rep_min c n s (fun s' =>
      (if greedy then star_greedy else star_lazy) c s' (fun s'' => k s'' g))
  | Opt r1 =>
    match rmatch r1 s g k with
    | Some m => Some m
    | None => k s g
    end
  | Alt r1 r2 =>
    match rmatch r1 s g k with
    | Some m => Some m
    | None => rmatch r2 s g k
    end
  | Cat r1 r2 => rmatch r1 s g (fun s' g' => rmatch r2 s' g' k)
  | Grp n r1 =>
    rmatch r1 s g (fun s' g' =>
      k s' (<[n := take (length s - length s') s]> g'))
  | Ref n =>
    match g !! n with
    | Some l =>
      match strip_prefix l s with
      | Some s' => k s' g
      | None => None
      end
    | None => None
    end
  | Eos => if at_eos s then k s g else None
  end.

(** A match that starts at the head of [s]; with [must_advance] an empty
    match is turned down and the matcher backtracks. *)
Definition match_here (r : regex) (s : pystr) (must_advance : bool)
  : option mres :=
  rmatch r s ∅ (fun s' g =>
    if must_advance && (length s' =? length s)%nat then None else Some (s', g)).

Arguments match_here : simpl never.

Definition mk_match (s : pystr) (m : mres) : Match :=
  {| m_text := take (length s - length m.1) s; m_groups := m.2 |}.

(** [m.group(n)] for a group that took part in the match. *)
Definition group (m : Match) (n : nat) : pystr := default [] (m_groups m !! n).

(** [re.match]: at the start of the string only. *)
Definition re_match (r : regex) (s : pystr) : option Match :=
  mk_match s <$> match_here r s false.

(** [re.search]: the leftmost position with a match. *)
Fixpoint re_search (r : regex) (s : pystr) : option Match :=
  match match_here r s false with
  | Some m => Some (mk_match s m)
  | None =>
    match s with
    | [] => None
    | _ :: s' => re_search r s'
    end
  end.

(** The scanner behind [re.finditer] and [re.sub]: the matches from left to
    right, none overlapping, with the characters between them. [skip] counts
    the characters still inside the last match. After an empty match the
    same position is tried once more for a match that is not empty. *)
Fixpoint scan (r : regex) (s : pystr) (skip : nat) {struct s} : list piece :=
  match skip with
  | S n =>
    match s with
    | [] => []
    | _ :: s' => scan r s' n
    end
  | O =>
    match match_here r s false with
    | None =>
      match s with
      | [] => []
      | c :: s' => Gap c :: scan r s' 0
      end
    | Some m =>
      match (length s - length m.1)%nat with
      | S n =>
        Hit (mk_match s m) ::
        match s with
        | [] => []
        | _ :: s' => scan r s' n
        end
      | O =>
        Hit (mk_match s m) ::
        match match_here r s true with
        | Some m' =>
          Hit (mk_match s m') ::
          match s with
          | [] => []
          | _ :: s' => scan r s' (length s - length m'.1 - 1)
          end
        | None =>
          match s with
          | [] => []
          | c :: s' => Gap c :: scan r s' 0
          end
        end
      end
    end
  end.

Definition hits (ps : list piece) : list Match :=
  omap (fun p => match p with Hit m => Some m | Gap _ => None end) ps.

(** [re.finditer(r, s)]. *)
Definition re_finditer (r : regex) (s : pystr) : list Match := hits (scan r s 0).

(** [re.sub(r, repl, s)] for a replacement without group references. *)
Definition re_sub (r : regex) (repl s : pystr) : pystr :=
  concat (map (fun p => match p with Gap c => [c] | Hit _ => repl end) (scan r s 0)).

(** ** The framework around the extractors *)

(** Modelled from the spec: [InfoExtractor._search_regex] (extractor/common.py,
    not part of this module) called with [default=None]: [re.search], then the
    text of the first group when there is a match and [None] when there is
    none. Every pattern it is given here has one group, which takes part in
    every match. *)
Definition _search_regex (r : regex) (s : pystr) : option pystr :=
  (fun m => group m 1) <$> re_search r s.

(** The number a string of decimal digits stands for. *)
Definition int_of_digits (s : pystr) : Z :=
  Z.of_N (fold_left (fun acc c => 10 * acc + default 0 (todecimal c)) s 0).

(** Whether [int] turns a string of decimal digits down for its length: the
    string is longer than the limit of the interpreter (and than the
    threshold under which the limit is not looked at). Every digit counts,
    a leading zero too. *)
Definition int_refuses (s : pystr) : bool :=
  (0 <? int_max_str_digits)%nat && (int_max_str_digits <? length s)%nat
  && (str_digits_check_threshold <? length s)%nat.

(** [int(s)] on a string of decimal digits, the only strings a match of
    [\d+] can be: its value, or [None] for the [ValueError] [int] raises on
    a string over the limit. *)
Definition py_int (s : pystr) : option Z :=
  if int_refuses s then None else Some (int_of_digits s).

(** Modelled from the spec: [utils.int_or_none] (not part of this module):
    [None] and the empty string give [None], a string of decimal digits what
    [int] makes of it, with [None] where [int] raises [ValueError]. The other
    strings [int] accepts (signs, blanks, underscores) are no match of [\d+]
    and never reach it here; they are given [None]. *)
Definition int_or_none (v : option pystr) : option Z :=
  match v with
  | None => None
  | Some [] => None
  | Some s => if forallb is_digit s then py_int s else None
  end.

(** Modelled from the spec: [InfoExtractor._match_id]: [re.match] of
    [_VALID_URL] on the URL and the group named [id], group [id_group] of the
    pattern; a URL the pattern does not match is no input of the extractor. *)
Definition _match_id (valid_url : regex) (id_group : nat) (url : pystr) : M pystr :=
  match re_match valid_url url with
  | Some m => ret (group m id_group)
  | None => raise UnsuitableURL
  end.

(** ** DamtomoVideoIE._real_extract *)

Definition DamtomoVideoIE_real_extract (url : pystr) : M info_dict :=
  video_id <- _match_id DamtomoVideoIE_VALID_URL 2 url ;;
  page <- _download_webpage_handle (DamtomoVideoIE_page_url ++ video_id) ;;
  let webpage := page.1 in
  let handle_url := page.2 in
  if pystr_eqb handle_url sorry_url then
    raise (ExtractorError msg_rate_limited true)
  else if py_in server_error_marker webpage then
    raise (ExtractorError msg_server_error true)
  else
  let description := _search_regex re_description webpage in
  let uploader_id := _search_regex re_uploader_id webpage in
  let data_dict : gmap pystr pystr :=
    foldl (fun d g => <[group g 2 := clean_html (group g 3)]> d) ∅
          (re_finditer re_field webpage) in
  let data_dict : gmap pystr pystr :=
    re_sub re_spaces (u " ") <$> filter (fun kv => kv.2 ≠ []) data_dict in
  user_name <- getitem data_dict k_user_name ;;
  let data_dict := <[k_user_name := re_sub re_san [] user_name]> data_dict in
  t_song_title <- getitem data_dict k_song_title ;;
  t_song_artist <- getitem data_dict k_song_artist ;;
  t_user_name <- getitem data_dict k_user_name ;;
  let title := t_song_title ++ hyphen ++ t_song_artist ++ hyphen ++ t_user_name in
  stream_tree <- _download_xml (DamtomoVideoIE_xml_url ++ video_id) ;;
  (* try_get: a missing element or a missing text gives None *)
  let m3u8_url : option pystr :=
    x ← find_descendant DamtomoVideoIE_ns (u "streamingUrl") stream_tree;
    strip <$> e_text x in
  match m3u8_url with
  | None | Some [] => raise (ExtractorError msg_no_m3u8 false)
  | Some m3u8_url =>
    uploader <- getitem data_dict k_user_name ;;
    (* try_get: a missing key or a failed search gives None *)
    let upload_date : option pystr :=
      x ← data_dict !! k_date;
      replace_char_empty slash <$> _search_regex re_date x in
    audience <- getitem data_dict k_audience ;;
    let view_count := int_or_none (_search_regex re_digits audience) in
    nice <- getitem data_dict k_nice ;;
    let like_count := int_or_none (_search_regex re_digits nice) in
    song_title <- getitem data_dict k_song_title ;;
    song_artist <- getitem data_dict k_song_artist ;;
    ret {| info_id := video_id;
           info_title := title;
           info_uploader_id := uploader_id;
           info_description := description;
           info_formats := [hls_format m3u8_url];
           info_uploader := uploader;
           info_upload_date := upload_date;
           info_view_count := view_count;
           info_like_count := like_count;
           info_song_title := song_title;
           info_song_artist := song_artist |}
  end.

(** ** DamtomoRecordIE._real_extract *)

Definition DamtomoRecordIE_real_extract (url : pystr) : M info_dict :=
  video_id <- _match_id DamtomoRecordIE_VALID_URL 2 url ;;
  page <- _download_webpage_handle (DamtomoRecordIE_page_url ++ video_id) ;;
  let webpage := page.1 in
  let handle_url := page.2 in
  if pystr_eqb handle_url sorry_url then
    raise (ExtractorError msg_rate_limited true)
  else if py_in server_error_marker webpage then
    raise (ExtractorError msg_server_error true)
  else
  let description := _search_regex re_description webpage in
  let uploader_id := _search_regex re_uploader_id webpage in
  let data_dict : gmap pystr pystr :=
    foldl (fun d g => <[group g 2 := clean_html (group g 3)]> d) ∅
          (re_finditer re_field webpage) in
  let data_dict : gmap pystr pystr :=
    re_sub re_spaces (u " ") <$> filter (fun kv => kv.2 ≠ []) data_dict in
  user_name <- getitem data_dict k_user_name ;;
  let data_dict := <[k_user_name := re_sub re_san [] user_name]> data_dict in
  t_song_title <- getitem data_dict k_song_title ;;
  t_song_artist <- getitem data_dict k_song_artist ;;
  t_user_name <- getitem data_dict k_user_name ;;
  let title := t_song_title ++ hyphen ++ t_song_artist ++ hyphen ++ t_user_name in
  stream_tree <- _download_xml (DamtomoRecordIE_xml_url ++ video_id) ;;
  (* try_get: a missing element or a missing text gives None *)
  let m3u8_url : option pystr :=
    x ← find_descendant DamtomoRecordIE_ns (u "streamingUrl") stream_tree;
    strip <$> e_text x in
  match m3u8_url with
  | None | Some [] => raise (ExtractorError msg_no_m3u8 false)
  | Some m3u8_url =>
    uploader <- getitem data_dict k_user_name ;;
    (* try_get: a missing key or a failed search gives None *)
    let upload_date : option pystr :=
      x ← data_dict !! k_date;
      replace_char_empty slash <$> _search_regex re_date x in
    audience <- getitem data_dict k_audience ;;
    let view_count := int_or_none (_search_regex re_digits audience) in
    nice <- getitem data_dict k_nice ;;
    let like_count := int_or_none (_search_regex re_digits nice) in
    song_title <- getitem data_dict k_song_title ;;
    song_artist <- getitem data_dict k_song_artist ;;
    ret {| info_id := video_id;
           info_title := title;
           info_uploader_id := uploader_id;
           info_description := description;
           info_formats := [hls_format m3u8_url];
           info_uploader := uploader;
           info_upload_date := upload_date;
           info_view_count := view_count;
           info_like_count := like_count;
           info_song_title := song_title;
           info_song_artist := song_artist |}
  end.

(** ** Both extractors at once *)

Inductive extractor := VideoIE | RecordIE.

Definition VALID_URL (ie : extractor) : regex :=
  match ie with
  | VideoIE => DamtomoVideoIE_VALID_URL
  | RecordIE => DamtomoRecordIE_VALID_URL
  end.

Definition page_url (ie : extractor) : pystr :=
  match ie with
  | VideoIE => DamtomoVideoIE_page_url
  | RecordIE => DamtomoRecordIE_page_url
  end.

Definition xml_url (ie : extractor) : pystr :=
  match ie with
  | VideoIE => DamtomoVideoIE_xml_url
  | RecordIE => DamtomoRecordIE_xml_url
  end.

Definition xml_ns (ie : extractor) : pystr :=
  match ie with
  | VideoIE => DamtomoVideoIE_ns
  | RecordIE => DamtomoRecordIE_ns
  end.

Definition real_extract (ie : extractor) : pystr -> M info_dict :=
  match ie with
  | VideoIE => DamtomoVideoIE_real_extract
  | RecordIE => DamtomoRecordIE_real_extract
  end.

(** The resource id [_match_id] reads off a URL. *)
Definition video_id_of (ie : extractor) (url : pystr) : option pystr :=
  (fun m => group m 2) <$> re_match (VALID_URL ie) url.

(** The value of [data_dict] after its two comprehensions: the FieldMap of
    the page. *)
Definition FieldMap (webpage : pystr) : gmap pystr pystr :=
  re_sub re_spaces (u " ") <$>
    filter (fun kv => kv.2 ≠ [])
      (foldl (fun d g => <[group g 2 := clean_html (group g 3)]> d) ∅
             (re_finditer re_field webpage)).

(** The post-processing of the [user_name] field. *)
Definition strip_san (user_name : pystr) : pystr := re_sub re_san [] user_name.

(** The text the manifest lookup hands on: [None] when [try_get] swallows
    the failure of [find] or of [.text]. *)
Definition manifest_text (ie : extractor) (stream_tree : Element) : option pystr :=
  x ← find_descendant (xml_ns ie) (u "streamingUrl") stream_tree;
  strip <$> e_text x.

(** The expression behind the [upload_date] key. *)
Definition upload_date_of (d : gmap pystr pystr) : option pystr :=
  x ← d !! k_date;
  replace_char_empty slash <$> _search_regex re_date x.

(** The expression behind the [view_count] and [like_count] keys. *)
Definition count_of (v : pystr) : option Z :=
  int_or_none (_search_regex re_digits v).

(** ** The error classes of the specification *)

Definition RateLimited : exn := ExtractorError msg_rate_limited true.
Definition ServerError : exn := ExtractorError msg_server_error true.
Definition ManifestNotFound : exn := ExtractorError msg_no_m3u8 false.
Definition MissingField (key : pystr) : exn := KeyError key.

(** ** Specification-side definitions *)

(** Whitespace collapsing in the words of the specification: every run of
    whitespace becomes one space; [in_run] tells that the previous
    character was whitespace. *)
Fixpoint collapse_from (in_run : bool) (s : pystr) : pystr :=
  match s with
  | [] => []
  | x :: s' =>
    if is_space x then
      if in_run then collapse_from true s' else 32 :: collapse_from true s'
    else x :: collapse_from false s'
  end.

Definition collapse_whitespace (s : pystr) : pystr := collapse_from false s.

(** A text shaped [YYYY/MM/DD]: four digits, a slash, two digits, a slash,
    two digits. *)
Definition date_shaped (t : pystr) : bool :=
  match t with
  | [y1; y2; y3; y4; s1; m1; m2; s2; d1; d2] =>
    is_digit y1 && is_digit y2 && is_digit y3 && is_digit y4 && (slash =? s1)
    && is_digit m1 && is_digit m2 && (slash =? s2) && is_digit d1 && is_digit d2
  | _ => false
  end.

Definition all_space (s : pystr) : bool := forallb is_space s.
Definition all_digits (s : pystr) : bool := forallb is_digit s.
Definition no_digit (s : pystr) : bool := forallb (fun c => negb (is_digit c)) s.

(** [s] ends a run: nothing follows, or what follows is no digit. *)
Definition run_ends (p : N -> bool) (post : pystr) : bool :=
  match post with
  | [] => true
  | c :: _ => negb (p c)
  end.

(** The first maximal run of decimal digits of [v]; empty when [v] has no
    digit. *)
Definition first_digits (v : pystr) : pystr :=
  take_while is_digit (drop_while (fun c => negb (is_digit c)) v).

(** [x] is a [streamingUrl] element of the namespace of [ie] at position
    [path] of [stream_tree], below the root. *)
Definition streaming_url_at (ie : extractor) (stream_tree : Element)
    (path : list nat) (x : Element) : Prop :=
  path ≠ [] /\ subelement path stream_tree = Some x
  /\ e_tag x = qname (xml_ns ie) (u "streamingUrl").

(** The text of a piece of a scan. *)
Definition piece_text (p : piece) : pystr :=
  match p with
  | Gap c => [c]
  | Hit m => m_text m
  end.

(** *** The polite suffix *)

(** The rest of the string is optional whitespace, the token, and nothing
    but whitespace after it. *)
Definition san_tail (s : pystr) : bool :=
  match strip_prefix san (drop_while is_space s) with
  | Some t => all_space t
  | None => false
  end.

(** The text before the first position from which [san_tail] holds. *)
Fixpoint before_san_tail (s : pystr) : pystr :=
  match s with
  | [] => []
  | x :: t => if san_tail s then [] else x :: before_san_tail t
  end.

(** The characters of [s] that are no whitespace. *)
Definition non_spaces (s : pystr) : pystr := List.filter (fun c => negb (is_space c)) s.

(** [p] does not end in whitespace. *)
Definition ends_clean (p : pystr) : bool :=
  match last p with
  | Some c => negb (is_space c)
  | None => true
  end.

(** *** The field pattern *)

(** The field pattern after its opening [<] and tag. *)
Definition field_tail : regex :=
  Rep true 1 CSpace +> Lit (u "class=" ++ dq)
  +> Grp 2 (Rep false 1 (CNoneOf (dq ++ u " "))) +> Lit (dq ++ u ">")
  +> Grp 3 (Rep false 1 CAny) +> Lit (u "</") +> Ref 1 +> Lit (u ">").

(** [</TAG>] *)
Definition closing (tag : pystr) : pystr := u "</" ++ tag ++ u ">".

(** The text of one occurrence of the field pattern. *)
Definition field_text (tag ws label content : pystr) : pystr :=
  u "<" ++ tag ++ ws ++ (u "class=" ++ dq) ++ label ++ (dq ++ u ">") ++ content
  ++ closing tag.

(** An occurrence: [<TAG], whitespace, [class=], the quoted label, [>], the
    content, [</TAG>], with the content not reaching over an earlier
    [</TAG>] (the content is matched lazily). *)
Definition field_occurrence (tag ws label content rest : pystr) : Prop :=
  (tag = u "p" \/ tag = u "div")
  /\ ws ≠ [] /\ all_space ws = true
  /\ label ≠ [] /\ forallb (cmem (CNoneOf (dq ++ u " "))) label = true
  /\ content ≠ []
  /\ (forall j, (0 < j < length content)%nat ->
        strip_prefix (closing tag) (drop j (content ++ closing tag ++ rest)) = None).

(** ** One extraction, step by step *)

(** The record a successful extraction returns, from the values it read. *)
Definition assemble (video_id webpage m3u8_url un st sa au ni : pystr) : info_dict :=
  {| info_id := video_id;
     info_title := st ++ hyphen ++ sa ++ hyphen ++ strip_san un;
     info_uploader_id := _search_regex re_uploader_id webpage;
     info_description := _search_regex re_description webpage;
     info_formats := [hls_format m3u8_url];
     info_uploader := strip_san un;
     info_upload_date := upload_date_of (FieldMap webpage);
     info_view_count := count_of au;
     info_like_count := count_of ni;
     info_song_title := st;
     info_song_artist := sa |}.

(** What a call does, read off the code of [_real_extract] statement by
    statement: the outcome and the requests made. *)
Definition extraction (ie : extractor) (url : pystr) (w : Web)
  : outcome info_dict * list request :=
  match video_id_of ie url with
  | None => (Raise UnsuitableURL, [])
  | Some video_id =>
    let req1 := GetPage (page_url ie ++ video_id) in
    match web_page w (page_url ie ++ video_id) with
    | None => (Raise (DownloadFailed req1), [req1])
    | Some (webpage, handle_url) =>
      if pystr_eqb handle_url sorry_url then (Raise RateLimited, [req1])
      else if py_in server_error_marker webpage then (Raise ServerError, [req1])
      else
        let fm := FieldMap webpage in
        match fm !! k_user_name with
        | None => (Raise (KeyError k_user_name), [req1])
        | Some un =>
        match fm !! k_song_title with
        | None => (Raise (KeyError k_song_title), [req1])
        | Some st =>
        match fm !! k_song_artist with
        | None => (Raise (KeyError k_song_artist), [req1])
        | Some sa =>
          let req2 := GetXML (xml_url ie ++ video_id) in
          match web_xml w (xml_url ie ++ video_id) with
          | None => (Raise (DownloadFailed req2), [req1; req2])
          | Some stream_tree =>
            match manifest_text ie stream_tree with
            | None | Some [] => (Raise ManifestNotFound, [req1; req2])
            | Some m3u8_url =>
              match fm !! k_audience with
              | None => (Raise (KeyError k_audience), [req1; req2])
              | Some au =>
              match fm !! k_nice with
              | None => (Raise (KeyError k_nice), [req1; req2])
              | Some ni =>
                (Return (assemble video_id webpage m3u8_url un st sa au ni),
                 [req1; req2])
              end
              end
            end
          end
        end
        end
        end
    end
  end.

(** ** The shapes of the inputs *)

(** What tells the page URLs of the two extractors apart in [_VALID_URL]. *)
Definition endpoint (ie : extractor) : pystr :=
  match ie with
  | VideoIE => u "karaokeMovie/StreamingDkm.do?karaokeMovieId="
  | RecordIE => u "karaokePost/StreamingKrk.do?karaokeContributeId="
  end.

(** A URL of the site: with or without the [s] of the scheme, the [www.] of
    the host and the [SP/] of the path, then the resource id and whatever
    follows it. *)
Definition clubdam_url (ie : extractor) (tls www sp : bool) (id rest : pystr)
  : pystr :=
  u "http" ++ (if tls then u "s" else []) ++ u "://"
  ++ (if www then u "www." else []) ++ u "clubdam.com/app/damtomo/"
  ++ (if sp then u "SP/" else []) ++ endpoint ie ++ id ++ rest.

(** The two runs end alike after [n] requests each. *)
Ltac same_outcome n :=
  split; [cbn [fst]; reflexivity
         |exists n; split; cbn [snd take firstn]; reflexivity].

(** * Properties *)

(** ** The matcher on the patterns of the source *)

Lemma star_greedy_longest c s k m :
  k (drop_while (cmem c) s) = Some m -> star_greedy c s k = Some m.
Proof.
  induction s as [|x s IH]; simpl; [done|].
  destruct (cmem c x); [|done].
  intros H. by rewrite (IH H).
Qed.

Lemma star_greedy_commit c s k :
  (forall x t, cmem c x = true -> k (x :: t) = None) ->
  star_greedy c s k = k (drop_while (cmem c) s).
Proof.
  intros Hk. induction s as [|x s IH]; simpl; [done|].
  destruct (cmem c x) eqn:Hx; [|done].
  rewrite IH. destruct (k (drop_while (cmem c) s)); [done|].
  by rewrite Hk.
Qed.

Lemma take_drop_while p s :
  take (length s - length (drop_while p s)) s = take_while p s.
Proof.
  induction s as [|x s IH]; simpl; [done|].
  destruct (p x); simpl.
  - assert (length (drop_while p s) <= length s)%nat.
    { clear. induction s as [|y s IH]; simpl; [lia|]. destruct (p y); simpl; lia. }
    destruct (length s - length (drop_while p s))%nat eqn:E.
    + replace (S (length s) - length (drop_while p s))%nat with 1%nat by lia.
      simpl. f_equal. rewrite <- IH. by rewrite take_0.
    + replace (S (length s) - length (drop_while p s))%nat with (S (S n)) by lia.
      simpl. f_equal. rewrite <- IH. done.
  - by rewrite Nat.sub_diag.
Qed.

Lemma take_while_run p run post :
  forallb p run = true -> run_ends p post = true ->
  take_while p (run ++ post) = run.
Proof.
  intros Hrun Hpost. induction run as [|x run IH]; simpl in *.
  - destruct post as [|c post]; simpl in *; [done|].
    by destruct (p c).
  - apply andb_prop in Hrun as [-> Hrun]. by rewrite IH.
Qed.

(** *** [(\d+)] *)

Lemma match_here_digits s :
  match_here re_digits s false =
  match s with
  | [] => None
  | x :: t =>
    if is_digit x
    then Some (drop_while is_digit t, {[1%nat := x :: take_while is_digit t]})
    else None
  end.
Proof.
  unfold match_here, re_digits. cbn [rmatch rep_min].
  destruct s as [|x t]; [done|].
  cbn [cmem]. destruct (is_digit x) eqn:Hx; [|done].
  erewrite star_greedy_longest; [|reflexivity].
  cbn [andb]. do 2 f_equal.
  change (cmem CDigit) with is_digit.
  rewrite insert_empty. f_equal.
  pose proof (take_drop_while is_digit (x :: t)) as H.
  cbn [drop_while take_while] in H. by rewrite Hx in H.
Qed.

Lemma search_digits_none s :
  no_digit s = true -> _search_regex re_digits s = None.
Proof.
  unfold _search_regex. induction s as [|x s IH]; simpl.
  - done.
  - intros [Hx Hs]%andb_prop. rewrite match_here_digits.
    destruct (is_digit x); [done|]. by apply IH.
Qed.

Lemma search_digits_run pre digits post :
  no_digit pre = true -> all_digits digits = true -> digits ≠ [] ->
  run_ends is_digit post = true ->
  _search_regex re_digits (pre ++ digits ++ post) = Some digits.
Proof.
  intros Hpre Hrun Hne Hpost. unfold _search_regex.
  induction pre as [|x pre IH]; simpl.
  - destruct digits as [|d digits]; [done|]. simpl in *.
    apply andb_prop in Hrun as [Hd Hrun].
    rewrite match_here_digits, Hd. simpl.
    unfold group. simpl. rewrite lookup_singleton_eq. simpl.
    by rewrite take_while_run.
  - simpl in Hpre. apply andb_prop in Hpre as [Hx Hpre].
    rewrite match_here_digits. destruct (is_digit x); [done|]. by apply IH.
Qed.

Lemma count_of_run pre digits post :
  no_digit pre = true -> all_digits digits = true -> digits ≠ [] ->
  run_ends is_digit post = true ->
  count_of (pre ++ digits ++ post) = py_int digits.
Proof.
  intros. unfold count_of. rewrite search_digits_run by done.
  unfold int_or_none. destruct digits; [done|].
  by replace (forallb is_digit (n :: digits)) with true.
Qed.

Lemma count_of_none s : no_digit s = true -> count_of s = None.
Proof. intros. unfold count_of. by rewrite search_digits_none. Qed.

(** *** [re.search] *)

Lemma re_search_here r s m :
  match_here r s false = Some m -> re_search r s = Some (mk_match s m).
Proof. intros H. destruct s; simpl; by rewrite H. Qed.

Lemma re_search_skip r pre s :
  (forall i, (i < length pre)%nat -> match_here r (drop i (pre ++ s)) false = None) ->
  re_search r (pre ++ s) = re_search r s.
Proof.
  induction pre as [|x pre IH]; intros H; [done|].
  pose proof (H 0%nat ltac:(simpl; lia)) as H0. simpl in H0.
  simpl. rewrite H0.
  apply IH. intros i Hi. apply (H (S i)). simpl. lia.
Qed.

Lemma re_search_nowhere r s :
  (forall i, (i <= length s)%nat -> match_here r (drop i s) false = None) ->
  re_search r s = None.
Proof.
  induction s as [|x s IH]; intros H.
  - pose proof (H 0%nat ltac:(done)) as H0. simpl in H0. simpl. by rewrite H0.
  - pose proof (H 0%nat ltac:(simpl; lia)) as H0. simpl in H0. simpl. rewrite H0.
    apply IH. intros i Hi. apply (H (S i)). simpl. lia.
Qed.

(** *** [(\d\d\d\d/\d\d/\d\d)] *)

Lemma take_length_diff (pre rest : pystr) :
  take (length (pre ++ rest) - length rest) (pre ++ rest) = pre.
Proof.
  rewrite length_app. replace (length pre + length rest - length rest)%nat
    with (length pre) by lia.
  by rewrite take_app_length.
Qed.

Lemma match_here_date s :
  match_here re_date s false =
  match s with
  | y1 :: y2 :: y3 :: y4 :: s1 :: m1 :: m2 :: s2 :: d1 :: d2 :: rest =>
    let t := [y1; y2; y3; y4; s1; m1; m2; s2; d1; d2] in
    if date_shaped t then Some (rest, {[1%nat := t]}) else None
  | _ => None
  end.
Proof.
  unfold match_here, re_date. cbn [rmatch cmem strip_prefix].
  destruct s as [|y1 [|y2 [|y3 [|y4 [|s1 [|m1 [|m2 [|s2 [|d1 [|d2 rest]]]]]]]]]];
    try done; try (by repeat (case_match; simplify_eq; try done)).
  cbn [date_shaped].
  destruct (is_digit y1); [|done]. destruct (is_digit y2); [|done].
  destruct (is_digit y3); [|done]. destruct (is_digit y4); [|done].
  destruct (slash =? s1); [|done].
  destruct (is_digit m1); [|done]. destruct (is_digit m2); [|done].
  destruct (slash =? s2); [|done].
  destruct (is_digit d1); [|done]. destruct (is_digit d2); [|done].
  cbn [andb]. rewrite insert_empty. do 3 f_equal.
  apply (take_length_diff [y1; y2; y3; y4; s1; m1; m2; s2; d1; d2] rest).
Qed.

Lemma date_shaped_length t : date_shaped t = true -> length t = 10%nat.
Proof.
  destruct t as [|y1 [|y2 [|y3 [|y4 [|s1 [|m1 [|m2 [|s2 [|d1 [|d2 [|? ?]]]]]]]]]]];
    done.
Qed.

Lemma match_here_date_shaped t post :
  date_shaped t = true ->
  match_here re_date (t ++ post) false = Some (post, {[1%nat := t]}).
Proof.
  intros H.
  destruct t as [|y1 [|y2 [|y3 [|y4 [|s1 [|m1 [|m2 [|s2 [|d1 [|d2 [|? ?]]]]]]]]]]];
    try done.
  change (match_here re_date
    (y1 :: y2 :: y3 :: y4 :: s1 :: m1 :: m2 :: s2 :: d1 :: d2 :: post) false =
    Some (post, {[1%nat := [y1; y2; y3; y4; s1; m1; m2; s2; d1; d2]]})).
  rewrite match_here_date. cbv zeta. by rewrite H.
Qed.

Lemma match_here_date_None s :
  date_shaped (take 10 s) = false -> match_here re_date s false = None.
Proof.
  rewrite match_here_date.
  destruct s as [|y1 [|y2 [|y3 [|y4 [|s1 [|m1 [|m2 [|s2 [|d1 [|d2 rest]]]]]]]]]];
    try done.
  cbn [take firstn]. unfold take. cbv zeta. by intros ->.
Qed.

Lemma search_date_found pre t post :
  date_shaped t = true ->
  (forall i, (i < length pre)%nat ->
     date_shaped (take 10 (drop i (pre ++ t ++ post))) = false) ->
  _search_regex re_date (pre ++ t ++ post) = Some t.
Proof.
  intros Ht Hpre. unfold _search_regex.
  rewrite re_search_skip.
  - rewrite (re_search_here _ _ _ (match_here_date_shaped t post Ht)).
    simpl. unfold group. simpl. by rewrite lookup_singleton_eq.
  - intros i Hi. by apply match_here_date_None, Hpre.
Qed.

Lemma search_date_none d :
  (forall i, date_shaped (take 10 (drop i d)) = false) ->
  _search_regex re_date d = None.
Proof.
  intros H. unfold _search_regex. rewrite re_search_nowhere; [done|].
  intros i _. by apply match_here_date_None.
Qed.

(** *** The scanner *)

Lemma scan_skip r s n : (n <= length s)%nat -> scan r s n = scan r (drop n s) 0.
Proof.
  revert n. induction s as [|x s IH]; intros [|n] Hn; simpl in *; try done; try lia.
  apply IH. lia.
Qed.

Lemma scan_miss r x s :
  match_here r (x :: s) false = None -> scan r (x :: s) 0 = Gap x :: scan r s 0.
Proof. intros H. simpl. by rewrite H. Qed.

Lemma scan_hit r x s m n :
  match_here r (x :: s) false = Some m ->
  (length (x :: s) - length m.1 = S n)%nat ->
  scan r (x :: s) 0 = Hit (mk_match (x :: s) m) :: scan r (drop n s) 0.
Proof.
  intros H Hn. rewrite <- scan_skip by (simpl in Hn; lia).
  cbn [scan]. rewrite H. by rewrite Hn.
Qed.

Lemma scan_nil_miss r : match_here r [] false = None -> scan r [] 0 = [].
Proof. intros H. simpl. by rewrite H. Qed.

Lemma length_drop_while p s : (length (drop_while p s) <= length s)%nat.
Proof. induction s as [|x s IH]; simpl; [lia|]. destruct (p x); simpl; lia. Qed.

Lemma drop_take_while p s :
  drop (length s - length (drop_while p s)) s = drop_while p s.
Proof.
  induction s as [|x s IH]; simpl; [done|].
  pose proof (length_drop_while p s).
  destruct (p x); simpl.
  - replace (S (length s) - length (drop_while p s))%nat
      with (S (length s - length (drop_while p s))) by lia.
    simpl. apply IH.
  - by rewrite Nat.sub_diag.
Qed.

(** *** [\s+] *)

Lemma match_here_spaces s :
  match_here re_spaces s false =
  match s with
  | [] => None
  | x :: t => if is_space x then Some (drop_while is_space t, ∅) else None
  end.
Proof.
  unfold match_here, re_spaces. cbn [rmatch rep_min].
  destruct s as [|x t]; [done|].
  cbn [cmem]. destruct (is_space x); [|done].
  by erewrite star_greedy_longest.
Qed.

Lemma collapse_from_true s :
  collapse_from true s = collapse_from false (drop_while is_space s).
Proof.
  induction s as [|x s IH]; simpl; [done|].
  destruct (is_space x) eqn:Hx; [done|]. simpl. by rewrite Hx.
Qed.

Lemma re_sub_spaces s : re_sub re_spaces (u " ") s = collapse_whitespace s.
Proof.
  unfold re_sub, collapse_whitespace.
  remember (length s) as n eqn:Hn. revert s Hn.
  induction n as [n IH] using lt_wf_ind. intros s ->.
  destruct s as [|x t].
  - rewrite scan_nil_miss; [done|]. by rewrite match_here_spaces.
  - simpl collapse_from. destruct (is_space x) eqn:Hx.
    + pose proof (length_drop_while is_space t) as Hlen.
      rewrite (scan_hit _ _ _ (drop_while is_space t, ∅)
                 (length t - length (drop_while is_space t))).
      * rewrite drop_take_while. simpl. f_equal.
        rewrite collapse_from_true.
        eapply IH; [|reflexivity]. simpl. lia.
      * by rewrite match_here_spaces, Hx.
      * simpl. lia.
    + rewrite scan_miss by (by rewrite match_here_spaces, Hx).
      simpl. f_equal. eapply IH; [|reflexivity]. simpl. lia.
Qed.

(** *** [\s*さん\s*$] *)

Lemma star_greedy_eos t g :
  star_greedy CSpace t (fun s'' => if at_eos s'' then Some (s'', g) else None) =
  if all_space t then Some ([], g) else None.
Proof.
  induction t as [|x t IH]; [done|].
  cbn [star_greedy cmem all_space forallb].
  destruct (is_space x) eqn:Hx.
  - rewrite IH. fold (all_space t). destruct (all_space t) eqn:Ht; [done|].
    destruct t; [done|]. done.
  - simpl. destruct t; [|done].
    destruct (x =? 10) eqn:E; [|done].
    apply N.eqb_eq in E. by subst.
Qed.

Lemma match_here_san s :
  match_here re_san s false = if san_tail s then Some ([], ∅) else None.
Proof.
  unfold match_here, re_san, san_tail. cbn [rmatch rep_min].
  rewrite star_greedy_commit.
  - change (cmem CSpace) with is_space.
    destruct (strip_prefix san (drop_while is_space s)) as [t|]; [|done].
    cbn [andb]. apply star_greedy_eos.
  - intros x t Hx. cbn [cmem] in Hx. unfold san. cbn [strip_prefix].
    destruct (12373 =? x) eqn:E; [|done].
    apply N.eqb_eq in E. by subst.
Qed.

Lemma strip_san_before s : strip_san s = before_san_tail s.
Proof.
  unfold strip_san, re_sub.
  induction s as [|x t IH].
  - rewrite scan_nil_miss; [done|]. by rewrite match_here_san.
  - cbn [before_san_tail]. destruct (san_tail (x :: t)) eqn:Hs.
    + rewrite (scan_hit _ _ _ ([], ∅) (length t)).
      * rewrite drop_all. rewrite scan_nil_miss; [done|]. by rewrite match_here_san.
      * by rewrite match_here_san, Hs.
      * done.
    + rewrite scan_miss by (by rewrite match_here_san, Hs).
      simpl. by f_equal.
Qed.

Lemma strip_prefix_Some p s t : strip_prefix p s = Some t -> s = p ++ t.
Proof.
  revert s. induction p as [|c p IH]; intros s H; simpl in *.
  - by simplify_eq.
  - destruct s as [|x s]; [done|].
    destruct (c =? x) eqn:E; [|done].
    apply N.eqb_eq in E. subst. f_equal. by apply IH.
Qed.

Lemma strip_prefix_app p t : strip_prefix p (p ++ t) = Some t.
Proof. induction p as [|c p IH]; simpl; [done|]. by rewrite N.eqb_refl. Qed.

Lemma take_drop_while_app p s : s = take_while p s ++ drop_while p s.
Proof. induction s as [|x s IH]; simpl; [done|]. destruct (p x); simpl; congruence. Qed.

Lemma forallb_take_while p s : forallb p (take_while p s) = true.
Proof. induction s as [|x s IH]; simpl; [done|]. destruct (p x) eqn:E; simpl; by rewrite ?E. Qed.

Lemma drop_while_app_stop p ws s :
  forallb p ws = true -> run_ends p s = true -> drop_while p (ws ++ s) = s.
Proof.
  intros Hws Hs. induction ws as [|x ws IH]; simpl in *.
  - destruct s as [|c s]; simpl in *; [done|]. by destruct (p c).
  - apply andb_prop in Hws as [-> Hws]. by apply IH.
Qed.

Lemma non_spaces_app a b : non_spaces (a ++ b) = non_spaces a ++ non_spaces b.
Proof. apply List.filter_app. Qed.

Lemma non_spaces_all_space s : all_space s = true -> non_spaces s = [].
Proof.
  induction s as [|x s IH]; simpl; [done|].
  intros [Hx Hs]%andb_prop. rewrite Hx. simpl. by apply IH.
Qed.

Lemma san_tail_inv s :
  san_tail s = true ->
  exists ws t, s = ws ++ san ++ t /\ all_space ws = true /\ all_space t = true.
Proof.
  unfold san_tail. intros H.
  destruct (strip_prefix san (drop_while is_space s)) as [t|] eqn:E; [|done].
  apply strip_prefix_Some in E.
  exists (take_while is_space s), t. split_and!; [|apply forallb_take_while|done].
  rewrite <- E. apply take_drop_while_app.
Qed.

Lemma san_tail_intro ws t :
  all_space ws = true -> all_space t = true -> san_tail (ws ++ san ++ t) = true.
Proof.
  intros Hws Ht. unfold san_tail.
  rewrite drop_while_app_stop by done.
  by rewrite strip_prefix_app.
Qed.

Lemma ends_clean_non_spaces x p : ends_clean (x :: p) = true -> non_spaces (x :: p) ≠ [].
Proof.
  revert x. induction p as [|y p IH]; intros x H.
  - unfold ends_clean in H. simpl in *. by destruct (is_space x).
  - assert (ends_clean (y :: p) = true) as H' by done.
    specialize (IH y H'). simpl in *. destruct (negb (is_space x)); [done|]. done.
Qed.

Lemma san_tail_after_text x q w1 w2 :
  ends_clean (x :: q) = true -> all_space w1 = true -> all_space w2 = true ->
  san_tail ((x :: q) ++ w1 ++ san ++ w2) = false.
Proof.
  intros Hq H1 H2. destruct (san_tail _) eqn:E; [|done]. exfalso.
  apply san_tail_inv in E as (ws & t & E & Hws & Ht).
  apply (f_equal non_spaces) in E.
  rewrite !non_spaces_app in E.
  rewrite (non_spaces_all_space w1), (non_spaces_all_space w2),
    (non_spaces_all_space ws), (non_spaces_all_space t) in E by done.
  pose proof (ends_clean_non_spaces x q Hq) as Hne.
  destruct (non_spaces (x :: q)) as [|a l]; [done|].
  apply (f_equal length) in E. rewrite !length_app in E. simpl in E. lia.
Qed.

Lemma before_san_tail_cons x t :
  before_san_tail (x :: t) = if san_tail (x :: t) then [] else x :: before_san_tail t.
Proof. reflexivity. Qed.

Lemma before_san_tail_strips p w1 w2 :
  ends_clean p = true -> all_space w1 = true -> all_space w2 = true ->
  before_san_tail (p ++ w1 ++ san ++ w2) = p.
Proof.
  intros Hp H1 H2. induction p as [|x p IH].
  - change ([] ++ w1 ++ san ++ w2) with (w1 ++ san ++ w2).
    pose proof (san_tail_intro w1 w2 H1 H2) as E.
    destruct (w1 ++ san ++ w2) eqn:Es; [done|].
    rewrite before_san_tail_cons. by rewrite E.
  - change ((x :: p) ++ w1 ++ san ++ w2) with (x :: (p ++ w1 ++ san ++ w2)).
    rewrite before_san_tail_cons.
    change (x :: (p ++ w1 ++ san ++ w2)) with ((x :: p) ++ w1 ++ san ++ w2).
    rewrite san_tail_after_text by done. f_equal. apply IH.
    destruct p; done.
Qed.

Lemma before_san_tail_id s :
  (forall p w2, all_space w2 = true -> s ≠ p ++ san ++ w2) ->
  before_san_tail s = s.
Proof.
  induction s as [|x s IH]; intros H; [done|].
  rewrite before_san_tail_cons. destruct (san_tail (x :: s)) eqn:E.
  - apply san_tail_inv in E as (ws & t & E & _ & Ht). by destruct (H ws t Ht).
  - f_equal. apply IH. intros p w2 Hw ->. by apply (H (x :: p) w2 Hw).
Qed.

(** *** Inversion of the repetitions *)

Lemma star_lazy_inv c s k m :
  star_lazy c s k = Some m ->
  exists n, (n <= length s)%nat /\ forallb (cmem c) (take n s) = true
            /\ k (drop n s) = Some m
            /\ forall j, (j < n)%nat -> k (drop j s) = None.
Proof.
  induction s as [|x s IH]; cbn [star_lazy].
  - destruct (k []) eqn:E; [|done]. intros [= <-].
    exists 0%nat. split_and!; [done|done|done|lia].
  - destruct (k (x :: s)) eqn:E.
    + intros [= <-]. exists 0%nat. split_and!; [simpl; lia|done|done|lia].
    + destruct (cmem c x) eqn:Hx; [|done].
      intros (n & Hn & Hall & Hk & Hmin)%IH.
      exists (S n). split_and!; [simpl; lia| |done|].
      * simpl. by rewrite Hx.
      * intros [|j] Hj; [done|]. apply Hmin. lia.
Qed.

Lemma star_greedy_inv c s k m :
  star_greedy c s k = Some m ->
  exists n, (n <= length s)%nat /\ forallb (cmem c) (take n s) = true
            /\ k (drop n s) = Some m.
Proof.
  induction s as [|x s IH]; cbn [star_greedy].
  - intros H. exists 0%nat. by split_and!.
  - destruct (cmem c x) eqn:Hx.
    + destruct (star_greedy c s k) eqn:E.
      * intros [= <-]. destruct (IH eq_refl) as (n & Hn & Hall & Hk).
        exists (S n). split_and!; [simpl; lia| |done].
        simpl. by rewrite Hx.
      * intros H. exists 0%nat. split_and!; [simpl; lia|done|done].
    + intros H. exists 0%nat. split_and!; [simpl; lia|done|done].
Qed.

Lemma rep_min_1_inv c s k m :
  rep_min c 1 s k = Some m ->
  exists x s', s = x :: s' /\ cmem c x = true /\ k s' = Some m.
Proof.
  cbn [rep_min]. destruct s as [|x s']; [done|].
  destruct (cmem c x) eqn:Hx; [|done]. eauto.
Qed.

Lemma star_lazy_split c s k m :
  star_lazy c s k = Some m ->
  exists pre post, s = pre ++ post /\ forallb (cmem c) pre = true
                   /\ k post = Some m
                   /\ forall j, (j < length pre)%nat -> k (drop j s) = None.
Proof.
  intros (n & Hn & Hall & Hk & Hmin)%star_lazy_inv.
  exists (take n s), (drop n s). split_and!; [by rewrite take_drop|done|done|].
  intros j Hj. apply Hmin. rewrite length_take in Hj. lia.
Qed.

Lemma star_greedy_split c s k m :
  star_greedy c s k = Some m ->
  exists pre post, s = pre ++ post /\ forallb (cmem c) pre = true
                   /\ k post = Some m.
Proof.
  intros (n & Hn & Hall & Hk)%star_greedy_inv.
  exists (take n s), (drop n s). split_and!; [by rewrite take_drop|done|done].
Qed.

Lemma take_length_cons_app (z : N) (pre post : pystr) :
  take (S (length (pre ++ post)) - length post) (z :: pre ++ post) = z :: pre.
Proof. apply (take_length_diff (z :: pre) post). Qed.

(** *** What a match leaves is a suffix of the input *)

Lemma strip_prefix_length p s t :
  strip_prefix p s = Some t -> (length t <= length s)%nat.
Proof.
  intros ->%strip_prefix_Some. rewrite length_app. lia.
Qed.

Lemma rep_min_cont c n s k m :
  rep_min c n s k = Some m ->
  exists s', (length s' <= length s)%nat /\ k s' = Some m.
Proof.
  revert s. induction n as [|n IH]; intros s; cbn [rep_min].
  - eauto.
  - destruct s as [|x s]; [done|]. destruct (cmem c x); [|done].
    intros (s' & Hs' & Hk)%IH. exists s'. split; [simpl; lia|done].
Qed.

Lemma rmatch_cont r s g k m :
  rmatch r s g k = Some m ->
  exists s' g', (length s' <= length s)%nat /\ k s' g' = Some m.
Proof.
  revert s g k m. induction r as [l|c|gr n c|r1 IH1|r1 IH1 r2 IH2|r1 IH1 r2 IH2
                                 |n r1 IH1|n|]; intros s g k m; cbn [rmatch].
  - destruct (strip_prefix l s) as [s'|] eqn:E; [|done].
    intros H. exists s', g. split; [by eapply strip_prefix_length|done].
  - destruct s as [|x s']; [done|]. destruct (cmem c x); [|done].
    intros H. exists s', g. split; [simpl; lia|done].
  - intros (s1 & Hs1 & H)%rep_min_cont. destruct gr.
    + apply star_greedy_inv in H as (j & Hj & _ & H).
      exists (drop j s1), g. split; [rewrite length_drop; lia|done].
    + apply star_lazy_inv in H as (j & Hj & _ & H & _).
      exists (drop j s1), g. split; [rewrite length_drop; lia|done].
  - destruct (rmatch r1 s g k) as [m0|] eqn:E.
    + intros [= <-]. by apply IH1 in E.
    + intros H. exists s, g. split; [lia|done].
  - destruct (rmatch r1 s g k) as [m0|] eqn:E.
    + intros [= <-]. by apply IH1 in E.
    + by intros H%IH2.
  - intros (s1 & g1 & Hs1 & (s2 & g2 & Hs2 & H)%IH2)%IH1.
    exists s2, g2. split; [lia|done].
  - intros (s1 & g1 & Hs1 & H)%IH1. eauto.
  - destruct (g !! n) as [l|]; [|done].
    destruct (strip_prefix l s) as [s'|] eqn:E; [|done].
    intros H. exists s', g. split; [by eapply strip_prefix_length|done].
  - destruct (at_eos s); [|done]. intros H. exists s, g. split; [lia|done].
Qed.

Lemma match_here_length r s ma m :
  match_here r s ma = Some m -> (length m.1 <= length s)%nat.
Proof.
  unfold match_here. intros (s' & g' & Hs' & H)%rmatch_cont.
  destruct (ma && _); [done|]. by simplify_eq.
Qed.

Lemma match_here_advance r s m :
  match_here r s true = Some m -> (length m.1 < length s)%nat.
Proof.
  unfold match_here. intros (s' & g' & Hs' & H)%rmatch_cont.
  cbn [andb] in H. destruct (length s' =? length s)%nat eqn:E; [done|].
  apply Nat.eqb_neq in E. simplify_eq. simpl. lia.
Qed.

(** *** The pieces of a scan *)

Lemma scan_concat r s skip :
  (skip <= length s)%nat ->
  concat (map piece_text (scan r s skip)) = drop skip s.
Proof.
  revert skip. induction s as [|x s IH]; intros skip Hskip.
  - destruct skip; [|simpl in Hskip; lia]. cbn [scan].
    destruct (match_here r [] false) as [m|]; [|done].
    cbn [length Nat.sub]. destruct (match_here r [] true); done.
  - destruct skip as [|n]; [|cbn [scan drop skipn]; apply IH; simpl in Hskip; lia].
    cbn [scan drop skipn].
    destruct (match_here r (x :: s) false) as [m|] eqn:E.
    + pose proof (match_here_length _ _ _ _ E) as Hm.
      destruct (length (x :: s) - length m.1)%nat as [|n] eqn:En.
      * cbn [map concat piece_text mk_match m_text]. rewrite En, take_0. cbn [app].
        destruct (match_here r (x :: s) true) as [m'|] eqn:E'.
        -- pose proof (match_here_advance _ _ _ E') as Hm'.
           cbn [map concat piece_text mk_match m_text].
           rewrite IH by (simpl in *; lia).
           remember (length (x :: s) - length m'.1)%nat as n1 eqn:En1.
           destruct n1 as [|n1]; [simpl in *; lia|].
           cbn [take firstn Nat.sub]. rewrite Nat.sub_0_r.
           cbn [app]. by rewrite take_drop.
        -- cbn [map concat piece_text]. by rewrite IH by (simpl; lia).
      * cbn [map concat piece_text mk_match m_text]. rewrite En.
        rewrite IH by (simpl in *; lia).
        cbn [take firstn app]. by rewrite take_drop.
    + cbn [map concat piece_text]. by rewrite IH by (simpl; lia).
Qed.

Lemma scan_hit_origin r s skip m :
  Hit m ∈ scan r s skip ->
  exists pre t ma res,
    s = pre ++ t /\ match_here r t ma = Some res /\ m = mk_match t res.
Proof.
  revert skip. induction s as [|x s IH]; intros skip.
  - destruct skip; cbn [scan]; [|by intros ?%elem_of_nil].
    destruct (match_here r [] false) as [m0|] eqn:E; [|by intros ?%elem_of_nil].
    cbn [length Nat.sub].
    intros [[= ->]|H]%elem_of_cons; [by exists [], [], false, m0|].
    destruct (match_here r [] true) as [m1|] eqn:E'; [|by apply elem_of_nil in H].
    apply elem_of_cons in H as [[= ->]|H]; [by exists [], [], true, m1|].
    by apply elem_of_nil in H.
  - assert (forall n, Hit m ∈ scan r s n ->
              exists pre t ma res,
                x :: s = pre ++ t /\ match_here r t ma = Some res
                /\ m = mk_match t res) as Hrec.
    { intros n (pre & t & ma & res & -> & ? & ?)%IH.
      by exists (x :: pre), t, ma, res. }
    destruct skip as [|n]; cbn [scan]; [|apply Hrec].
    destruct (match_here r (x :: s) false) as [m0|] eqn:E.
    + destruct (length (x :: s) - length m0.1)%nat as [|n].
      * intros [[= ->]|H]%elem_of_cons; [by exists [], (x :: s), false, m0|].
        destruct (match_here r (x :: s) true) as [m1|] eqn:E'.
        -- apply elem_of_cons in H as [[= ->]|H];
             [by exists [], (x :: s), true, m1|by eapply Hrec].
        -- apply elem_of_cons in H as [[=]|H]. by eapply Hrec.
      * intros [[= ->]|H]%elem_of_cons;
          [by exists [], (x :: s), false, m0|by eapply Hrec].
    + intros [[=]|H]%elem_of_cons. by eapply Hrec.
Qed.

Lemma elem_of_hits m ps : m ∈ hits ps <-> Hit m ∈ ps.
Proof.
  unfold hits. rewrite list_elem_of_omap. split.
  - intros ([c|m'] & Hin & E); by simplify_eq.
  - intros H. by exists (Hit m).
Qed.

(** *** The field pattern *)

Lemma strip_prefix_app_l a b s :
  strip_prefix (a ++ b) s = strip_prefix a s ≫= strip_prefix b.
Proof.
  revert s. induction a as [|c a IH]; intros s; [done|].
  simpl. destruct s as [|x s]; [done|]. destruct (c =? x); [apply IH|done].
Qed.

Lemma field_tail_inv tag s2 ma len0 m :
  (length s2 < len0)%nat ->
  rmatch field_tail s2 (<[1%nat:=tag]> ∅)
    (fun s' g => if ma && (length s' =? len0)%nat then None else Some (s', g))
    = Some m ->
  exists ws label content,
    s2 = ws ++ (u "class=" ++ dq) ++ label ++ (dq ++ u ">") ++ content
            ++ closing tag ++ m.1
    /\ ws ≠ [] /\ all_space ws = true
    /\ label ≠ [] /\ forallb (cmem (CNoneOf (dq ++ u " "))) label = true
    /\ content ≠ []
    /\ m.2 = <[3%nat:=content]> (<[2%nat:=label]> (<[1%nat:=tag]> ∅))
    /\ (forall j, (0 < j < length content)%nat ->
          strip_prefix (closing tag) (drop j (content ++ closing tag ++ m.1)) = None).
Proof.
  intros Hlen. unfold field_tail. cbn [rmatch]. intros H.
  apply rep_min_1_inv in H as (x & s2' & -> & Hx & H).
  apply star_greedy_split in H as (ws & s3 & -> & Hws & H).
  destruct (strip_prefix (u "class=" ++ dq) s3) as [s3'|] eqn:E3; [|done].
  apply strip_prefix_Some in E3 as ->.
  apply rep_min_1_inv in H as (y & s4 & -> & Hy & H).
  apply star_lazy_split in H as (label & s5 & -> & Hlab & H & _).
  destruct (strip_prefix (dq ++ u ">") s5) as [s5'|] eqn:E5; [|done].
  apply strip_prefix_Some in E5 as ->.
  apply rep_min_1_inv in H as (z & s6 & -> & _ & H).
  apply star_lazy_split in H as (content & s7 & -> & _ & H & Hmin).
  destruct (strip_prefix (u "</") s7) as [s7'|] eqn:E7; [|done].
  apply strip_prefix_Some in E7 as ->.
  rewrite lookup_insert_ne, lookup_insert_ne, lookup_insert_eq in H by done.
  destruct (strip_prefix tag s7') as [s8|] eqn:E8; [|done].
  apply strip_prefix_Some in E8 as ->.
  destruct (strip_prefix (u ">") s8) as [s9|] eqn:E9; [|done].
  apply strip_prefix_Some in E9 as ->.
  destruct (ma && _); [done|]. apply (inj Some) in H. subst m.
  change (length (y :: ?l)) with (S (length l)).
  change (length (z :: ?l)) with (S (length l)).
  rewrite !take_length_cons_app.
  exists (x :: ws), (y :: label), (z :: content).
  cbn [fst snd]. split_and!; try done.
  - unfold closing. rewrite <- !app_assoc. reflexivity.
  - change (cmem CSpace x && forallb (cmem CSpace) ws = true).
    by rewrite Hx, Hws.
  - cbn [forallb]. by rewrite Hy, Hlab.
  - intros j Hj. unfold closing. rewrite <- !app_assoc.
    destruct j as [|j]; [lia|]. cbn [app drop skipn].
    simpl length in Hj. assert (j < length content)%nat as Hj' by lia.
    specialize (Hmin j Hj'). rewrite <- !app_assoc in Hmin.
    rewrite strip_prefix_app_l.
    destruct (strip_prefix (u "</") (drop j _)) as [t7|] eqn:F7; [|reflexivity].
    cbn [mbind option_bind]. rewrite strip_prefix_app_l.
    rewrite lookup_insert_ne, lookup_insert_ne, lookup_insert_eq in Hmin by done.
    destruct (strip_prefix tag t7) as [t8|] eqn:F8; [|reflexivity].
    cbn [mbind option_bind].
    destruct (strip_prefix (u ">") t8) as [t9|] eqn:F9; [|reflexivity].
    exfalso.
    apply strip_prefix_Some in F7, F8, F9.
    assert (length t9 < len0)%nat as Hlt.
    { apply (f_equal length) in F7, F8, F9.
      rewrite length_drop in F7.
      repeat (rewrite length_app in F7 || rewrite length_app in F8
              || rewrite length_app in F9 || rewrite length_app in Hlen
              || rewrite length_cons in Hlen).
      lia. }
    destruct (length t9 =? len0)%nat eqn:Ht9.
    + apply Nat.eqb_eq in Ht9. lia.
    + rewrite andb_false_r in Hmin. discriminate Hmin.
Qed.

Lemma match_here_field_inv s ma m :
  match_here re_field s ma = Some m ->
  exists tag ws label content,
    s = field_text tag ws label content ++ m.1
    /\ field_occurrence tag ws label content m.1
    /\ m.2 = <[3%nat:=content]> (<[2%nat:=label]> (<[1%nat:=tag]> ∅)).
Proof.
  unfold match_here.
  change re_field with
    (Lit (u "<") +> Grp 1 (Alt (Lit (u "p")) (Lit (u "div"))) +> field_tail).
  cbn [rmatch].
  destruct (strip_prefix (u "<") s) as [s1|] eqn:E1; [|done].
  apply strip_prefix_Some in E1 as ->.
  assert (forall tag s2 m0,
    rmatch field_tail s2
      (<[1%nat:=take (length (tag ++ s2) - length s2) (tag ++ s2)]> ∅)
      (fun s' g => if ma && (length s' =? length (u "<" ++ tag ++ s2))%nat
                   then None else Some (s', g)) = Some m0 ->
    (tag = u "p" \/ tag = u "div") ->
    exists tag' ws label content,
      u "<" ++ tag ++ s2 = field_text tag' ws label content ++ m0.1
      /\ field_occurrence tag' ws label content m0.1
      /\ m0.2 = <[3%nat:=content]> (<[2%nat:=label]> (<[1%nat:=tag']> ∅))) as Htail.
  { intros tag s2 m0 H Htag. rewrite take_length_diff in H.
    apply field_tail_inv in H
      as (ws & label & content & -> & ? & ? & ? & ? & ? & ? & ?).
    - exists tag, ws, label, content. unfold field_text, field_occurrence.
      split_and!; try done. by rewrite <- !app_assoc.
    - rewrite !length_app. assert (0 < length (u "<"))%nat by (vm_compute; lia).
      assert (0 <= length tag)%nat by lia. lia. }
  destruct (strip_prefix (u "p") s1) as [s2|] eqn:Ep.
  - apply strip_prefix_Some in Ep as ->.
    destruct (rmatch field_tail s2 _ _) as [m0|] eqn:Hp.
    + intros [= <-]. eapply Htail; [exact Hp|by left].
    + destruct (strip_prefix (u "div") (u "p" ++ s2)) as [s2'|] eqn:Ed; [|done].
      apply strip_prefix_Some in Ed. rewrite Ed.
      intros H. eapply Htail; [exact H|by right].
  - destruct (strip_prefix (u "div") s1) as [s2'|] eqn:Ed; [|done].
    apply strip_prefix_Some in Ed as ->.
    intros H. eapply Htail; [exact H|by right].
Qed.

Lemma finditer_field_shape webpage g :
  g ∈ re_finditer re_field webpage ->
  exists pre tag ws label content rest,
    webpage = pre ++ field_text tag ws label content ++ rest
    /\ field_occurrence tag ws label content rest
    /\ m_text g = field_text tag ws label content
    /\ group g 1 = tag /\ group g 2 = label /\ group g 3 = content.
Proof.
  unfold re_finditer. rewrite elem_of_hits.
  intros (pre & t & ma & [rest gs] & -> & Hm & ->)%scan_hit_origin.
  apply match_here_field_inv in Hm
    as (tag & ws & label & content & -> & Hocc & Hgs).
  cbn [fst snd] in *. subst gs.
  exists pre, tag, ws, label, content, rest.
  unfold group, mk_match. cbn [m_text m_groups fst snd].
  split_and!; [done|done|apply take_length_diff| | |].
  - by rewrite lookup_insert_ne, lookup_insert_ne, lookup_insert_eq.
  - by rewrite lookup_insert_ne, lookup_insert_eq.
  - by rewrite lookup_insert_eq.
Qed.

(** ** The run of an extractor *)

Lemma run_real_extract ie url w : run (real_extract ie url) w = extraction ie url w.
Proof.
  unfold extraction, video_id_of.
  destruct ie; unfold real_extract, DamtomoVideoIE_real_extract,
    DamtomoRecordIE_real_extract, run, bind, _match_id, VALID_URL.
  all: destruct (re_match _ url) as [m|]; [|done].
  all: unfold ret at 1; cbn [fmap option_fmap option_map].
  all: unfold _download_webpage_handle; cbn [page_url xml_url].
  all: destruct (web_page w _) as [[webpage handle_url]|]; [|done].
  all: cbn [fst snd app].
  all: destruct (pystr_eqb handle_url sorry_url); [done|].
  all: destruct (py_in server_error_marker webpage); [done|].
  all: fold (FieldMap webpage).
  all: unfold getitem, _download_xml, assemble, upload_date_of, manifest_text,
         count_of, strip_san.
  all: destruct (FieldMap webpage !! k_user_name) as [un|]; [|done].
  all: unfold ret at 1.
  all: rewrite lookup_insert_eq.
  all: rewrite !(lookup_insert_ne _ k_user_name) by done.
  all: destruct (FieldMap webpage !! k_song_title) as [st|]; [|done].
  all: destruct (FieldMap webpage !! k_song_artist) as [sa|]; [|done].
  all: unfold ret at 1 2 3 4; cbn [app xml_ns].
  all: destruct (web_xml w _) as [stream_tree|]; [|done].
  all: destruct (_ ≫= _) as [[|c m3u8_url]|]; [done| |done].
  all: destruct (FieldMap webpage !! k_audience) as [au|]; [|done].
  all: destruct (FieldMap webpage !! k_nice) as [ni|]; [|done].
  all: done.
Qed.

(** ** Strings *)

Lemma py_in_true needle hay :
  py_in needle hay = true <-> exists pre post, hay = pre ++ needle ++ post.
Proof.
  split.
  - induction hay as [|x hay IH]; simpl.
    + destruct (strip_prefix needle []) as [t|] eqn:E; [|done].
      intros _. apply strip_prefix_Some in E. by exists [], t.
    + destruct (strip_prefix needle (x :: hay)) as [t|] eqn:E.
      * intros _. apply strip_prefix_Some in E. by exists [], t.
      * intros (pre & post & ->)%IH. by exists (x :: pre), post.
  - intros (pre & post & ->). induction pre as [|x pre IH]; simpl.
    + destruct (needle ++ post) eqn:E; simpl;
        rewrite <- ?E, strip_prefix_app; done.
    + by destruct (strip_prefix needle (x :: pre ++ needle ++ post)).
Qed.

Lemma pystr_eqb_refl s : pystr_eqb s s = true.
Proof. unfold pystr_eqb. by apply bool_decide_eq_true. Qed.

Lemma pystr_eqb_ne a b : a ≠ b -> pystr_eqb a b = false.
Proof. unfold pystr_eqb. by apply bool_decide_eq_false. Qed.

Lemma rstrip_all_space w : all_space w = true -> rstrip w = [].
Proof.
  induction w as [|x w IH]; simpl; [done|].
  intros [Hx Hw]%andb_prop. by rewrite IH, Hx.
Qed.

Lemma rstrip_app_space s w : all_space w = true -> rstrip (s ++ w) = rstrip s.
Proof.
  intros Hw. induction s as [|x s IH]; simpl.
  - by apply rstrip_all_space.
  - by rewrite IH.
Qed.

Lemma rstrip_clean s : ends_clean s = true -> rstrip s = s.
Proof.
  induction s as [|x s IH]; [done|].
  intros H. destruct s as [|y s].
  - unfold ends_clean in H. simpl in *. by destruct (is_space x).
  - assert (ends_clean (y :: s) = true) as H' by done.
    cbn [rstrip]. cbn [rstrip] in IH. by rewrite (IH H').
Qed.

(** [strip] takes exactly the surrounding whitespace away. *)
Lemma strip_spec w1 m w2 :
  all_space w1 = true -> all_space w2 = true ->
  run_ends is_space m = true -> ends_clean m = true ->
  strip (w1 ++ m ++ w2) = m.
Proof.
  intros H1 H2 Hs He. unfold strip, lstrip.
  destruct m as [|c m].
  - simpl. rewrite <- (app_nil_r (w1 ++ w2)).
    rewrite drop_while_app_stop; [done| |done].
    unfold all_space in *. rewrite forallb_app. by rewrite H1, H2.
  - rewrite drop_while_app_stop by done.
    rewrite rstrip_app_space by done. by apply rstrip_clean.
Qed.

Lemma strip_all_space t : all_space t = true -> strip t = [].
Proof.
  intros H. rewrite <- (app_nil_r t). change (t ++ []) with (t ++ [] ++ []).
  by apply strip_spec.
Qed.

(** ** The dictionary comprehensions *)

Lemma foldl_insert_lookup {A} (key : A -> pystr) (val : A -> pystr)
    (l : list A) (d0 : gmap pystr pystr) (k : pystr) :
  foldl (fun d g => <[key g := val g]> d) d0 l !! k =
  match last (filter (fun g => key g = k) l) with
  | Some g => Some (val g)
  | None => d0 !! k
  end.
Proof.
  revert d0. induction l as [|g l IH]; intros d0; [done|].
  cbn [foldl]. rewrite IH. rewrite filter_cons.
  destruct (decide (key g = k)) as [E|E].
  - destruct (filter (fun g0 => key g0 = k) l) as [|g' l'] eqn:El.
    + change (last []) with (@None A). change (last [g]) with (Some g).
      cbv iota beta. rewrite <- E. apply lookup_insert_eq.
    + change (last (g :: g' :: l')) with (last (g' :: l')).
      destruct (last (g' :: l')) eqn:EL; [done|].
      by apply last_None in EL.
  - destruct (last (filter (fun g0 => key g0 = k) l)); [done|].
    by rewrite lookup_insert_ne.
Qed.

Lemma FieldMap_lookup webpage label :
  FieldMap webpage !! label =
  match last (filter (fun g => group g 2 = label) (re_finditer re_field webpage)) with
  | None => None
  | Some g =>
    match clean_html (group g 3) with
    | [] => None
    | cleaned => Some (collapse_whitespace cleaned)
    end
  end.
Proof.
  unfold FieldMap. rewrite lookup_fmap, map_lookup_filter.
  rewrite (foldl_insert_lookup (fun g => group g 2) (fun g => clean_html (group g 3))).
  destruct (last _) as [g|]; [|done].
  cbn [mbind option_bind]. destruct (clean_html (group g 3)) as [|c cleaned] eqn:E.
  - rewrite option_guard_False; [done|]. by intros [].
  - rewrite option_guard_True by done.
    cbn [mbind option_bind fmap option_fmap option_map].
    by rewrite re_sub_spaces.
Qed.

Lemma extraction_Return ie url w r log :
  extraction ie url w = (Return r, log) ->
  exists video_id webpage handle_url un st sa stream_tree c m3u8 au ni,
    video_id_of ie url = Some video_id
    /\ web_page w (page_url ie ++ video_id) = Some (webpage, handle_url)
    /\ pystr_eqb handle_url sorry_url = false
    /\ py_in server_error_marker webpage = false
    /\ FieldMap webpage !! k_user_name = Some un
    /\ FieldMap webpage !! k_song_title = Some st
    /\ FieldMap webpage !! k_song_artist = Some sa
    /\ web_xml w (xml_url ie ++ video_id) = Some stream_tree
    /\ manifest_text ie stream_tree = Some (c :: m3u8)
    /\ FieldMap webpage !! k_audience = Some au
    /\ FieldMap webpage !! k_nice = Some ni
    /\ r = assemble video_id webpage (c :: m3u8) un st sa au ni
    /\ log = [GetPage (page_url ie ++ video_id); GetXML (xml_url ie ++ video_id)].
Proof.
  unfold extraction. intros H.
  destruct (video_id_of ie url) as [video_id|] eqn:E1; [|discriminate H].
  destruct (web_page w _) as [[webpage handle_url]|] eqn:E2; [|discriminate H].
  destruct (pystr_eqb handle_url sorry_url) eqn:Hs; [discriminate H|].
  destruct (py_in server_error_marker webpage) eqn:Hm; [discriminate H|].
  cbv zeta in H.
  destruct (FieldMap webpage !! k_user_name) as [un|] eqn:E3; [|discriminate H].
  destruct (FieldMap webpage !! k_song_title) as [st|] eqn:E4; [|discriminate H].
  destruct (FieldMap webpage !! k_song_artist) as [sa|] eqn:E5; [|discriminate H].
  destruct (web_xml w _) as [stream_tree|] eqn:E6; [|discriminate H].
  destruct (manifest_text ie stream_tree) as [[|c m3u8]|] eqn:E7;
    [discriminate H| |discriminate H].
  destruct (FieldMap webpage !! k_audience) as [au|] eqn:E8; [|discriminate H].
  destruct (FieldMap webpage !! k_nice) as [ni|] eqn:E9; [|discriminate H].
  injection H as <- <-.
  exists video_id, webpage, handle_url, un, st, sa, stream_tree, c, m3u8, au, ni.
  repeat split; first [assumption | reflexivity].
Qed.

(** ** Values that do not end in whitespace *)

Lemma collapse_from_snoc b s c :
  is_space c = false -> collapse_from b (s ++ [c]) = collapse_from b s ++ [c].
Proof.
  intros Hc. revert b. induction s as [|x s IH]; intros b; cbn [app collapse_from].
  - by rewrite Hc.
  - destruct (is_space x); [destruct b|]; cbn [app]; by rewrite IH.
Qed.

Lemma collapse_ends_clean s :
  ends_clean s = true -> ends_clean (collapse_whitespace s) = true.
Proof.
  unfold ends_clean at 1. destruct (last s) as [c|] eqn:El.
  - apply last_Some in El as [s' ->]. intros Hc%negb_true_iff.
    unfold collapse_whitespace. rewrite collapse_from_snoc by done.
    unfold ends_clean. by rewrite last_snoc, Hc.
  - apply last_None in El as ->. done.
Qed.

(** When [clean_html] gives texts that do not end in whitespace, as its
    final [strip] makes it do, no value of the FieldMap ends in whitespace. *)
Lemma FieldMap_ends_clean webpage label v :
  (forall html, ends_clean (clean_html html) = true) ->
  FieldMap webpage !! label = Some v -> ends_clean v = true.
Proof.
  intros Hclean. rewrite FieldMap_lookup.
  destruct (last _) as [g|]; [|done].
  pose proof (Hclean (group g 3)) as Hg.
  destruct (clean_html (group g 3)) as [|c cleaned]; [done|].
  intros [= <-]. by apply collapse_ends_clean.
Qed.

Lemma ends_with_app suffix p : ends_with suffix (p ++ suffix) = true.
Proof.
  unfold ends_with. rewrite length_app.
  replace (length p + length suffix - length suffix)%nat with (length p) by lia.
  rewrite drop_app_length. apply pystr_eqb_refl.
Qed.

(** * The claims *)

(** C1. When the first GET ends at the rate-limit landing URL
    ['https://www.clubdam.com/sorry/'], either extractor raises the expected
    [ExtractorError] for rate limiting whatever the page body is, and the page
    request is the only request it makes: no manifest lookup follows. *)
Theorem C1_rate_limited ie url w video_id webpage :
  video_id_of ie url = Some video_id ->
  web_page w (page_url ie ++ video_id) = Some (webpage, sorry_url) ->
  run (real_extract ie url) w
    = (Raise (ExtractorError msg_rate_limited true),
       [GetPage (page_url ie ++ video_id)])
  /\ RateLimited = ExtractorError msg_rate_limited true.
Proof.
  intros Hid Hpage. split; [|done].
  rewrite run_real_extract. unfold extraction.
  rewrite Hid, Hpage. by rewrite pystr_eqb_refl.
Qed.

(** C2. When the request was not redirected to the rate-limit URL and the
    page contains the marker ['<h2>予期せぬエラーが発生しました。</h2>'], either
    extractor raises the expected [ExtractorError] for a server error; the
    page request is the only request made and no result is produced. *)
Theorem C2_server_error ie url w video_id pre post handle_url :
  video_id_of ie url = Some video_id ->
  web_page w (page_url ie ++ video_id)
    = Some (pre ++ server_error_marker ++ post, handle_url) ->
  handle_url ≠ sorry_url ->
  run (real_extract ie url) w
    = (Raise (ExtractorError msg_server_error true),
       [GetPage (page_url ie ++ video_id)])
  /\ ServerError = ExtractorError msg_server_error true.
Proof.
  intros Hid Hpage Hurl. split; [|done].
  rewrite run_real_extract. unfold extraction.
  rewrite Hid, Hpage, pystr_eqb_ne by done.
  assert (py_in server_error_marker (pre ++ server_error_marker ++ post) = true)
    as -> by (apply py_in_true; eauto).
  done.
Qed.

(** C3. Once the page has been scraped and the XML document fetched: if the
    lookup of the namespace-qualified [streamingUrl] element finds no
    element, an element without text, or a text that is empty or all
    whitespace, the call fails with the (not expected, so fatal)
    [ExtractorError] for a missing manifest, however complete the scraped
    fields are; otherwise the manifest URL of any result is the text of the
    element without its surrounding whitespace, and the call does return a
    result when the [audience] and [nice] fields are there. *)
Theorem C3_manifest ie url w video_id webpage handle_url un st sa stream_tree :
  video_id_of ie url = Some video_id ->
  web_page w (page_url ie ++ video_id) = Some (webpage, handle_url) ->
  handle_url ≠ sorry_url ->
  py_in server_error_marker webpage = false ->
  FieldMap webpage !! k_user_name = Some un ->
  FieldMap webpage !! k_song_title = Some st ->
  FieldMap webpage !! k_song_artist = Some sa ->
  web_xml w (xml_url ie ++ video_id) = Some stream_tree ->
  let found := find_descendant (xml_ns ie) (u "streamingUrl") stream_tree in
  let requests := [GetPage (page_url ie ++ video_id);
                   GetXML (xml_url ie ++ video_id)] in
  ((found = None
    \/ (exists x, found = Some x /\ e_text x = None)
    \/ (exists x t, found = Some x /\ e_text x = Some t /\ all_space t = true)) ->
   run (real_extract ie url) w
     = (Raise (ExtractorError msg_no_m3u8 false), requests))
  /\ (forall x w1 m w2,
        found = Some x -> e_text x = Some (w1 ++ m ++ w2) ->
        all_space w1 = true -> all_space w2 = true -> m ≠ [] ->
        run_ends is_space m = true -> ends_clean m = true ->
        (forall r log, run (real_extract ie url) w = (Return r, log) ->
                       info_formats r = [hls_format m])
        /\ (forall au ni,
              FieldMap webpage !! k_audience = Some au ->
              FieldMap webpage !! k_nice = Some ni ->
              exists r, run (real_extract ie url) w = (Return r, requests)
                        /\ info_formats r = [hls_format m]))
  /\ ManifestNotFound = ExtractorError msg_no_m3u8 false.
Proof.
  intros Hid Hpage Hurl Hmark Hun Hst Hsa Hxml found requests.
  rewrite run_real_extract. unfold extraction.
  rewrite Hid, Hpage, pystr_eqb_ne, Hmark by done. cbv zeta.
  rewrite Hun, Hst, Hsa, Hxml. unfold manifest_text. fold found.
  split_and!; [| |done].
  - intros [H | [(x & H & Hx) | (x & t & H & Hx & Ht)]];
      rewrite H; cbn [mbind option_bind].
    + reflexivity.
    + rewrite Hx. reflexivity.
    + rewrite Hx. cbn [fmap option_fmap option_map].
      rewrite strip_all_space by exact Ht. reflexivity.
  - intros x w1 m w2 H Hx H1 H2 Hm Hs He. rewrite H.
    cbn [mbind option_bind]. rewrite Hx. cbn [fmap option_fmap option_map].
    rewrite strip_spec by assumption.
    destruct m as [|c m]; [done|]. split.
    + intros r log H'.
      destruct (FieldMap webpage !! k_audience); [|done].
      destruct (FieldMap webpage !! k_nice); [|done].
      injection H' as <- <-. reflexivity.
    + intros au ni -> ->. eexists. split; reflexivity.
Qed.

(** C4. The matches of the field pattern are texts of the page, one after
    the other in source order; each is an occurrence [<TAG class=LABEL>
    CONTENT</TAG>] (the label quoted) with TAG [p] or [div], LABEL its
    group 2 and CONTENT its group 3, the content matched lazily across
    newlines. The FieldMap holds, for every label, the content of the last
    match carrying that label, cleaned by [clean_html] and then with every
    run of whitespace collapsed to one space; a label whose last match has
    an empty cleaned content is not in the map. *)
Theorem C4_field_map webpage :
  concat (map piece_text (scan re_field webpage 0)) = webpage
  /\ re_finditer re_field webpage = hits (scan re_field webpage 0)
  /\ (forall g,
        g ∈ re_finditer re_field webpage ->
        exists pre tag ws label content rest,
          webpage = pre ++ field_text tag ws label content ++ rest
          /\ field_occurrence tag ws label content rest
          /\ m_text g = field_text tag ws label content
          /\ group g 1 = tag /\ group g 2 = label /\ group g 3 = content)
  /\ (forall label,
        FieldMap webpage !! label =
        match last (filter (fun g => group g 2 = label)
                           (re_finditer re_field webpage)) with
        | None => None
        | Some g =>
          match clean_html (group g 3) with
          | [] => None
          | cleaned => Some (collapse_whitespace cleaned)
          end
        end)
  /\ (forall s, re_sub re_spaces (u " ") s = collapse_whitespace s).
Proof.
  split_and!.
  - by rewrite scan_concat by lia.
  - reflexivity.
  - apply finditer_field_shape.
  - intros label. apply FieldMap_lookup.
  - apply re_sub_spaces.
Qed.

(** C5. The post-processing of [user_name] removes a final token [さん]
    together with the whitespace before it, at the end of the value only,
    and leaves a value that does not end in the token as it is. This is so
    for every value that does not end in whitespace, and the value it is
    given is one: it comes from the FieldMap, whose values end in no
    whitespace when the texts of [clean_html] end in none (it finishes with
    a [strip]). (The pattern would take whitespace after the token too; no
    value that reaches it has any.) *)
Theorem C5_strip_san :
  (forall p w1,
     ends_clean p = true -> all_space w1 = true ->
     strip_san (p ++ w1 ++ san) = p)
  /\ (forall s,
        ends_clean s = true -> ends_with san s = false -> strip_san s = s)
  /\ ((forall html, ends_clean (clean_html html) = true) ->
      forall webpage un,
        FieldMap webpage !! k_user_name = Some un -> ends_clean un = true)
  /\ strip_san (u "箱の「中の人」さん") = u "箱の「中の人」"
  /\ strip_san (u "ＮＡＮＡ") = u "ＮＡＮＡ".
Proof.
  split_and!.
  - intros p w1 Hp H1. rewrite strip_san_before.
    rewrite <- (app_nil_r san). by apply before_san_tail_strips.
  - intros s Hs He. rewrite strip_san_before. apply before_san_tail_id.
    intros p w2 Hw ->. destruct (last w2) as [c|] eqn:El.
    + unfold ends_clean in Hs. rewrite !last_app, El in Hs.
      apply last_Some in El as [w ->].
      unfold all_space in Hw. rewrite forallb_app in Hw.
      apply andb_prop in Hw as [_ Hw]. cbn [forallb] in Hw.
      apply andb_prop in Hw as [Hc _]. by rewrite Hc in Hs.
    + apply last_None in El as ->. rewrite app_nil_r in He.
      by rewrite ends_with_app in He.
  - intros Hclean webpage un. by apply FieldMap_ends_clean.
  - rewrite strip_san_before. vm_compute. reflexivity.
  - rewrite strip_san_before. vm_compute. reflexivity.
Qed.

(** C6. The title of every result is the [song_title] field, a hyphen, the
    [song_artist] field, a hyphen, and the [user_name] field after its
    post-processing. *)
Theorem C6_title ie url w r log :
  run (real_extract ie url) w = (Return r, log) ->
  exists video_id webpage handle_url st sa un,
    video_id_of ie url = Some video_id
    /\ web_page w (page_url ie ++ video_id) = Some (webpage, handle_url)
    /\ FieldMap webpage !! k_song_title = Some st
    /\ FieldMap webpage !! k_song_artist = Some sa
    /\ FieldMap webpage !! k_user_name = Some un
    /\ info_title r = st ++ u "-" ++ sa ++ u "-" ++ strip_san un.
Proof.
  rewrite run_real_extract.
  intros (video_id & webpage & handle_url & un & st & sa & tree & c & m3u8 & au
          & ni & Hid & Hpage & _ & _ & Hun & Hst & Hsa & _ & _ & _ & _ & -> & _)
         %extraction_Return.
  exists video_id, webpage, handle_url, st, sa, un.
  repeat split; first [assumption | reflexivity].
Qed.

(** C7. When the FieldMap has a [date]: if the value contains a text shaped
    YYYY/MM/DD, the [upload_date] of a result is the leftmost such text with
    its slashes removed; if it contains none, the [upload_date] is [None].
    The date never makes the call fail: with the other fields and the
    manifest in place the call returns a result. *)
Theorem C7_upload_date ie url w video_id webpage handle_url d :
  video_id_of ie url = Some video_id ->
  web_page w (page_url ie ++ video_id) = Some (webpage, handle_url) ->
  FieldMap webpage !! k_date = Some d ->
  (forall r log,
     run (real_extract ie url) w = (Return r, log) ->
     (forall pre t post,
        d = pre ++ t ++ post -> date_shaped t = true ->
        (forall pre' t' post',
           d = pre' ++ t' ++ post' -> date_shaped t' = true ->
           (length pre <= length pre')%nat) ->
        info_upload_date r = Some (replace_char_empty slash t))
     /\ ((forall pre t post, d = pre ++ t ++ post -> date_shaped t = false) ->
         info_upload_date r = None))
  /\ (forall un st sa au ni stream_tree c m3u8,
        handle_url ≠ sorry_url ->
        py_in server_error_marker webpage = false ->
        FieldMap webpage !! k_user_name = Some un ->
        FieldMap webpage !! k_song_title = Some st ->
        FieldMap webpage !! k_song_artist = Some sa ->
        FieldMap webpage !! k_audience = Some au ->
        FieldMap webpage !! k_nice = Some ni ->
        web_xml w (xml_url ie ++ video_id) = Some stream_tree ->
        manifest_text ie stream_tree = Some (c :: m3u8) ->
        exists r log, run (real_extract ie url) w = (Return r, log)).
Proof.
  intros Hid Hpage Hd. rewrite run_real_extract. split.
  - intros r log
      (video_id' & webpage' & handle_url' & un & st & sa & tree & c & m3u8 & au
       & ni & Hid' & Hpage' & _ & _ & _ & _ & _ & _ & _ & _ & _ & -> & _)
      %extraction_Return.
    rewrite Hid in Hid'. injection Hid' as <-.
    rewrite Hpage in Hpage'. injection Hpage' as <- <-.
    cbn [assemble info_upload_date]. unfold upload_date_of. rewrite Hd.
    cbn [mbind option_bind]. split.
    + intros pre t post -> Ht Hleft.
      rewrite search_date_found; [reflexivity|assumption|].
      intros i Hi.
      destruct (date_shaped (take 10 (drop i (pre ++ t ++ post)))) eqn:E;
        [|reflexivity].
      exfalso.
      pose proof (date_shaped_length _ E) as Hlen.
      specialize (Hleft (take i (pre ++ t ++ post))
                        (take 10 (drop i (pre ++ t ++ post)))
                        (drop 10 (drop i (pre ++ t ++ post)))).
      rewrite !take_drop in Hleft. specialize (Hleft eq_refl E).
      rewrite length_take in Hleft. lia.
    + intros Hnone. rewrite search_date_none; [reflexivity|].
      intros i. apply (Hnone (take i d) _ (drop 10 (drop i d))).
      by rewrite !take_drop.
  - intros un st sa au ni tree c m3u8 Hurl Hmark Hun Hst Hsa Hau Hni Hxml Hm.
    unfold extraction.
    rewrite Hid, Hpage, (pystr_eqb_ne _ _ Hurl), Hmark. cbv zeta.
    rewrite Hun, Hst, Hsa, Hxml, Hm, Hau, Hni. eauto.
Qed.

(** C8, as the code has it. When the FieldMap has [audience] and [nice]: the
    [view_count] of a result is what [int] makes of the first maximal run of
    decimal digits of the [audience] value, that is the integer value of the
    run, or [None] when the run is longer than the interpreter lets [int]
    convert ([int] raises [ValueError] and [int_or_none] answers [None]); it
    is [None] when the value has no digit. The [like_count] is the same of
    the [nice] value. Whatever the two values hold, the call does return a
    result once the fields of the title and the manifest are in place. *)
Theorem C8_counts ie url w video_id webpage handle_url au ni :
  video_id_of ie url = Some video_id ->
  web_page w (page_url ie ++ video_id) = Some (webpage, handle_url) ->
  FieldMap webpage !! k_audience = Some au ->
  FieldMap webpage !! k_nice = Some ni ->
  (forall r log,
     run (real_extract ie url) w = (Return r, log) ->
     (forall pre digits post,
        au = pre ++ digits ++ post ->
        no_digit pre = true -> all_digits digits = true -> digits ≠ [] ->
        run_ends is_digit post = true ->
        info_view_count r
        = if int_refuses digits then None else Some (int_of_digits digits))
     /\ (no_digit au = true -> info_view_count r = None)
     /\ (forall pre digits post,
           ni = pre ++ digits ++ post ->
           no_digit pre = true -> all_digits digits = true -> digits ≠ [] ->
           run_ends is_digit post = true ->
           info_like_count r
           = if int_refuses digits then None else Some (int_of_digits digits))
     /\ (no_digit ni = true -> info_like_count r = None))
  /\ (forall un st sa stream_tree c m3u8,
        handle_url ≠ sorry_url ->
        py_in server_error_marker webpage = false ->
        FieldMap webpage !! k_user_name = Some un ->
        FieldMap webpage !! k_song_title = Some st ->
        FieldMap webpage !! k_song_artist = Some sa ->
        web_xml w (xml_url ie ++ video_id) = Some stream_tree ->
        manifest_text ie stream_tree = Some (c :: m3u8) ->
        exists r log, run (real_extract ie url) w = (Return r, log)).
Proof.
  intros Hid Hpage Hau Hni. rewrite run_real_extract. split.
  - intros r log
      (video_id' & webpage' & handle_url' & un & st & sa & tree & c & m3u8
       & au' & ni' & Hid' & Hpage' & _ & _ & _ & _ & _ & _ & _ & Hau' & Hni'
       & -> & _)%extraction_Return.
    rewrite Hid in Hid'. injection Hid' as <-.
    rewrite Hpage in Hpage'. injection Hpage' as <- <-.
    rewrite Hau in Hau'. injection Hau' as <-.
    rewrite Hni in Hni'. injection Hni' as <-.
    cbn [assemble info_view_count info_like_count]. split_and!.
    + intros pre digits post -> ? ? ? ?. by apply count_of_run.
    + apply count_of_none.
    + intros pre digits post -> ? ? ? ?. by apply count_of_run.
    + apply count_of_none.
  - intros un st sa tree c m3u8 Hurl Hmark Hun Hst Hsa Hxml Hm.
    unfold extraction.
    rewrite Hid, Hpage, (pystr_eqb_ne _ _ Hurl), Hmark. cbv zeta.
    rewrite Hun, Hst, Hsa, Hxml, Hm, Hau, Hni. eauto.
Qed.

(** C9, as the code has it. Five fields are required: [user_name],
    [song_title], [song_artist], [audience] and [nice]. A result is returned
    only when all five are in the FieldMap. When one of the first three is
    missing the call fails with a [KeyError] before the manifest is asked
    for; when [audience] or [nice] is missing once the manifest is resolved,
    the call fails with a [KeyError] as well; no partial result is returned.
    The [date] field is not required: without it the call still returns a
    result, whose [upload_date] is [None]. *)
Theorem C9_required_keys ie url w video_id webpage handle_url :
  video_id_of ie url = Some video_id ->
  web_page w (page_url ie ++ video_id) = Some (webpage, handle_url) ->
  handle_url ≠ sorry_url ->
  py_in server_error_marker webpage = false ->
  let fm := FieldMap webpage in
  let req1 := GetPage (page_url ie ++ video_id) in
  let req2 := GetXML (xml_url ie ++ video_id) in
  (forall r log,
     run (real_extract ie url) w = (Return r, log) ->
     is_Some (fm !! k_user_name) /\ is_Some (fm !! k_song_title)
     /\ is_Some (fm !! k_song_artist) /\ is_Some (fm !! k_audience)
     /\ is_Some (fm !! k_nice))
  /\ (fm !! k_user_name = None \/ fm !! k_song_title = None
      \/ fm !! k_song_artist = None ->
      exists k, run (real_extract ie url) w = (Raise (MissingField k), [req1])
                /\ fm !! k = None)
  /\ (forall stream_tree c m3u8,
        is_Some (fm !! k_user_name) -> is_Some (fm !! k_song_title) ->
        is_Some (fm !! k_song_artist) ->
        web_xml w (xml_url ie ++ video_id) = Some stream_tree ->
        manifest_text ie stream_tree = Some (c :: m3u8) ->
        (fm !! k_audience = None \/ fm !! k_nice = None ->
         exists k, run (real_extract ie url) w
                     = (Raise (MissingField k), [req1; req2])
                   /\ fm !! k = None)
        /\ (is_Some (fm !! k_audience) -> is_Some (fm !! k_nice) ->
            exists r, run (real_extract ie url) w = (Return r, [req1; req2])
                      /\ (fm !! k_date = None -> info_upload_date r = None))).
Proof.
  intros Hid Hpage Hurl Hmark fm req1 req2.
  rewrite run_real_extract. subst fm req1 req2. split_and!.
  - intros r log
      (video_id' & webpage' & handle_url' & un & st & sa & tree & c & m3u8 & au
       & ni & Hid' & Hpage' & _ & _ & Hun & Hst & Hsa & _ & _ & Hau & Hni & _)
      %extraction_Return.
    rewrite Hid in Hid'. injection Hid' as <-.
    rewrite Hpage in Hpage'. injection Hpage' as <- <-.
    rewrite Hun, Hst, Hsa, Hau, Hni. repeat split; eexists; reflexivity.
  - intros H. unfold extraction.
    rewrite Hid, Hpage, (pystr_eqb_ne _ _ Hurl), Hmark. cbv zeta.
    destruct (FieldMap webpage !! k_user_name) eqn:Hun;
      [|exists k_user_name; split; [reflexivity|assumption]].
    destruct (FieldMap webpage !! k_song_title) eqn:Hst;
      [|exists k_song_title; split; [reflexivity|assumption]].
    destruct (FieldMap webpage !! k_song_artist) eqn:Hsa;
      [|exists k_song_artist; split; [reflexivity|assumption]].
    destruct H as [H|[H|H]]; discriminate H.
  - intros tree c m3u8 [un Hun] [st Hst] [sa Hsa] Hxml Hm.
    unfold extraction.
    rewrite Hid, Hpage, (pystr_eqb_ne _ _ Hurl), Hmark. cbv zeta.
    rewrite Hun, Hst, Hsa, Hxml, Hm. split.
    + intros H.
      destruct (FieldMap webpage !! k_audience) eqn:Hau;
        [|exists k_audience; split; [reflexivity|assumption]].
      destruct (FieldMap webpage !! k_nice) eqn:Hni;
        [|exists k_nice; split; [reflexivity|assumption]].
      destruct H as [H|H]; discriminate H.
    + intros [au ->] [ni ->]. eexists. split; [reflexivity|].
      intros Hd. cbn [assemble info_upload_date]. unfold upload_date_of.
      rewrite Hd. reflexivity.
Qed.

(** C10. Given the same resource id, the same page text, final URLs that
    agree on being the rate-limit URL, and manifest documents in which the
    respective namespaced [streamingUrl] lookups give the same text, the two
    extractors have the same outcome: the same result record or the same
    exception. The requests they make differ only in the URL templates. *)
Theorem C10_same_logic url_v url_r w_v w_r video_id webpage handle_v handle_r
    tree_v tree_r :
  video_id_of VideoIE url_v = Some video_id ->
  video_id_of RecordIE url_r = Some video_id ->
  web_page w_v (DamtomoVideoIE_page_url ++ video_id) = Some (webpage, handle_v) ->
  web_page w_r (DamtomoRecordIE_page_url ++ video_id) = Some (webpage, handle_r) ->
  pystr_eqb handle_v sorry_url = pystr_eqb handle_r sorry_url ->
  web_xml w_v (DamtomoVideoIE_xml_url ++ video_id) = Some tree_v ->
  web_xml w_r (DamtomoRecordIE_xml_url ++ video_id) = Some tree_r ->
  (find_descendant DamtomoVideoIE_ns (u "streamingUrl") tree_v ≫= e_text)
    = (find_descendant DamtomoRecordIE_ns (u "streamingUrl") tree_r ≫= e_text) ->
  (run (DamtomoVideoIE_real_extract url_v) w_v).1
    = (run (DamtomoRecordIE_real_extract url_r) w_r).1
  /\ exists n,
       (run (DamtomoVideoIE_real_extract url_v) w_v).2
         = take n [GetPage (DamtomoVideoIE_page_url ++ video_id);
                   GetXML (DamtomoVideoIE_xml_url ++ video_id)]
       /\ (run (DamtomoRecordIE_real_extract url_r) w_r).2
            = take n [GetPage (DamtomoRecordIE_page_url ++ video_id);
                      GetXML (DamtomoRecordIE_xml_url ++ video_id)].
Proof.
  intros Hv Hr Hpv Hpr Hs Hxv Hxr Hx.
  assert (manifest_text VideoIE tree_v = manifest_text RecordIE tree_r) as Hm.
  { unfold manifest_text. cbn [xml_ns].
    assert (forall o : option Element,
              (o ≫= fun x => strip <$> e_text x) = strip <$> (o ≫= e_text)) as E
      by (by intros [x|]).
    by rewrite !E, Hx. }
  change (DamtomoVideoIE_real_extract url_v) with (real_extract VideoIE url_v).
  change (DamtomoRecordIE_real_extract url_r) with (real_extract RecordIE url_r).
  rewrite !run_real_extract. unfold extraction.
  rewrite Hv, Hr. cbn [page_url xml_url]. rewrite Hpv, Hpr, <- Hs, Hxv, Hxr, Hm.
  destruct (pystr_eqb handle_v sorry_url);
    [same_outcome 1%nat|].
  destruct (py_in server_error_marker webpage);
    [same_outcome 1%nat|].
  cbv zeta.
  destruct (FieldMap webpage !! k_user_name);
    [|same_outcome 1%nat].
  destruct (FieldMap webpage !! k_song_title);
    [|same_outcome 1%nat].
  destruct (FieldMap webpage !! k_song_artist);
    [|same_outcome 1%nat].
  destruct (manifest_text RecordIE tree_r) as [[|c m]|];
    [same_outcome 2%nat| |same_outcome 2%nat].
  destruct (FieldMap webpage !! k_audience);
    [|same_outcome 2%nat].
  destruct (FieldMap webpage !! k_nice);
    (same_outcome 2%nat).
Qed.

(** * Further properties of the extractors *)

(** ** The matcher, one construct at a time *)

Lemma rmatch_Cat r1 r2 s g k :
  rmatch (r1 +> r2) s g k = rmatch r1 s g (fun s' g' => rmatch r2 s' g' k).
Proof. reflexivity. Qed.

Lemma rmatch_Lit l s g k :
  rmatch (Lit l) s g k =
  match strip_prefix l s with Some s' => k s' g | None => None end.
Proof. reflexivity. Qed.

Lemma rmatch_spaces s g k :
  rmatch (Rep true 0 CSpace) s g k = star_greedy CSpace s (fun s' => k s' g).
Proof. reflexivity. Qed.

Lemma rmatch_Lit_inv l s g k m :
  rmatch (Lit l) s g k = Some m -> exists s', s = l ++ s' /\ k s' g = Some m.
Proof.
  cbn [rmatch]. destruct (strip_prefix l s) as [s'|] eqn:E; [|done].
  apply strip_prefix_Some in E as ->. eauto.
Qed.

Lemma rmatch_Lit_app l t g k : rmatch (Lit l) (l ++ t) g k = k t g.
Proof. cbn [rmatch]. by rewrite strip_prefix_app. Qed.

Lemma rmatch_Opt_Lit_inv l s g k m :
  rmatch (Opt (Lit l)) s g k = Some m ->
  exists (b : bool) s', s = (if b then l else []) ++ s' /\ k s' g = Some m.
Proof.
  cbn [rmatch]. destruct (strip_prefix l s) as [s'|] eqn:E.
  - apply strip_prefix_Some in E as ->.
    destruct (k s' g) as [m0|] eqn:Ek.
    + intros [= <-]. by exists true, s'.
    + intros H. by exists false, (l ++ s').
  - intros H. by exists false, s.
Qed.

Lemma rmatch_Opt_Grp_Lit_inv n l s g k m :
  rmatch (Opt (Grp n (Lit l))) s g k = Some m ->
  exists (b : bool) s' g', s = (if b then l else []) ++ s' /\ k s' g' = Some m.
Proof.
  cbn [rmatch]. destruct (strip_prefix l s) as [s'|] eqn:E.
  - apply strip_prefix_Some in E as ->.
    destruct (k s' _) as [m0|] eqn:Ek.
    + intros [= <-]. exists true, s'. eauto.
    + intros H. by exists false, (l ++ s'), g.
  - intros H. by exists false, s, g.
Qed.

(** An optional literal that is there is taken when the rest matches. *)
Lemma rmatch_Opt_taken r s g k m :
  rmatch r s g k = Some m -> rmatch (Opt r) s g k = Some m.
Proof. cbn [rmatch]. by intros ->. Qed.

Lemma rmatch_Opt_Lit_skipped l s g k :
  strip_prefix l s = None -> rmatch (Opt (Lit l)) s g k = k s g.
Proof. cbn [rmatch]. by intros ->. Qed.

Lemma rmatch_Opt_Grp_Lit_skipped n l s g k :
  strip_prefix l s = None -> rmatch (Opt (Grp n (Lit l))) s g k = k s g.
Proof. cbn [rmatch]. by intros ->. Qed.

Lemma run_ends_drop_while p s : run_ends p (drop_while p s) = true.
Proof.
  induction s as [|x s IH]; [done|]. cbn [drop_while].
  destruct (p x) eqn:E; [done|]. cbn [run_ends]. by rewrite E.
Qed.

(** [(\d+)] at the end of a pattern: the longest run of digits. *)
Lemma rmatch_digits_inv n s g m :
  rmatch (Grp n (Rep true 1 CDigit)) s g (fun s' g' => Some (s', g')) = Some m ->
  exists id rest,
    s = id ++ rest /\ id ≠ [] /\ all_digits id = true
    /\ run_ends is_digit rest = true /\ m = (rest, <[n := id]> g).
Proof.
  cbn [rmatch rep_min]. destruct s as [|x t]; [done|].
  cbn [cmem]. destruct (is_digit x) eqn:Hx; [|done].
  erewrite star_greedy_longest; [|reflexivity].
  change (cmem CDigit) with is_digit. intros [= <-].
  pose proof (take_drop_while is_digit (x :: t)) as H.
  cbn [drop_while take_while length] in H. rewrite Hx in H. rewrite H.
  exists (x :: take_while is_digit t), (drop_while is_digit t).
  split_and!; [|done| | |done].
  - cbn [app]. f_equal. apply take_drop_while_app.
  - unfold all_digits. cbn [forallb]. by rewrite Hx, forallb_take_while.
  - apply run_ends_drop_while.
Qed.

Lemma rmatch_digits_run n id rest g k m :
  id ≠ [] -> all_digits id = true -> run_ends is_digit rest = true ->
  k rest (<[n := id]> g) = Some m ->
  rmatch (Grp n (Rep true 1 CDigit)) (id ++ rest) g k = Some m.
Proof.
  intros Hne Hid Hrest Hk. destruct id as [|x id]; [done|].
  cbn [rmatch rep_min app cmem].
  unfold all_digits in Hid. cbn [forallb] in Hid.
  apply andb_prop in Hid as [Hx Hid]. rewrite Hx.
  apply star_greedy_longest. change (cmem CDigit) with is_digit.
  rewrite drop_while_app_stop by done.
  change (length (x :: ?l)) with (S (length l)).
  by rewrite take_length_cons_app.
Qed.

(** ** [_VALID_URL] and [_match_id] *)

Lemma VALID_URL_endpoint ie :
  VALID_URL ie =
  Lit (u "http") +> Opt (Lit (u "s")) +> Lit (u "://")
  +> Opt (Grp 1 (Lit (u "www."))) +> Lit (u "clubdam.com/app/damtomo/")
  +> Opt (Lit (u "SP/")) +> Lit (endpoint ie) +> Grp 2 (Rep true 1 CDigit).
Proof.
  destruct ie;
    cbv [VALID_URL endpoint DamtomoVideoIE_VALID_URL DamtomoRecordIE_VALID_URL];
    reflexivity.
Qed.

Lemma match_valid_url_inv ie url m :
  match_here (VALID_URL ie) url false = Some m ->
  exists tls www sp id,
    url = clubdam_url ie tls www sp id m.1
    /\ id ≠ [] /\ all_digits id = true /\ run_ends is_digit m.1 = true
    /\ m.2 !! 2%nat = Some id.
Proof.
  unfold match_here. rewrite VALID_URL_endpoint. cbn [andb]. intros H.
  rewrite rmatch_Cat in H. apply rmatch_Lit_inv in H as (s1 & -> & H).
  rewrite rmatch_Cat in H.
  apply rmatch_Opt_Lit_inv in H as (tls & s2 & -> & H).
  rewrite rmatch_Cat in H. apply rmatch_Lit_inv in H as (s3 & -> & H).
  rewrite rmatch_Cat in H.
  apply rmatch_Opt_Grp_Lit_inv in H as (www & s4 & g4 & -> & H).
  rewrite rmatch_Cat in H. apply rmatch_Lit_inv in H as (s5 & -> & H).
  rewrite rmatch_Cat in H.
  apply rmatch_Opt_Lit_inv in H as (sp & s6 & -> & H).
  rewrite rmatch_Cat in H. apply rmatch_Lit_inv in H as (s7 & -> & H).
  apply rmatch_digits_inv in H as (id & rest & -> & Hne & Hid & Hrest & ->).
  exists tls, www, sp, id. cbn [fst snd].
  split_and!; [reflexivity|done|done|done|apply lookup_insert_eq].
Qed.

Lemma rmatch_Opt_Lit_either (b : bool) l t g k m :
  strip_prefix l t = None -> k t g = Some m ->
  rmatch (Opt (Lit l)) ((if b then l else []) ++ t) g k = Some m.
Proof.
  intros Hl Hk. destruct b.
  - apply rmatch_Opt_taken. by rewrite rmatch_Lit_app.
  - cbn [app]. by rewrite rmatch_Opt_Lit_skipped.
Qed.

Lemma rmatch_Opt_Grp_Lit_either (b : bool) n l t g k m :
  strip_prefix l t = None ->
  k t (if b then <[n := l]> g else g) = Some m ->
  rmatch (Opt (Grp n (Lit l))) ((if b then l else []) ++ t) g k = Some m.
Proof.
  intros Hl Hk. destruct b.
  - apply rmatch_Opt_taken. cbn [rmatch]. rewrite strip_prefix_app.
    by rewrite take_length_diff.
  - cbn [app]. by rewrite rmatch_Opt_Grp_Lit_skipped.
Qed.

Lemma match_valid_url ie tls www sp id rest :
  id ≠ [] -> all_digits id = true -> run_ends is_digit rest = true ->
  exists g, match_here (VALID_URL ie) (clubdam_url ie tls www sp id rest) false
              = Some (rest, <[2%nat := id]> g).
Proof.
  intros Hne Hid Hrest. unfold match_here, clubdam_url.
  rewrite VALID_URL_endpoint. cbn [andb].
  exists (if www then <[1%nat := u "www."]> ∅ else ∅).
  rewrite rmatch_Cat, rmatch_Lit_app, rmatch_Cat.
  apply rmatch_Opt_Lit_either; [reflexivity|].
  rewrite rmatch_Cat, rmatch_Lit_app, rmatch_Cat.
  apply rmatch_Opt_Grp_Lit_either; [reflexivity|].
  rewrite rmatch_Cat, rmatch_Lit_app, rmatch_Cat.
  apply rmatch_Opt_Lit_either; [destruct ie; reflexivity|].
  rewrite rmatch_Cat, rmatch_Lit_app.
  by apply rmatch_digits_run.
Qed.

Lemma video_id_of_match ie url :
  video_id_of ie url =
  (fun m : mres => default [] (m.2 !! 2%nat)) <$> match_here (VALID_URL ie) url false.
Proof.
  unfold video_id_of, re_match. by destruct (match_here _ url false).
Qed.

Lemma video_id_of_shape ie url id :
  video_id_of ie url = Some id <->
  exists tls www sp rest,
    url = clubdam_url ie tls www sp id rest
    /\ id ≠ [] /\ all_digits id = true /\ run_ends is_digit rest = true.
Proof.
  rewrite video_id_of_match. split.
  - destruct (match_here (VALID_URL ie) url false) as [m|] eqn:E; [|done].
    apply match_valid_url_inv in E
      as (tls & www & sp & id' & -> & Hne & Hid & Hrest & Hg).
    cbn [fmap option_fmap option_map]. rewrite Hg. intros [= <-].
    by exists tls, www, sp, m.1.
  - intros (tls & www & sp & rest & -> & Hne & Hid & Hrest).
    destruct (match_valid_url ie tls www sp id rest Hne Hid Hrest) as [g ->].
    cbn [fmap option_fmap option_map snd]. by rewrite lookup_insert_eq.
Qed.

(** X1. [_VALID_URL] accepts exactly the URLs of the shape [clubdam_url]:
    either scheme, with or without [www.] and [SP/], the endpoint of the
    extractor, and then a run of decimal digits that is not empty; anything
    may follow the digits. The id [_match_id] gives is the whole run. *)
Theorem valid_url_shape ie url id :
  video_id_of ie url = Some id <->
  exists tls www sp rest,
    url = clubdam_url ie tls www sp id rest
    /\ id ≠ [] /\ all_digits id = true /\ run_ends is_digit rest = true.
Proof. apply video_id_of_shape. Qed.

Lemma clubdam_url_page ie id :
  page_url ie ++ id = clubdam_url ie true true false id [].
Proof.
  unfold clubdam_url. rewrite app_nil_r.
  destruct ie; cbv [page_url endpoint DamtomoVideoIE_page_url
                    DamtomoRecordIE_page_url]; vm_compute; reflexivity.
Qed.

(** X2. No URL is an input of both extractors. *)
Theorem valid_urls_disjoint url :
  video_id_of VideoIE url = None \/ video_id_of RecordIE url = None.
Proof.
  destruct (video_id_of VideoIE url) as [id_v|] eqn:Ev; [|by left]. right.
  destruct (video_id_of RecordIE url) as [id_r|] eqn:Er; [|reflexivity].
  exfalso.
  apply video_id_of_shape in Ev as (t1 & w1 & p1 & rest1 & -> & _).
  apply video_id_of_shape in Er as (t2 & w2 & p2 & rest2 & H & _).
  destruct t1, w1, p1, t2, w2, p2; vm_compute in H; discriminate H.
Qed.

(** X3. The URL is read for its id only: every accepted spelling of a URL,
    plain or secure, with or without [www.] and [SP/], and whatever follows
    the digits, makes the same requests and has the same outcome as the page
    URL the extractor itself builds from the id; that page URL is accepted and
    gives the id back. *)
Theorem url_variants ie tls www sp id rest w :
  id ≠ [] -> all_digits id = true -> run_ends is_digit rest = true ->
  video_id_of ie (page_url ie ++ id) = Some id
  /\ run (real_extract ie (clubdam_url ie tls www sp id rest)) w
     = run (real_extract ie (page_url ie ++ id)) w.
Proof.
  intros Hne Hid Hrest.
  assert (video_id_of ie (page_url ie ++ id) = Some id) as Hpage.
  { apply video_id_of_shape. exists true, true, false, [].
    split_and!; [apply clubdam_url_page|done|done|done]. }
  assert (video_id_of ie (clubdam_url ie tls www sp id rest) = Some id) as Hurl.
  { apply video_id_of_shape. by exists tls, www, sp, rest. }
  split; [exact Hpage|].
  rewrite !run_real_extract. unfold extraction. rewrite Hpage, Hurl. reflexivity.
Qed.

(** ** Repetitions once more *)

(** A greedy repetition settles on the longest run when what follows, once
    it fails after a character of the class, fails before it as well. *)
Lemma star_greedy_commit_back c s k :
  (forall x t, cmem c x = true -> k t = None -> k (x :: t) = None) ->
  star_greedy c s k = k (drop_while (cmem c) s).
Proof.
  intros Hk.
  assert (forall t, k (drop_while (cmem c) t) = None -> k t = None) as Hback.
  { induction t as [|y t IH]; cbn [drop_while]; [done|].
    destruct (cmem c y) eqn:Hy; [|done]. intros H. apply Hk; [done|]. by apply IH. }
  induction s as [|x s IH]; cbn [star_greedy drop_while]; [done|].
  destruct (cmem c x) eqn:Hx; [|done].
  rewrite IH. destruct (k (drop_while (cmem c) s)) eqn:E; [done|].
  apply Hk; [done|]. by apply Hback.
Qed.

Lemma star_lazy_ext c s k1 k2 :
  (forall t, k1 t = k2 t) -> star_lazy c s k1 = star_lazy c s k2.
Proof.
  intros H. induction s as [|x s IH]; cbn [star_lazy]; rewrite H; [done|].
  by rewrite IH.
Qed.

Lemma star_lazy_some c s k n :
  forallb (cmem c) (take n s) = true -> is_Some (k (drop n s)) ->
  is_Some (star_lazy c s k).
Proof.
  revert n. induction s as [|x s IH]; intros n Hall Hk; cbn [star_lazy].
  - rewrite drop_nil in Hk. destruct (k []); [eauto|]. by destruct Hk.
  - destruct (k (x :: s)) eqn:E; [eauto|].
    destruct n as [|n]; [rewrite drop_0, E in Hk; by destruct Hk|].
    cbn [take firstn forallb] in Hall. apply andb_prop in Hall as [-> Hall].
    by apply (IH n).
Qed.

Lemma star_lazy_complete c s k n m :
  forallb (cmem c) (take n s) = true -> k (drop n s) = Some m ->
  (forall j, (j < n)%nat -> k (drop j s) = None) ->
  star_lazy c s k = Some m.
Proof.
  revert n. induction s as [|x s IH]; intros n Hall Hk Hmin; cbn [star_lazy].
  - rewrite drop_nil in Hk. by rewrite Hk.
  - destruct n as [|n]; [rewrite drop_0 in Hk; by rewrite Hk|].
    pose proof (Hmin 0%nat ltac:(lia)) as H0. rewrite drop_0 in H0. rewrite H0.
    cbn [take firstn forallb] in Hall. apply andb_prop in Hall as [-> Hall].
    apply (IH n); [done|done|]. intros j Hj. apply (Hmin (S j)). lia.
Qed.

(** [re.search]: where the match is, and that nothing matches before it. *)
Lemma re_search_inv r s M :
  re_search r s = Some M ->
  exists pre t m,
    s = pre ++ t /\ match_here r t false = Some m /\ M = mk_match t m
    /\ forall i, (i < length pre)%nat -> match_here r (drop i s) false = None.
Proof.
  induction s as [|x s IH]; cbn [re_search].
  - destruct (match_here r [] false) as [m|] eqn:E; [|done].
    intros [= <-]. exists [], [], m. split_and!; [done|done|done|].
    intros i Hi. simpl in Hi. lia.
  - destruct (match_here r (x :: s) false) as [m|] eqn:E.
    + intros [= <-]. exists [], (x :: s), m. split_and!; [done|done|done|].
      intros i Hi. simpl in Hi. lia.
    + intros (pre & t & m & -> & Hm & -> & Hmin)%IH.
      exists (x :: pre), t, m. split_and!; [done|done|done|].
      intros [|i] Hi; [exact E|]. apply Hmin. simpl in Hi. lia.
Qed.

(** ** Occurrences of a literal *)

Lemma occurrences_from_elem from needle hay i :
  (i <= length hay)%nat -> is_Some (strip_prefix needle (drop i hay)) ->
  (from + i)%nat ∈ occurrences_from from needle hay.
Proof.
  revert from i. induction hay as [|x hay IH]; intros from i Hi Hs.
  - assert (i = 0)%nat as -> by (simpl in Hi; lia).
    cbn [occurrences_from]. rewrite drop_0 in Hs. destruct Hs as [t ->].
    rewrite Nat.add_0_r. apply elem_of_app. left. apply elem_of_cons. by left.
  - cbn [occurrences_from]. apply elem_of_app. destruct i as [|i].
    + left. rewrite drop_0 in Hs. destruct Hs as [t ->].
      rewrite Nat.add_0_r. apply elem_of_cons. by left.
    + right. replace (from + S i)%nat with (S from + i)%nat by lia.
      apply IH; [simpl in Hi; lia|exact Hs].
Qed.

Lemma occurrences_first needle hay p i :
  head (occurrences needle hay) = Some p -> (i < p)%nat ->
  strip_prefix needle (drop i hay) = None.
Proof.
  unfold occurrences.
  assert (forall from,
            head (occurrences_from from needle hay) = Some p ->
            (from + i < p)%nat -> strip_prefix needle (drop i hay) = None) as H.
  { revert i. induction hay as [|x hay IH]; intros i from; cbn [occurrences_from].
    - destruct (strip_prefix needle []) eqn:E; [|done].
      cbn [app head]. intros [= <-]. lia.
    - destruct (strip_prefix needle (x :: hay)) eqn:E.
      + cbn [app head]. intros [= <-]. lia.
      + cbn [app]. intros Hh Hlt. destruct i as [|i]; [by rewrite drop_0|].
        cbn [drop skipn]. apply (IH i (S from)); [done|lia]. }
  intros Hh Hlt. by apply (H 0%nat).
Qed.

Lemma occurrences_only needle hay p i :
  occurrences needle hay = [p] -> (i <= length hay)%nat -> i ≠ p ->
  strip_prefix needle (drop i hay) = None.
Proof.
  intros Hocc Hi Hne.
  destruct (strip_prefix needle (drop i hay)) as [t|] eqn:E; [exfalso|done].
  pose proof (occurrences_from_elem 0 needle hay i Hi ltac:(by rewrite E)) as Hin.
  cbn [Nat.add] in Hin. fold (occurrences needle hay) in Hin.
  rewrite Hocc in Hin. apply elem_of_cons in Hin as [->|Hin]; [done|].
  by apply elem_of_nil in Hin.
Qed.

Lemma py_in_false needle hay i :
  py_in needle hay = false -> strip_prefix needle (drop i hay) = None.
Proof.
  intros H. destruct (strip_prefix needle (drop i hay)) as [t|] eqn:E; [|done].
  apply strip_prefix_Some in E.
  assert (py_in needle hay = true) as H'; [|congruence].
  apply py_in_true. exists (take i hay), t. by rewrite <- E, take_drop.
Qed.

(** ** The comment pattern *)

Lemma u_lt : u "<" = [lt_sign].
Proof. vm_compute. reflexivity. Qed.

Lemma cmem_none_of_one c x : cmem (CNoneOf [c]) x = negb (x =? c).
Proof.
  cbn [cmem]. destruct (N.eqb_spec x c) as [->|Hne].
  - rewrite bool_decide_eq_true_2; [done|]. apply elem_of_cons. by left.
  - rewrite bool_decide_eq_false_2; [done|].
    intros [?|H]%elem_of_cons; [done|]. by apply elem_of_nil in H.
Qed.

Lemma lacks_forallb c s : forallb (cmem (CNoneOf [c])) s = lacks c s.
Proof.
  unfold lacks. induction s as [|x s IH]; cbn [forallb]; [done|].
  by rewrite cmem_none_of_one, IH.
Qed.

Lemma space_is_not c x : is_space c = false -> is_space x = true -> (c =? x) = false.
Proof.
  intros Hc Hx. destruct (N.eqb_spec c x) as [->|]; [congruence|done].
Qed.

Lemma strip_prefix_close_space x t :
  is_space x = true -> strip_prefix (u "</p>") (x :: t) = None.
Proof.
  intros Hx. replace (u "</p>") with (lt_sign :: u "/p>") by (vm_compute; reflexivity).
  cbn [strip_prefix]. by rewrite (space_is_not lt_sign x).
Qed.

Lemma strip_prefix_close_other x t :
  (x =? lt_sign) = false -> strip_prefix (u "</p>") (x :: t) = None.
Proof.
  intros Hx. replace (u "</p>") with (lt_sign :: u "/p>") by (vm_compute; reflexivity).
  cbn [strip_prefix]. by rewrite N.eqb_sym, Hx.
Qed.

(** [\s*</p>]: the whitespace is all taken. *)
Lemma spaces_then_close s (K : pystr -> option mres) :
  star_greedy CSpace s
    (fun s6 => match strip_prefix (u "</p>") s6 with
               | Some s7 => K s7
               | None => None
               end)
  = match strip_prefix (u "</p>") (lstrip s) with
    | Some s7 => K s7
    | None => None
    end.
Proof.
  rewrite star_greedy_commit; [reflexivity|].
  intros x t Hx. by rewrite strip_prefix_close_space.
Qed.

Lemma lstrip_cons_space x s : is_space x = true -> lstrip (x :: s) = lstrip s.
Proof. unfold lstrip. cbn [drop_while]. by intros ->. Qed.

Lemma comment_tail_unfold s g :
  rmatch comment_tail s g (fun s' g' => Some (s', g')) =
  star_lazy (CNoneOf [lt_sign]) s
    (fun s5 => match strip_prefix (u "</p>") (lstrip s5) with
               | Some s7 => Some (s7, <[1%nat := take (length s - length s5) s]> g)
               | None => None
               end).
Proof.
  unfold comment_tail. rewrite u_lt. cbn [rmatch rep_min].
  apply star_lazy_ext. intros t. apply spaces_then_close.
Qed.

(** The tail matches where a text without [<] is followed by whitespace and
    [</p>]; its group is the shortest such text. *)
Lemma comment_tail_inv s g m :
  rmatch comment_tail s g (fun s' g' => Some (s', g')) = Some m ->
  exists d w rest,
    s = d ++ w ++ u "</p>" ++ rest
    /\ lacks lt_sign d = true /\ ends_clean d = true /\ all_space w = true
    /\ m = (rest, <[1%nat := d]> g).
Proof.
  rewrite comment_tail_unfold.
  intros (d & post & -> & Hd & H & Hmin)%star_lazy_split.
  destruct (strip_prefix (u "</p>") (lstrip post)) as [rest|] eqn:E; [|done].
  apply strip_prefix_Some in E. rewrite take_length_diff in H.
  apply (inj Some) in H. subst m.
  exists d, (take_while is_space post), rest. split_and!.
  - rewrite <- E. unfold lstrip. by rewrite <- take_drop_while_app.
  - by rewrite <- lacks_forallb.
  - unfold ends_clean. destruct (last d) as [c|] eqn:El; [|done].
    destruct (is_space c) eqn:Hc; [exfalso|done].
    apply last_Some in El as [d' ->].
    specialize (Hmin (length d')). rewrite length_app in Hmin.
    specialize (Hmin ltac:(simpl; lia)).
    rewrite <- app_assoc, drop_app_length in Hmin. cbn [app] in Hmin.
    rewrite lstrip_cons_space, E, strip_prefix_app in Hmin by done.
    discriminate Hmin.
  - apply forallb_take_while.
  - reflexivity.
Qed.

Lemma forallb_drop {A} (p : A -> bool) n l :
  forallb p l = true -> forallb p (drop n l) = true.
Proof.
  revert n. induction l as [|x l IH]; intros [|n]; cbn [drop skipn forallb]; try done.
  intros [_ H]%andb_prop. by apply IH.
Qed.

Lemma ends_clean_cons x y s : ends_clean (x :: y :: s) = ends_clean (y :: s).
Proof. reflexivity. Qed.

Lemma ends_clean_drop d j :
  ends_clean d = true -> (j < length d)%nat -> all_space (drop j d) = false.
Proof.
  revert j. induction d as [|x d IH]; intros j Hc Hj; [simpl in Hj; lia|].
  destruct d as [|y d].
  - destruct j; [|simpl in Hj; lia]. unfold ends_clean in Hc. cbn in Hc.
    cbn [drop skipn all_space forallb]. by destruct (is_space x).
  - rewrite ends_clean_cons in Hc. destruct j as [|j].
    + cbn [drop skipn]. unfold all_space. cbn [forallb].
      apply andb_false_iff. right. apply (IH 0%nat Hc). simpl. lia.
    + cbn [drop skipn]. apply IH; [done|simpl in *; lia].
Qed.

(** The first character after leading whitespace that is not all there is. *)
Lemma lstrip_head c e rest :
  lacks c e = true -> all_space e = false ->
  exists y r, lstrip (e ++ rest) = y :: r /\ (y =? c) = false.
Proof.
  induction e as [|x e IH]; [done|].
  unfold lacks, all_space. cbn [forallb app].
  intros [Hx He]%andb_prop Hs.
  destruct (is_space x) eqn:Hsx.
  - rewrite lstrip_cons_space by done. apply IH; [done|]. by rewrite andb_true_l in Hs.
  - exists x, (e ++ rest). unfold lstrip. cbn [drop_while]. rewrite Hsx.
    split; [done|]. by apply negb_true_iff.
Qed.

Lemma comment_tail_match d w rest g :
  lacks lt_sign d = true -> ends_clean d = true -> all_space w = true ->
  rmatch comment_tail (d ++ w ++ u "</p>" ++ rest) g (fun s' g' => Some (s', g'))
  = Some (rest, <[1%nat := d]> g).
Proof.
  intros Hd Hc Hw. rewrite comment_tail_unfold.
  apply star_lazy_complete with (n := length d).
  - by rewrite take_app_length, lacks_forallb.
  - rewrite drop_app_length. unfold lstrip.
    rewrite drop_while_app_stop; [|done|reflexivity].
    by rewrite strip_prefix_app, take_length_diff.
  - intros j Hj. rewrite drop_app_le by lia.
    destruct (lstrip_head lt_sign (drop j d) (w ++ u "</p>" ++ rest))
      as (y & r & -> & Hy).
    + unfold lacks. by apply forallb_drop.
    + by apply ends_clean_drop.
    + by rewrite strip_prefix_close_other.
Qed.

Lemma comment_tail_some s g :
  is_Some (rmatch comment_tail s g (fun s' g' => Some (s', g'))) <->
  exists n, forallb (cmem (CNoneOf [lt_sign])) (take n s) = true
            /\ is_Some (strip_prefix (u "</p>") (lstrip (drop n s))).
Proof.
  rewrite comment_tail_unfold. split.
  - intros [m (n & _ & Hall & Hk & _)%star_lazy_inv]. exists n. split; [done|].
    destruct (strip_prefix (u "</p>") (lstrip (drop n s))); [eauto|done].
  - intros (n & Hall & [r Hs]). eapply star_lazy_some; [exact Hall|].
    cbv beta. rewrite Hs. eauto.
Qed.

(** [\s*] before the tail: the whitespace is all taken. *)
Lemma spaces_then_comment_tail s g :
  star_greedy CSpace s
    (fun s4 => rmatch comment_tail s4 g (fun s' g' => Some (s', g')))
  = rmatch comment_tail (lstrip s) g (fun s' g' => Some (s', g')).
Proof.
  apply star_greedy_commit_back. intros x t Hx Hnone.
  destruct (rmatch comment_tail (x :: t) g _) as [m|] eqn:E; [exfalso|done].
  assert (is_Some (rmatch comment_tail t g (fun s' g' => Some (s', g')))) as Ht;
    [|rewrite Hnone in Ht; by destruct Ht].
  apply comment_tail_some.
  destruct (proj1 (comment_tail_some (x :: t) g) ltac:(by rewrite E))
    as ([|n] & Hall & Hs).
  - exists 0%nat. split; [done|]. rewrite drop_0 in *.
    by rewrite lstrip_cons_space in Hs.
  - exists n. cbn [take firstn forallb drop skipn] in *.
    apply andb_prop in Hall as [_ Hall]. done.
Qed.

(** One attempt of the comment pattern: the opening, whitespace, [<p>],
    whitespace, and the tail. *)
Lemma match_here_description s :
  match_here re_description s false =
  match strip_prefix comment_open s with
  | Some s1 =>
    match strip_prefix (u "<p>") (lstrip s1) with
    | Some s3 => rmatch comment_tail (lstrip s3) ∅ (fun s' g' => Some (s', g'))
    | None => None
    end
  | None => None
  end.
Proof.
  unfold match_here.
  change re_description with
    (Lit comment_open +> Rep true 0 CSpace +> Lit (u "<p>") +> Rep true 0 CSpace
     +> comment_tail).
  cbn [andb]. rewrite rmatch_Cat, rmatch_Lit.
  destruct (strip_prefix comment_open s) as [s1|]; [|done].
  rewrite rmatch_Cat, rmatch_spaces, star_greedy_commit.
  - change (cmem CSpace) with is_space. fold (lstrip s1).
    rewrite rmatch_Cat, rmatch_Lit.
    destruct (strip_prefix (u "<p>") (lstrip s1)) as [s3|]; [|done].
    rewrite rmatch_Cat, rmatch_spaces.
    apply spaces_then_comment_tail.
  - intros x t Hx. rewrite rmatch_Cat, rmatch_Lit.
    replace (u "<p>") with (lt_sign :: u "p>") by (vm_compute; reflexivity).
    cbn [strip_prefix]. by rewrite (space_is_not lt_sign x).
Qed.

Lemma group_mk_match t (m : mres) n : group (mk_match t m) n = default [] (m.2 !! n).
Proof. reflexivity. Qed.

Lemma lacks_app c a b : lacks c (a ++ b) = lacks c a && lacks c b.
Proof. apply forallb_app. Qed.

Lemma lacks_drop_while c p s : lacks c s = true -> lacks c (drop_while p s) = true.
Proof.
  induction s as [|x s IH]; [done|]. cbn [drop_while].
  destruct (p x); [|done]. unfold lacks. cbn [forallb].
  intros [_ H]%andb_prop. by apply IH.
Qed.

Lemma lacks_all_space c w : is_space c = false -> all_space w = true -> lacks c w = true.
Proof.
  intros Hc. induction w as [|x w IH]; [done|].
  unfold lacks, all_space. cbn [forallb]. intros [Hx Hw]%andb_prop.
  rewrite N.eqb_sym, (space_is_not c x) by done. by apply IH.
Qed.

Lemma drop_while_app_keep p a x b :
  p x = false -> drop_while p (a ++ x :: b) = drop_while p a ++ x :: b.
Proof.
  intros Hx. induction a as [|y a IH]; cbn [app drop_while]; [by rewrite Hx|].
  by destruct (p y).
Qed.

(** Where a character first occurs settles both sides of it. *)
Lemma first_occurrence_unique c a a' b b' :
  lacks c a = true -> lacks c a' = true ->
  a ++ c :: b = a' ++ c :: b' -> a = a' /\ b = b'.
Proof.
  revert a'. induction a as [|x a IH]; intros [|y a'] Ha Ha' H.
  - by injection H.
  - cbn [app] in H. injection H as <- _. unfold lacks in Ha'. cbn [forallb] in Ha'.
    by rewrite N.eqb_refl in Ha'.
  - cbn [app] in H. injection H as -> _. unfold lacks in Ha. cbn [forallb] in Ha.
    by rewrite N.eqb_refl in Ha.
  - cbn [app] in H. injection H as <- H. unfold lacks in Ha, Ha'.
    cbn [forallb] in Ha, Ha'.
    apply andb_prop in Ha as [_ Ha]. apply andb_prop in Ha' as [_ Ha'].
    destruct (IH a' Ha Ha' H) as [-> ->]. done.
Qed.

Lemma lstrip_spaces_then w s :
  all_space w = true -> run_ends is_space s = true -> lstrip (w ++ s) = s.
Proof. intros. unfold lstrip. by apply drop_while_app_stop. Qed.

(** X4. The description, when there is one, carries no [<] and no whitespace
    at either end. *)
Theorem description_trimmed webpage d :
  _search_regex re_description webpage = Some d ->
  strip d = d /\ lacks lt_sign d = true.
Proof.
  unfold _search_regex.
  destruct (re_search re_description webpage) as [M|] eqn:E; [|done].
  cbn [fmap option_fmap option_map]. intros [= <-].
  apply re_search_inv in E as (pre & t & m & -> & Hm & -> & _).
  rewrite match_here_description in Hm.
  destruct (strip_prefix comment_open t) as [s1|]; [|done].
  destruct (strip_prefix (u "<p>") (lstrip s1)) as [s3|]; [|done].
  apply comment_tail_inv in Hm as (d & w & rest & Hs & Hd & Hc & Hw & ->).
  rewrite group_mk_match. cbn [snd]. rewrite lookup_insert_eq.
  change (default [] (Some d)) with d.
  split; [|done].
  assert (run_ends is_space d = true) as Hr.
  { destruct d as [|x d]; [done|].
    pose proof (run_ends_drop_while is_space s3) as H. fold (lstrip s3) in H.
    by rewrite Hs in H. }
  pose proof (strip_spec [] d [] eq_refl eq_refl Hr Hc) as H.
  cbn [app] in H. by rewrite app_nil_r in H.
Qed.

(** X5. The description is read at the first occurrence of the opening of the
    comment block: when whitespace, [<p>] and a text without [<] up to [</p>]
    follow, it is that text without the whitespace around it. *)
Theorem description_found webpage pre ws1 ws2 d ws3 post :
  webpage = pre ++ comment_open ++ ws1 ++ u "<p>" ++ ws2 ++ d ++ ws3
            ++ u "</p>" ++ post ->
  head (occurrences comment_open webpage) = Some (length pre) ->
  all_space ws1 = true -> all_space ws2 = true -> all_space ws3 = true ->
  lacks lt_sign d = true -> run_ends is_space d = true -> ends_clean d = true ->
  _search_regex re_description webpage = Some d.
Proof.
  intros Hw Hocc H1 H2 H3 Hd Hr Hc. unfold _search_regex.
  assert (match_here re_description
            (comment_open ++ ws1 ++ u "<p>" ++ ws2 ++ d ++ ws3 ++ u "</p>" ++ post)
            false = Some (post, <[1%nat := d]> ∅)) as Hm.
  { rewrite match_here_description, strip_prefix_app.
    rewrite lstrip_spaces_then; [|done|reflexivity].
    rewrite strip_prefix_app. destruct d as [|x d].
    - cbn [app]. rewrite app_assoc, lstrip_spaces_then; [| |reflexivity].
      + apply (comment_tail_match [] [] post); done.
      + unfold all_space in *. by rewrite forallb_app, H2, H3.
    - rewrite lstrip_spaces_then by done. by apply comment_tail_match. }
  subst webpage. rewrite re_search_skip.
  - rewrite (re_search_here _ _ _ Hm). cbn [fmap option_fmap option_map].
    rewrite group_mk_match. cbn [snd]. by rewrite lookup_insert_eq.
  - intros i Hi. rewrite match_here_description.
    by rewrite (occurrences_first _ _ _ _ Hocc Hi).
Qed.

(** X6. There is no description ([None], and no error) when the page has no
    comment block, and also when the text of the only comment block runs into
    a tag before its [</p>]. *)
Theorem description_none webpage :
  (py_in comment_open webpage = false ->
   _search_regex re_description webpage = None)
  /\ (forall pre ws1 body rest,
        webpage = pre ++ comment_open ++ ws1 ++ u "<p>" ++ body ++ u "<" ++ rest ->
        occurrences comment_open webpage = [length pre] ->
        all_space ws1 = true -> lacks lt_sign body = true ->
        strip_prefix (u "/p>") rest = None ->
        _search_regex re_description webpage = None).
Proof.
  unfold _search_regex. split.
  - intros H. rewrite re_search_nowhere; [done|].
    intros i _. by rewrite match_here_description, py_in_false.
  - intros pre ws1 body rest Hw Hocc H1 Hb Hrest.
    rewrite re_search_nowhere; [done|].
    intros i Hi. rewrite match_here_description.
    destruct (decide (i = length pre)) as [->|Hne];
      [|by rewrite (occurrences_only _ _ _ _ Hocc Hi Hne)].
    rewrite Hw, drop_app_length, strip_prefix_app.
    rewrite lstrip_spaces_then; [|done|reflexivity].
    rewrite strip_prefix_app, u_lt. cbn [app]. unfold lstrip.
    rewrite drop_while_app_keep by reflexivity.
    destruct (rmatch comment_tail _ _ _) as [m|] eqn:E; [exfalso|done].
    apply comment_tail_inv in E as (d & w & rest' & Hs & Hd & _ & Hws & _).
    replace (u "</p>") with (lt_sign :: u "/p>") in Hs by (vm_compute; reflexivity).
    rewrite app_assoc in Hs. cbn [app] in Hs.
    apply first_occurrence_unique in Hs as [_ ->].
    + by rewrite strip_prefix_app in Hrest.
    + by apply lacks_drop_while.
    + by rewrite lacks_app, Hd, (lacks_all_space lt_sign w).
Qed.

(** ** The profile-link pattern *)

(** The pattern after its opening literal: [([^\x22]+)\x22]. *)
Lemma profile_tail_inv s m :
  rmatch (Grp 1 (Rep true 1 (CNoneOf [quote_sign])) +> Lit [quote_sign]) s ∅
         (fun s' g' => Some (s', g')) = Some m ->
  exists id rest,
    s = id ++ quote_sign :: rest /\ id ≠ [] /\ lacks quote_sign id = true
    /\ m = (rest, <[1%nat := id]> ∅).
Proof.
  cbn [rmatch]. intros H.
  apply rep_min_1_inv in H as (x & t & -> & Hx & H).
  apply star_greedy_split in H as (id & post & -> & Hid & H).
  destruct (strip_prefix [quote_sign] post) as [rest|] eqn:E; [|done].
  apply strip_prefix_Some in E as ->.
  change (length (x :: ?l)) with (S (length l)) in H.
  rewrite take_length_cons_app in H. apply (inj Some) in H. subst m.
  exists (x :: id), rest. split_and!; [done|done| |done].
  rewrite <- lacks_forallb. cbn [forallb]. by rewrite Hx, Hid.
Qed.

Lemma profile_tail_match id rest :
  id ≠ [] -> lacks quote_sign id = true ->
  rmatch (Grp 1 (Rep true 1 (CNoneOf [quote_sign])) +> Lit [quote_sign])
         (id ++ quote_sign :: rest) ∅ (fun s' g' => Some (s', g'))
  = Some (rest, <[1%nat := id]> ∅).
Proof.
  intros Hne Hid. destruct id as [|x id]; [done|].
  rewrite <- lacks_forallb in Hid. cbn [forallb] in Hid.
  apply andb_prop in Hid as [Hx Hid].
  cbn [rmatch rep_min app]. rewrite Hx.
  apply star_greedy_longest.
  rewrite drop_while_app_stop;
    [|done|cbn [run_ends]; by rewrite cmem_none_of_one, N.eqb_refl].
  cbn [strip_prefix]. rewrite N.eqb_refl.
  change (length (x :: ?l)) with (S (length l)).
  by rewrite (take_length_cons_app x id (quote_sign :: rest)).
Qed.

Lemma match_here_uploader_id s :
  match_here re_uploader_id s false =
  match strip_prefix profile_open s with
  | Some s1 =>
    rmatch (Grp 1 (Rep true 1 (CNoneOf [quote_sign])) +> Lit [quote_sign]) s1 ∅
           (fun s' g' => Some (s', g'))
  | None => None
  end.
Proof.
  unfold match_here.
  change re_uploader_id with
    (Lit profile_open +> Grp 1 (Rep true 1 (CNoneOf [quote_sign]))
     +> Lit [quote_sign]).
  cbn [andb]. by rewrite rmatch_Cat, rmatch_Lit.
Qed.

(** X7. The uploader id, when there is one, is a text of the page that stands
    between the opening of a profile link and a quotation mark; it is not
    empty and holds no quotation mark. *)
Theorem uploader_id_shape webpage id :
  _search_regex re_uploader_id webpage = Some id ->
  id ≠ [] /\ lacks quote_sign id = true
  /\ exists pre post, webpage = pre ++ profile_open ++ id ++ dq ++ post.
Proof.
  unfold _search_regex.
  destruct (re_search re_uploader_id webpage) as [M|] eqn:E; [|done].
  cbn [fmap option_fmap option_map]. intros [= <-].
  apply re_search_inv in E as (pre & t & m & -> & Hm & -> & _).
  rewrite match_here_uploader_id in Hm.
  destruct (strip_prefix profile_open t) as [s1|] eqn:Ep; [|done].
  apply strip_prefix_Some in Ep as ->.
  apply profile_tail_inv in Hm as (id & rest & -> & Hne & Hid & ->).
  rewrite group_mk_match. cbn [snd]. rewrite lookup_insert_eq.
  change (default [] (Some id)) with id.
  split_and!; [done|done|]. by exists pre, rest.
Qed.

(** X8. The uploader id is read at the first profile link of the page: it is
    the text up to the quotation mark that closes the address. *)
Theorem uploader_id_found webpage pre id post :
  webpage = pre ++ profile_open ++ id ++ dq ++ post ->
  head (occurrences profile_open webpage) = Some (length pre) ->
  id ≠ [] -> lacks quote_sign id = true ->
  _search_regex re_uploader_id webpage = Some id.
Proof.
  intros -> Hocc Hne Hid. unfold _search_regex. rewrite re_search_skip.
  - erewrite re_search_here.
    2: { rewrite match_here_uploader_id, strip_prefix_app.
         by apply profile_tail_match. }
    cbn [fmap option_fmap option_map].
    rewrite group_mk_match. cbn [snd]. by rewrite lookup_insert_eq.
  - intros i Hi. rewrite match_here_uploader_id.
    by rewrite (occurrences_first _ _ _ _ Hocc Hi).
Qed.

(** X9. There is no uploader id ([None], and no error) when the page has no
    profile link, and also when the id of its only profile link is empty. *)
Theorem uploader_id_none webpage :
  (py_in profile_open webpage = false ->
   _search_regex re_uploader_id webpage = None)
  /\ (forall pre post,
        webpage = pre ++ profile_open ++ dq ++ post ->
        occurrences profile_open webpage = [length pre] ->
        _search_regex re_uploader_id webpage = None).
Proof.
  unfold _search_regex. split.
  - intros H. rewrite re_search_nowhere; [done|].
    intros i _. by rewrite match_here_uploader_id, py_in_false.
  - intros pre post Hw Hocc. rewrite re_search_nowhere; [done|].
    intros i Hi. rewrite match_here_uploader_id.
    destruct (decide (i = length pre)) as [->|Hne];
      [|by rewrite (occurrences_only _ _ _ _ Hocc Hi Hne)].
    rewrite Hw, drop_app_length, strip_prefix_app.
    destruct (rmatch _ _ _ _) as [m|] eqn:E; [exfalso|done].
    apply profile_tail_inv in E as ([|x id] & rest & Hs & Hne & Hid & _); [done|].
    unfold dq in Hs. cbn [app] in Hs. injection Hs as <- _.
    unfold lacks in Hid. cbn [forallb] in Hid.
    by rewrite N.eqb_refl in Hid.
Qed.

(** ** The values and the keys of the FieldMap *)

Lemma is_space_space : is_space space = true.
Proof. reflexivity. Qed.

Lemma collapse_from_true_head s : run_ends is_space (collapse_from true s) = true.
Proof.
  induction s as [|x s IH]; [done|]. cbn [collapse_from].
  destruct (is_space x) eqn:Hx; [done|]. cbn [run_ends]. by rewrite Hx.
Qed.

Lemma collapse_from_spaces b s c :
  c ∈ collapse_from b s -> is_space c = true -> c = space.
Proof.
  revert b. induction s as [|x s IH]; intros b; cbn [collapse_from].
  - by intros ?%elem_of_nil.
  - destruct (is_space x) eqn:Hx.
    + destruct b; [apply IH|].
      intros [->|H]%elem_of_cons; [done|]. by apply (IH true).
    + intros [->|H]%elem_of_cons; [congruence|]. by apply (IH false).
Qed.

Lemma py_in_cons needle x hay :
  py_in needle (x :: hay) =
  match strip_prefix needle (x :: hay) with
  | Some _ => true
  | None => py_in needle hay
  end.
Proof. reflexivity. Qed.

Lemma collapse_from_no_double b s :
  py_in [space; space] (collapse_from b s) = false.
Proof.
  revert b. induction s as [|x s IH]; intros b; cbn [collapse_from]; [done|].
  destruct (is_space x) eqn:Hx.
  - destruct b; [apply IH|].
    pose proof (collapse_from_true_head s) as Hh. specialize (IH true).
    rewrite py_in_cons, IH.
    destruct (collapse_from true s) as [|z r] eqn:E; [done|].
    cbn [run_ends] in Hh. cbn [strip_prefix]. rewrite N.eqb_refl.
    destruct (N.eqb_spec space z) as [<-|_]; [by rewrite is_space_space in Hh|].
    reflexivity.
  - rewrite py_in_cons, IH. cbn [strip_prefix].
    destruct (N.eqb_spec space x) as [<-|_]; [by rewrite is_space_space in Hx|].
    reflexivity.
Qed.

Lemma collapse_from_idem b s :
  collapse_from false (collapse_from b s) = collapse_from b s.
Proof.
  revert b. induction s as [|x s IH]; intros b; cbn [collapse_from]; [done|].
  destruct (is_space x) eqn:Hx.
  - destruct b; [apply IH|]. cbn [collapse_from].
    change (is_space 32) with true. cbv iota.
    f_equal. rewrite collapse_from_true.
    pose proof (collapse_from_true_head s) as Hh.
    destruct (collapse_from true s) as [|z r] eqn:E; [done|].
    cbn [run_ends] in Hh. cbn [drop_while].
    apply negb_true_iff in Hh. rewrite Hh. rewrite <- E. apply IH.
  - cbn [collapse_from]. rewrite Hx. f_equal. apply IH.
Qed.

Lemma collapse_whitespace_nonempty s : s ≠ [] -> collapse_whitespace s ≠ [].
Proof.
  destruct s as [|x s]; [done|]. intros _. unfold collapse_whitespace.
  cbn [collapse_from]. by destruct (is_space x).
Qed.

Lemma collapse_from_non_spaces b s :
  non_spaces (collapse_from b s) = non_spaces s.
Proof.
  revert b. unfold non_spaces.
  induction s as [|x s IH]; intros b; cbn [collapse_from List.filter]; [done|].
  destruct (is_space x) eqn:Hx; cbn [negb].
  - destruct b; [apply IH|]. cbn [List.filter].
    change (is_space 32) with true. cbn [negb]. apply IH.
  - cbn [List.filter]. rewrite Hx. cbn [negb]. f_equal. apply IH.
Qed.

Lemma collapse_from_length b s : (length (collapse_from b s) <= length s)%nat.
Proof.
  revert b. induction s as [|x s IH]; intros b; cbn [collapse_from length]; [lia|].
  destruct (is_space x); [destruct b|]; cbn [length];
    first [specialize (IH true); lia | specialize (IH false); lia].
Qed.

(** X10. Collapsing whitespace touches whitespace only: the characters that
    are no whitespace stay, in their order, and the text never gets longer.
    Collapsing a second time changes nothing. *)
Theorem collapse_laws s :
  non_spaces (re_sub re_spaces (u " ") s) = non_spaces s
  /\ (length (re_sub re_spaces (u " ") s) <= length s)%nat
  /\ re_sub re_spaces (u " ") (re_sub re_spaces (u " ") s)
     = re_sub re_spaces (u " ") s.
Proof.
  rewrite !re_sub_spaces. split_and!.
  - apply collapse_from_non_spaces.
  - apply collapse_from_length.
  - apply collapse_from_idem.
Qed.

Lemma FieldMap_lookup_Some webpage label v :
  FieldMap webpage !! label = Some v ->
  exists g cleaned,
    g ∈ re_finditer re_field webpage /\ group g 2 = label
    /\ clean_html (group g 3) = cleaned /\ cleaned ≠ []
    /\ v = collapse_whitespace cleaned.
Proof.
  rewrite FieldMap_lookup.
  destruct (last _) as [g|] eqn:El; [|done].
  apply last_Some in El as [l' El].
  assert (g ∈ filter (fun g => group g 2 = label) (re_finditer re_field webpage))
    as Hin by (rewrite El; apply elem_of_app; right; apply elem_of_cons; by left).
  apply list_elem_of_filter in Hin as [Hl Hin].
  destruct (clean_html (group g 3)) as [|c cleaned] eqn:Ec; [done|].
  intros [= <-]. exists g, (c :: cleaned). by split_and!.
Qed.

(** X11. Every value of the FieldMap is a text that is not empty, whose only
    whitespace is the space U+0020, and in which no two spaces follow each
    other. *)
Theorem FieldMap_values webpage label v :
  FieldMap webpage !! label = Some v ->
  v ≠ []
  /\ (forall c, c ∈ v -> is_space c = true -> c = space)
  /\ py_in (u "  ") v = false.
Proof.
  intros (g & cleaned & _ & _ & _ & Hne & ->)%FieldMap_lookup_Some.
  split_and!.
  - by apply collapse_whitespace_nonempty.
  - apply collapse_from_spaces.
  - replace (u "  ") with [space; space] by (vm_compute; reflexivity).
    apply collapse_from_no_double.
Qed.

(** X12. Every key of the FieldMap is the class label of a field of the page:
    a text that is not empty and holds neither a quotation mark nor a space. *)
Theorem FieldMap_keys webpage label :
  is_Some (FieldMap webpage !! label) ->
  label ≠ [] /\ lacks quote_sign label = true /\ lacks space label = true
  /\ exists pre tag ws content rest,
       webpage = pre ++ field_text tag ws label content ++ rest.
Proof.
  intros [v (g & cleaned & Hin & Hl & _)%FieldMap_lookup_Some].
  apply finditer_field_shape in Hin
    as (pre & tag & ws & label' & content & rest & Hw & Hocc & _ & _ & Hl' & _).
  rewrite Hl in Hl'. subst label'.
  destruct Hocc as (_ & _ & _ & Hne & Hall & _).
  split_and!; [done| | |by exists pre, tag, ws, content, rest].
  - replace (dq ++ u " ") with [quote_sign; space] in Hall by (vm_compute; reflexivity).
    unfold lacks. clear -Hall. induction label as [|x l IH]; [done|].
    cbn [forallb cmem] in *. apply andb_prop in Hall as [Hx Hall].
    rewrite (IH Hall), andb_true_r. apply negb_true_iff in Hx.
    apply bool_decide_eq_false in Hx. apply negb_true_iff.
    apply N.eqb_neq. intros ->. apply Hx. apply elem_of_cons. by left.
  - replace (dq ++ u " ") with [quote_sign; space] in Hall by (vm_compute; reflexivity).
    unfold lacks. clear -Hall. induction label as [|x l IH]; [done|].
    cbn [forallb cmem] in *. apply andb_prop in Hall as [Hx Hall].
    rewrite (IH Hall), andb_true_r. apply negb_true_iff in Hx.
    apply bool_decide_eq_false in Hx. apply negb_true_iff.
    apply N.eqb_neq. intros ->. apply Hx.
    apply elem_of_cons. right. apply elem_of_cons. by left.
Qed.

(** ** What a failure tells *)

Lemma Raise_pair_inv {A} (e e' : exn) (l l' : list request) :
  (@Raise A e, l) = (Raise e', l') -> e = e' /\ l = l'.
Proof. intros H. injection H as He Hl. by split. Qed.

Lemma ExtractorError_inv m b m' b' :
  ExtractorError m b = ExtractorError m' b' -> m = m' /\ b = b'.
Proof. intros H. injection H as Hm Hb. by split. Qed.

Lemma pystr_eqb_true a b : pystr_eqb a b = true -> a = b.
Proof. unfold pystr_eqb. apply bool_decide_eq_true. Qed.

Lemma pystr_eqb_false a b : pystr_eqb a b = false -> a ≠ b.
Proof. unfold pystr_eqb. apply bool_decide_eq_false. Qed.

(** X13. The two expected errors of the module are raised for their causes
    only: the one for rate limiting when the request ended at the rate-limit
    URL, the one for a server error when it did not and the page holds the
    marker. In both cases the page request is the only request made. *)
Theorem expected_error_cause ie url w e log :
  run (real_extract ie url) w = (Raise e, log) ->
  e = RateLimited \/ e = ServerError ->
  exists video_id webpage handle_url,
    video_id_of ie url = Some video_id
    /\ web_page w (page_url ie ++ video_id) = Some (webpage, handle_url)
    /\ log = [GetPage (page_url ie ++ video_id)]
    /\ ((e = RateLimited /\ handle_url = sorry_url)
        \/ (e = ServerError /\ handle_url ≠ sorry_url
            /\ exists pre post, webpage = pre ++ server_error_marker ++ post)).
Proof.
  rewrite run_real_extract. unfold extraction. intros H He.
  assert (forall k, KeyError k ≠ e) as Hkey
    by (intros k <-; destruct He as [He|He]; discriminate He).
  assert (ManifestNotFound ≠ e) as Hman.
  { intros <-. destruct He as [He|He];
      apply ExtractorError_inv in He as [_ He]; discriminate He. }
  destruct (video_id_of ie url) as [video_id|] eqn:E1.
  2: { apply Raise_pair_inv in H as [<- _]. destruct He as [He|He]; discriminate He. }
  destruct (web_page w _) as [[webpage handle_url]|] eqn:E2.
  2: { apply Raise_pair_inv in H as [<- _]. destruct He as [He|He]; discriminate He. }
  exists video_id, webpage, handle_url.
  destruct (pystr_eqb handle_url sorry_url) eqn:Hs.
  { apply Raise_pair_inv in H as [<- <-].
    split_and!; [done|done|done|]. left. split; [done|by apply pystr_eqb_true]. }
  destruct (py_in server_error_marker webpage) eqn:Hm.
  { apply Raise_pair_inv in H as [<- <-].
    split_and!; [done|done|done|]. right.
    split_and!; [done|by apply pystr_eqb_false|by apply py_in_true]. }
  exfalso. cbv zeta in H.
  destruct (FieldMap webpage !! k_user_name);
    [|apply Raise_pair_inv in H as [H _]; by apply Hkey in H].
  destruct (FieldMap webpage !! k_song_title);
    [|apply Raise_pair_inv in H as [H _]; by apply Hkey in H].
  destruct (FieldMap webpage !! k_song_artist);
    [|apply Raise_pair_inv in H as [H _]; by apply Hkey in H].
  destruct (web_xml w _);
    [|apply Raise_pair_inv in H as [<- _]; destruct He as [He|He]; discriminate He].
  destruct (manifest_text ie _) as [[|c m3u8]|];
    [apply Raise_pair_inv in H as [H _]; by apply Hman in H|
    |apply Raise_pair_inv in H as [H _]; by apply Hman in H].
  destruct (FieldMap webpage !! k_audience);
    [|apply Raise_pair_inv in H as [H _]; by apply Hkey in H].
  destruct (FieldMap webpage !! k_nice);
    [discriminate H|apply Raise_pair_inv in H as [H _]; by apply Hkey in H].
Qed.

Lemma ends_clean_rstrip s : ends_clean (rstrip s) = true.
Proof.
  induction s as [|x s IH]; [done|]. cbn [rstrip].
  destruct (rstrip s) as [|y r] eqn:E.
  - unfold ends_clean. destruct (is_space x) eqn:Hx; cbn; [done|by rewrite Hx].
  - by rewrite ends_clean_cons.
Qed.

Lemma run_ends_rstrip p s : run_ends p s = true -> run_ends p (rstrip s) = true.
Proof.
  destruct s as [|x s]; [done|]. cbn [rstrip run_ends]. intros Hx.
  destruct (rstrip s); [by destruct (is_space x)|done].
Qed.

Lemma strip_idem t : strip (strip t) = strip t.
Proof.
  pose proof (strip_spec [] (strip t) [] eq_refl eq_refl) as H.
  cbn [app] in H. rewrite app_nil_r in H. apply H.
  - unfold strip. apply run_ends_rstrip. apply run_ends_drop_while.
  - apply ends_clean_rstrip.
Qed.

Lemma rstrip_nil_inv s : rstrip s = [] -> all_space s = true.
Proof.
  induction s as [|x s IH]; [done|]. cbn [rstrip].
  destruct (rstrip s) as [|y r]; [|done].
  destruct (is_space x) eqn:Hx; [|done]. intros _.
  unfold all_space. cbn [forallb]. rewrite Hx. by apply IH.
Qed.

Lemma all_space_drop_while s :
  all_space (drop_while is_space s) = true -> all_space s = true.
Proof.
  induction s as [|x s IH]; [done|]. cbn [drop_while].
  destruct (is_space x) eqn:Hx.
  - intros H. unfold all_space. cbn [forallb]. rewrite Hx. by apply IH.
  - unfold all_space. cbn [forallb]. by rewrite Hx.
Qed.

Lemma strip_nil_inv t : strip t = [] -> all_space t = true.
Proof.
  unfold strip, lstrip. intros H%rstrip_nil_inv. by apply all_space_drop_while.
Qed.

(** X14. The error for the manifest is raised for its cause only: the page
    passed both checks, the three fields of the title were there, the document
    was fetched, and the lookup found no element, an element without text, or
    a text of nothing but whitespace. *)
Theorem manifest_error_cause ie url w log :
  run (real_extract ie url) w = (Raise ManifestNotFound, log) ->
  exists video_id webpage handle_url stream_tree,
    video_id_of ie url = Some video_id
    /\ web_page w (page_url ie ++ video_id) = Some (webpage, handle_url)
    /\ handle_url ≠ sorry_url
    /\ py_in server_error_marker webpage = false
    /\ is_Some (FieldMap webpage !! k_user_name)
    /\ is_Some (FieldMap webpage !! k_song_title)
    /\ is_Some (FieldMap webpage !! k_song_artist)
    /\ web_xml w (xml_url ie ++ video_id) = Some stream_tree
    /\ log = [GetPage (page_url ie ++ video_id);
              GetXML (xml_url ie ++ video_id)]
    /\ let found := find_descendant (xml_ns ie) (u "streamingUrl") stream_tree in
       (found = None
        \/ (exists x, found = Some x /\ e_text x = None)
        \/ (exists x t, found = Some x /\ e_text x = Some t
                        /\ all_space t = true)).
Proof.
  rewrite run_real_extract. unfold extraction. intros H.
  assert (forall m lg, (@Raise info_dict (ExtractorError m true), lg)
                       ≠ (Raise ManifestNotFound, log)) as Hno.
  { intros m lg [He _]%Raise_pair_inv. apply ExtractorError_inv in He as [_ He].
    discriminate He. }
  destruct (video_id_of ie url) as [video_id|] eqn:E1; [|discriminate H].
  destruct (web_page w _) as [[webpage handle_url]|] eqn:E2; [|discriminate H].
  destruct (pystr_eqb handle_url sorry_url) eqn:Hs; [by apply Hno in H|].
  destruct (py_in server_error_marker webpage) eqn:Hm; [by apply Hno in H|].
  cbv zeta in H.
  destruct (FieldMap webpage !! k_user_name) as [un|] eqn:E3; [|discriminate H].
  destruct (FieldMap webpage !! k_song_title) as [st|] eqn:E4; [|discriminate H].
  destruct (FieldMap webpage !! k_song_artist) as [sa|] eqn:E5; [|discriminate H].
  destruct (web_xml w _) as [stream_tree|] eqn:E6; [|discriminate H].
  assert (manifest_text ie stream_tree = None
          \/ manifest_text ie stream_tree = Some [] ->
          let found := find_descendant (xml_ns ie) (u "streamingUrl") stream_tree in
          found = None
          \/ (exists x, found = Some x /\ e_text x = None)
          \/ (exists x t, found = Some x /\ e_text x = Some t
                          /\ all_space t = true)) as Hcause.
  { unfold manifest_text. intros Hm3. cbv zeta.
    destruct (find_descendant _ _ stream_tree) as [x|]; [|by left]. right.
    cbn [mbind option_bind] in Hm3.
    destruct (e_text x) as [t|] eqn:Et; [|left; by exists x]. right.
    exists x, t. split_and!; [done|done|].
    cbn [fmap option_fmap option_map] in Hm3.
    destruct Hm3 as [Hm3|Hm3]; [discriminate Hm3|].
    apply (inj Some) in Hm3. by apply strip_nil_inv. }
  exists video_id, webpage, handle_url, stream_tree.
  destruct (manifest_text ie stream_tree) as [[|c m3u8]|] eqn:E7.
  - apply Raise_pair_inv in H as [_ <-].
    split_and!; try done; [by apply pystr_eqb_false|eauto].
  - destruct (FieldMap webpage !! k_audience); [|discriminate H].
    destruct (FieldMap webpage !! k_nice); discriminate H.
  - apply Raise_pair_inv in H as [_ <-].
    split_and!; try done; [by apply pystr_eqb_false|eauto].
Qed.

(** X15. A [KeyError] names a field that the FieldMap does not hold, and it is
    the first such field in the order the code reads them: [user_name],
    [song_title] and [song_artist] before the manifest is asked for,
    [audience] and [nice] once it is resolved. It never names [date]. *)
Theorem key_error_cause ie url w k log :
  run (real_extract ie url) w = (Raise (KeyError k), log) ->
  exists video_id webpage handle_url,
    video_id_of ie url = Some video_id
    /\ web_page w (page_url ie ++ video_id) = Some (webpage, handle_url)
    /\ FieldMap webpage !! k = None
    /\ let fm := FieldMap webpage in
       let req1 := GetPage (page_url ie ++ video_id) in
       let req2 := GetXML (xml_url ie ++ video_id) in
       (k = k_user_name /\ log = [req1])
       \/ (k = k_song_title /\ is_Some (fm !! k_user_name) /\ log = [req1])
       \/ (k = k_song_artist /\ is_Some (fm !! k_user_name)
           /\ is_Some (fm !! k_song_title) /\ log = [req1])
       \/ (k = k_audience /\ is_Some (fm !! k_user_name)
           /\ is_Some (fm !! k_song_title) /\ is_Some (fm !! k_song_artist)
           /\ log = [req1; req2])
       \/ (k = k_nice /\ is_Some (fm !! k_user_name)
           /\ is_Some (fm !! k_song_title) /\ is_Some (fm !! k_song_artist)
           /\ is_Some (fm !! k_audience) /\ log = [req1; req2]).
Proof.
  rewrite run_real_extract. unfold extraction. intros H.
  destruct (video_id_of ie url) as [video_id|] eqn:E1; [|discriminate H].
  destruct (web_page w _) as [[webpage handle_url]|] eqn:E2; [|discriminate H].
  exists video_id, webpage, handle_url.
  destruct (pystr_eqb handle_url sorry_url); [discriminate H|].
  destruct (py_in server_error_marker webpage); [discriminate H|].
  cbv zeta in H. cbv zeta.
  assert (forall k' lg, (@Raise info_dict (KeyError k'), lg)
                        = (Raise (KeyError k), log) -> k = k' /\ log = lg) as Hk.
  { intros k' lg [He <-]%Raise_pair_inv. by injection He as <-. }
  destruct (FieldMap webpage !! k_user_name) as [un|] eqn:E3.
  2: { apply Hk in H as [-> ->]. split_and!; [done|done|done|]. by left. }
  destruct (FieldMap webpage !! k_song_title) as [st|] eqn:E4.
  2: { apply Hk in H as [-> ->]. split_and!; [done|done|done|].
       right; left. eauto. }
  destruct (FieldMap webpage !! k_song_artist) as [sa|] eqn:E5.
  2: { apply Hk in H as [-> ->]. split_and!; [done|done|done|].
       right; right; left. eauto. }
  destruct (web_xml w _) as [stream_tree|]; [|discriminate H].
  destruct (manifest_text ie stream_tree) as [[|c m3u8]|];
    [discriminate H| |discriminate H].
  destruct (FieldMap webpage !! k_audience) as [au|] eqn:E8.
  2: { apply Hk in H as [-> ->]. split_and!; [done|done|done|].
       right; right; right; left. eauto 10. }
  destruct (FieldMap webpage !! k_nice) as [ni|] eqn:E9; [discriminate H|].
  apply Hk in H as [-> ->]. split_and!; [done|done|done|].
  right; right; right; right. eauto 10.
Qed.

(** ** The requests of a call *)

(** X16. A call asks for the page first and for the manifest second, each at
    most once and at the address built from the id, and for nothing else. The
    manifest is asked for only when the page came back, passed both checks and
    held the three fields of the title; a result is returned only after both
    requests. *)
Theorem requests_in_order ie url w video_id :
  video_id_of ie url = Some video_id ->
  let req1 := GetPage (page_url ie ++ video_id) in
  let req2 := GetXML (xml_url ie ++ video_id) in
  let out := run (real_extract ie url) w in
  (out.2 = [req1] \/ out.2 = [req1; req2])
  /\ (forall r, out.1 = Return r -> out.2 = [req1; req2])
  /\ (out.2 = [req1; req2] ->
      exists webpage handle_url,
        web_page w (page_url ie ++ video_id) = Some (webpage, handle_url)
        /\ handle_url ≠ sorry_url
        /\ py_in server_error_marker webpage = false
        /\ is_Some (FieldMap webpage !! k_user_name)
        /\ is_Some (FieldMap webpage !! k_song_title)
        /\ is_Some (FieldMap webpage !! k_song_artist)).
Proof.
  intros Hid. cbv zeta. rewrite run_real_extract. unfold extraction. rewrite Hid.
  assert (forall a b : request, [a] ≠ [a; b]) as Hne by (intros a b [=]).
  destruct (web_page w _) as [[webpage handle_url]|] eqn:E2.
  2: { cbn [fst snd]. split_and!; [by left|intros r [=]|by intros ?%Hne]. }
  destruct (pystr_eqb handle_url sorry_url) eqn:Hs.
  { cbn [fst snd]. split_and!; [by left|intros r [=]|by intros ?%Hne]. }
  destruct (py_in server_error_marker webpage) eqn:Hm.
  { cbn [fst snd]. split_and!; [by left|intros r [=]|by intros ?%Hne]. }
  cbv zeta.
  destruct (FieldMap webpage !! k_user_name) as [un|] eqn:E3.
  2: { cbn [fst snd]. split_and!; [by left|intros r [=]|by intros ?%Hne]. }
  destruct (FieldMap webpage !! k_song_title) as [st|] eqn:E4.
  2: { cbn [fst snd]. split_and!; [by left|intros r [=]|by intros ?%Hne]. }
  destruct (FieldMap webpage !! k_song_artist) as [sa|] eqn:E5.
  2: { cbn [fst snd]. split_and!; [by left|intros r [=]|by intros ?%Hne]. }
  assert (exists webpage0 handle_url0,
            Some (webpage, handle_url) = Some (webpage0, handle_url0)
            /\ handle_url0 ≠ sorry_url
            /\ py_in server_error_marker webpage0 = false
            /\ is_Some (FieldMap webpage0 !! k_user_name)
            /\ is_Some (FieldMap webpage0 !! k_song_title)
            /\ is_Some (FieldMap webpage0 !! k_song_artist)) as Hpassed.
  { exists webpage, handle_url. rewrite E3, E4, E5.
    split_and!; [done|by apply pystr_eqb_false|done|eauto|eauto|eauto]. }
  destruct (web_xml w _) as [stream_tree|].
  2: { cbn [fst snd]. split_and!; [by right|intros r [=]|done]. }
  destruct (manifest_text ie stream_tree) as [[|c m3u8]|].
  1, 3: cbn [fst snd]; split_and!; [by right|intros r [=]|done].
  destruct (FieldMap webpage !! k_audience) as [au|].
  2: { cbn [fst snd]. split_and!; [by right|intros r [=]|done]. }
  destruct (FieldMap webpage !! k_nice) as [ni|].
  2: { cbn [fst snd]. split_and!; [by right|intros r [=]|done]. }
  cbn [fst snd]. split_and!; [by right|done|done].
Qed.

(** ** The record a call returns *)

(** X17. The id of a result is the id read off the URL: a run of decimal
    digits that is not empty. *)
Theorem result_id ie url w r log :
  run (real_extract ie url) w = (Return r, log) ->
  video_id_of ie url = Some (info_id r)
  /\ info_id r ≠ [] /\ all_digits (info_id r) = true.
Proof.
  rewrite run_real_extract.
  intros (video_id & webpage & handle_url & un & st & sa & tree & c & m3u8 & au
          & ni & Hid & _ & _ & _ & _ & _ & _ & _ & _ & _ & _ & -> & _)
         %extraction_Return.
  cbn [assemble info_id]. split; [done|].
  apply video_id_of_shape in Hid as (_ & _ & _ & _ & _ & Hne & Hd & _). done.
Qed.

(** X18. Where the fields of a result come from: the description and the
    uploader id are the two searches of the page ([None] when a search finds
    nothing), the uploader is the [user_name] field without its polite suffix,
    and the song title and artist are the fields of these names as the
    FieldMap holds them. *)
Theorem result_fields ie url w r log :
  run (real_extract ie url) w = (Return r, log) ->
  exists video_id webpage handle_url un st sa,
    video_id_of ie url = Some video_id
    /\ web_page w (page_url ie ++ video_id) = Some (webpage, handle_url)
    /\ FieldMap webpage !! k_user_name = Some un
    /\ FieldMap webpage !! k_song_title = Some st
    /\ FieldMap webpage !! k_song_artist = Some sa
    /\ info_description r = _search_regex re_description webpage
    /\ info_uploader_id r = _search_regex re_uploader_id webpage
    /\ info_uploader r = strip_san un
    /\ info_song_title r = st
    /\ info_song_artist r = sa.
Proof.
  rewrite run_real_extract.
  intros (video_id & webpage & handle_url & un & st & sa & tree & c & m3u8 & au
          & ni & Hid & Hpage & _ & _ & Hun & Hst & Hsa & _ & _ & _ & _ & -> & _)
         %extraction_Return.
  exists video_id, webpage, handle_url, un, st, sa.
  split_and!; first [assumption | reflexivity].
Qed.

(** X19. The title of a result is made of three other fields of the same
    result: [song_title], [song_artist] and [uploader], with a hyphen between
    them. The first two are never empty. *)
Theorem result_title_parts ie url w r log :
  run (real_extract ie url) w = (Return r, log) ->
  info_title r
    = info_song_title r ++ u "-" ++ info_song_artist r ++ u "-" ++ info_uploader r
  /\ info_song_title r ≠ [] /\ info_song_artist r ≠ [].
Proof.
  rewrite run_real_extract.
  intros (video_id & webpage & handle_url & un & st & sa & tree & c & m3u8 & au
          & ni & _ & _ & _ & _ & _ & Hst & Hsa & _ & _ & _ & _ & -> & _)
         %extraction_Return.
  cbn [assemble info_title info_song_title info_song_artist info_uploader].
  split; [reflexivity|].
  apply FieldMap_lookup_Some in Hst as (_ & c1 & _ & _ & _ & Hc1 & ->).
  apply FieldMap_lookup_Some in Hsa as (_ & c2 & _ & _ & _ & Hc2 & ->).
  split; by apply collapse_whitespace_nonempty.
Qed.

(** X20. A result has exactly one format: the HLS stream at the manifest URL,
    which is the text of the looked-up element without whitespace around it
    and is never empty. *)
Theorem result_format ie url w r log :
  run (real_extract ie url) w = (Return r, log) ->
  exists m,
    info_formats r = [hls_format m] /\ m ≠ [] /\ strip m = m
    /\ exists video_id stream_tree x t,
         video_id_of ie url = Some video_id
         /\ web_xml w (xml_url ie ++ video_id) = Some stream_tree
         /\ find_descendant (xml_ns ie) (u "streamingUrl") stream_tree = Some x
         /\ e_text x = Some t /\ m = strip t.
Proof.
  rewrite run_real_extract.
  intros (video_id & webpage & handle_url & un & st & sa & tree & c & m3u8 & au
          & ni & Hid & _ & _ & _ & _ & _ & _ & Hxml & Hm & _ & _ & -> & _)
         %extraction_Return.
  exists (c :: m3u8). cbn [assemble info_formats].
  unfold manifest_text in Hm.
  destruct (find_descendant _ _ tree) as [x|] eqn:Ex; [|discriminate Hm].
  cbn [mbind option_bind] in Hm.
  destruct (e_text x) as [t|] eqn:Et; [|discriminate Hm].
  cbn [fmap option_fmap option_map] in Hm. apply (inj Some) in Hm.
  split_and!; [reflexivity|done| |].
  - rewrite <- Hm. apply strip_idem.
  - exists video_id, tree, x, t. by split_and!.
Qed.

(** *** The upload date *)

Lemma search_date_inv x t :
  _search_regex re_date x = Some t -> date_shaped t = true.
Proof.
  unfold _search_regex.
  destruct (re_search re_date x) as [M|] eqn:E; [|done].
  cbn [fmap option_fmap option_map]. intros [= <-].
  apply re_search_inv in E as (pre & s & m & -> & Hm & -> & _).
  destruct (date_shaped (take 10 s)) eqn:Hd;
    [|by rewrite match_here_date_None in Hm].
  rewrite <- (take_drop 10 s) in Hm.
  rewrite match_here_date_shaped in Hm by done.
  apply (inj Some) in Hm. subst m.
  rewrite group_mk_match. cbn [snd]. by rewrite lookup_singleton_eq.
Qed.

(** X21. The upload date of a result, when there is one, is a text of eight
    decimal digits, given that the slash is no decimal digit. *)
Theorem upload_date_digits ie url w r log t :
  is_digit slash = false ->
  run (real_extract ie url) w = (Return r, log) ->
  info_upload_date r = Some t ->
  length t = 8%nat /\ all_digits t = true.
Proof.
  intros Hslash. rewrite run_real_extract.
  intros (video_id & webpage & handle_url & un & st & sa & tree & c & m3u8 & au
          & ni & _ & _ & _ & _ & _ & _ & _ & _ & _ & _ & _ & -> & _)
         %extraction_Return.
  cbn [assemble info_upload_date]. unfold upload_date_of.
  destruct (FieldMap webpage !! k_date) as [d|]; [|done].
  cbn [mbind option_bind].
  destruct (_search_regex re_date d) as [t0|] eqn:E; [|done].
  cbn [fmap option_fmap option_map]. intros [= <-].
  apply search_date_inv in E.
  destruct t0 as [|y1 [|y2 [|y3 [|y4 [|s1 [|m1 [|m2 [|s2 [|d1 [|d2 [|? ?]]]]]]]]]]];
    try discriminate E.
  unfold date_shaped in E.
  repeat (apply andb_prop in E as [E ?]).
  assert (forall y, is_digit y = true -> negb (y =? slash) = true) as Hy.
  { intros y Hd. apply negb_true_iff.
    destruct (N.eqb_spec y slash) as [->|]; [congruence|done]. }
  repeat match goal with H : (slash =? _) = true |- _ =>
    apply N.eqb_eq in H; subst end.
  unfold replace_char_empty. cbn [List.filter].
  rewrite (Hy y1), (Hy y2), (Hy y3), (Hy y4), (Hy m1), (Hy m2), (Hy d1), (Hy d2)
    by assumption.
  rewrite N.eqb_refl. cbn [negb length].
  split; [reflexivity|].
  unfold all_digits. cbn [forallb].
  repeat match goal with H : is_digit _ = true |- _ => rewrite H; clear H end.
  reflexivity.
Qed.

(** *** The counts *)

Lemma first_digit_run v :
  no_digit v = false ->
  exists pre post,
    v = pre ++ first_digits v ++ post /\ no_digit pre = true
    /\ all_digits (first_digits v) = true /\ first_digits v ≠ []
    /\ run_ends is_digit post = true.
Proof.
  intros Hv. unfold first_digits. set (p := fun c => negb (is_digit c)).
  pose proof (take_drop_while_app p v) as Hsplit.
  pose proof (run_ends_drop_while p v) as Hhead.
  destruct (drop_while p v) as [|h t] eqn:Erest.
  - exfalso. rewrite app_nil_r in Hsplit.
    assert (no_digit v = true) as Hn; [|congruence].
    rewrite Hsplit. apply forallb_take_while.
  - cbn [run_ends] in Hhead. unfold p in Hhead. rewrite negb_involutive in Hhead.
    cbn [take_while]. rewrite Hhead.
    exists (take_while p v), (drop_while is_digit t).
    split_and!.
    + rewrite Hsplit at 1. f_equal. cbn [app]. f_equal. apply take_drop_while_app.
    + apply forallb_take_while.
    + unfold all_digits. cbn [forallb]. by rewrite Hhead, forallb_take_while.
    + done.
    + apply run_ends_drop_while.
Qed.

Lemma count_of_None v :
  count_of v = None
  <-> no_digit v = true \/ int_refuses (first_digits v) = true.
Proof.
  destruct (no_digit v) eqn:Hv.
  - split; [by left|]. intros _. by apply count_of_none.
  - destruct (first_digit_run v Hv) as (pre & post & Hsplit & ? & ? & ? & ?).
    rewrite Hsplit at 1. rewrite count_of_run by done. unfold py_int.
    destruct (int_refuses (first_digits v)).
    + split; [by right|done].
    + split; [done|]. by intros [|].
Qed.

Lemma count_of_nonneg v n : count_of v = Some n -> (0 <= n)%Z.
Proof.
  unfold count_of, int_or_none.
  destruct (_search_regex re_digits v) as [[|c s]|]; [done| |done].
  destruct (forallb is_digit (c :: s)); [|done]. unfold py_int.
  destruct (int_refuses (c :: s)); [done|].
  intros [= <-]. unfold int_of_digits. apply N2Z.is_nonneg.
Qed.

(** X24. The [view_count] of a result is absent exactly when the [audience]
    field holds no decimal digit or its first run of digits is longer than
    the interpreter lets [int] convert, and the [like_count] exactly when the
    same is true of the [nice] field; a count that is there is never
    negative. *)
Theorem counts_absent ie url w r log :
  run (real_extract ie url) w = (Return r, log) ->
  exists video_id webpage handle_url au ni,
    video_id_of ie url = Some video_id
    /\ web_page w (page_url ie ++ video_id) = Some (webpage, handle_url)
    /\ FieldMap webpage !! k_audience = Some au
    /\ FieldMap webpage !! k_nice = Some ni
    /\ (info_view_count r = None
        <-> no_digit au = true \/ int_refuses (first_digits au) = true)
    /\ (info_like_count r = None
        <-> no_digit ni = true \/ int_refuses (first_digits ni) = true)
    /\ (forall n, info_view_count r = Some n -> (0 <= n)%Z)
    /\ (forall n, info_like_count r = Some n -> (0 <= n)%Z).
Proof.
  rewrite run_real_extract.
  intros (video_id & webpage & handle_url & un & st & sa & tree & c & m3u8 & au
          & ni & Hid & Hpage & _ & _ & _ & _ & _ & _ & _ & Hau & Hni & -> & _)
         %extraction_Return.
  exists video_id, webpage, handle_url, au, ni.
  cbn [assemble info_view_count info_like_count].
  split_and!; [done|done|done|done|apply count_of_None|apply count_of_None
              |apply count_of_nonneg|apply count_of_nonneg].
Qed.

(** ** The manifest lookup *)

Lemma Element_children_ind (P : Element -> Prop) :
  (forall tag text children, Forall P children -> P (Elem tag text children)) ->
  forall e, P e.
Proof.
  intros H. fix IH 1. intros [tag text children]. apply H.
  induction children as [|c cs IHcs]; constructor; [apply IH|apply IHcs].
Qed.

Lemma path_le_antisym p q : path_le p q = true -> path_le q p = true -> p = q.
Proof.
  revert q. induction p as [|i p IH]; intros [|j q]; cbn [path_le]; try done.
  intros [H1|[H1 H1']%andb_true_iff]%orb_true_iff
         [H2|[H2 H2']%andb_true_iff]%orb_true_iff.
  - apply Nat.ltb_lt in H1, H2. lia.
  - apply Nat.ltb_lt in H1. apply Nat.eqb_eq in H2. lia.
  - apply Nat.ltb_lt in H2. apply Nat.eqb_eq in H1. lia.
  - apply Nat.eqb_eq in H1 as ->. f_equal. by apply IH.
Qed.

Lemma head_filter_app (f : Element -> bool) l1 l2 :
  head (List.filter f (l1 ++ l2))
  = match head (List.filter f l1) with
    | Some y => Some y
    | None => head (List.filter f l2)
    end.
Proof. rewrite List.filter_app. by destruct (List.filter f l1). Qed.

Lemma first_below_children f cs : Forall (first_in f) cs -> first_below f cs.
Proof.
  induction 1 as [|c cs Hc _ IH]; unfold first_below.
  { cbn [flat_map List.filter head]. intros i' c' p' y' Hi. done. }
  cbn [flat_map]. rewrite head_filter_app.
  unfold first_in in Hc. destruct (head (List.filter f (iter c))) as [y|].
  - destruct Hc as (p & Hp & Hy & Hmin). exists 0%nat, c, p.
    split_and!; [done|done|done|].
    intros [|i'] c' p' y' Hi Hp' Hy'; [|done].
    injection Hi as <-. cbn [path_le Nat.ltb Nat.leb Nat.eqb orb andb].
    by eapply Hmin.
  - unfold first_below in IH.
    destruct (head (List.filter f (flat_map iter cs))) as [y|].
    + destruct IH as (i & c0 & p & Hi & Hp & Hy & Hmin).
      exists (S i), c0, p. split_and!; [done|done|done|].
      intros [|i'] c' p' y' Hi' Hp' Hy'.
      * injection Hi' as <-. by rewrite (Hc p' y' Hp') in Hy'.
      * exact (Hmin i' c' p' y' Hi' Hp' Hy').
    + intros [|i'] c' p' y' Hi' Hp'.
      * injection Hi' as <-. by eapply Hc.
      * by eapply IH.
Qed.

Lemma first_in_iter f e : first_in f e.
Proof.
  induction e as [tag text cs IH] using Element_children_ind.
  apply first_below_children in IH. unfold first_in, first_below in *.
  cbn [iter List.filter]. destruct (f (Elem tag text cs)) eqn:Ef.
  - cbn [head]. exists []. split_and!; done.
  - destruct (head (List.filter f (flat_map iter cs))) as [y|].
    + destruct IH as (i & c & p & Hi & Hp & Hy & Hmin). exists (i :: p).
      cbn [subelement e_children]. rewrite Hi. split_and!; [done|done|].
      intros [|i' p'] y'; cbn [subelement e_children].
      * intros [= <-] Hy'. by rewrite Ef in Hy'.
      * destruct (cs !! i') as [c'|] eqn:Hi'; [|done].
        intros Hp' Hy'. by eapply Hmin.
    + intros [|i' p'] y'; cbn [subelement e_children].
      * by intros [= <-].
      * destruct (cs !! i') as [c'|] eqn:Hi'; [|done].
        intros Hp'. by eapply IH.
Qed.

(** The lookup in terms of positions: it finds the [streamingUrl] element
    below the root that no other one precedes, and finds nothing exactly
    when there is none below the root. *)
Lemma find_descendant_first ie stream_tree :
  match find_descendant (xml_ns ie) (u "streamingUrl") stream_tree with
  | Some x =>
      exists p, streaming_url_at ie stream_tree p x
                /\ forall p' y, streaming_url_at ie stream_tree p' y ->
                                path_le p p' = true
  | None => forall p y, ¬ streaming_url_at ie stream_tree p y
  end.
Proof.
  unfold find_descendant.
  set (f := fun e => pystr_eqb (e_tag e) (qname (xml_ns ie) (u "streamingUrl"))).
  assert (first_below f (e_children stream_tree)) as H.
  { apply first_below_children, Forall_forall. intros c _. apply first_in_iter. }
  unfold first_below in H.
  destruct (head (List.filter f (flat_map iter (e_children stream_tree))))
    as [x|].
  - destruct H as (i & c & p & Hi & Hp & Hx & Hmin). exists (i :: p). split.
    + split_and!; [done| |by apply pystr_eqb_true].
      cbn [subelement]. by rewrite Hi.
    + intros [|i' p'] y (Hne & Hp' & Hy); [done|].
      cbn [subelement] in Hp'.
      destruct (e_children stream_tree !! i') as [c'|] eqn:Hi'; [|done].
      eapply Hmin; [done|done|]. unfold f. rewrite Hy. apply pystr_eqb_refl.
  - intros [|i p] y (Hne & Hp & Hy); [done|].
    cbn [subelement] in Hp.
    destruct (e_children stream_tree !! i) as [c|] eqn:Hi; [|done].
    specialize (H i c p y Hi Hp). unfold f in H.
    by rewrite Hy, pystr_eqb_refl in H.
Qed.

(** X22. The manifest is the stripped text of the first [streamingUrl]
    element of the namespace below the root, first in document order: of
    the element at a position that no other such element precedes. Such a
    first element exists as soon as there is one below the root at all; a
    later one is never taken in its place, whatever the texts are, and the
    root itself is not looked at. With no such element below the root
    there is no manifest. *)
Theorem manifest_first_element ie stream_tree :
  (forall p x,
     streaming_url_at ie stream_tree p x ->
     (forall p' y, streaming_url_at ie stream_tree p' y -> path_le p p' = true) ->
     manifest_text ie stream_tree = strip <$> e_text x)
  /\ ((exists p x, streaming_url_at ie stream_tree p x) ->
      exists p x,
        streaming_url_at ie stream_tree p x
        /\ forall p' y, streaming_url_at ie stream_tree p' y ->
                        path_le p p' = true)
  /\ ((forall p y, ¬ streaming_url_at ie stream_tree p y) ->
      manifest_text ie stream_tree = None).
Proof.
  pose proof (find_descendant_first ie stream_tree) as H.
  unfold manifest_text.
  destruct (find_descendant (xml_ns ie) (u "streamingUrl") stream_tree)
    as [x0|].
  - destruct H as (p0 & Hat0 & Hmin0). split_and!.
    + intros p x Hat Hmin.
      assert (p = p0) as ->.
      { apply path_le_antisym; [exact (Hmin p0 x0 Hat0)|exact (Hmin0 p x Hat)]. }
      destruct Hat as (_ & Hp & _), Hat0 as (_ & Hp0 & _).
      rewrite Hp in Hp0. injection Hp0 as ->. reflexivity.
    + intros _. by exists p0, x0.
    + intros Hnone. by destruct (Hnone p0 x0).
  - split_and!.
    + intros p x Hat _. by destruct (H p x).
    + intros (p & x & Hat). by destruct (H p x).
    + done.
Qed.

(** ** A page without fields *)

(** X23. A page in which no [class] attribute opens (the empty page for one)
    has an empty FieldMap, and the call fails on the first field it reads,
    [user_name], after the page request alone. *)
Theorem page_without_fields ie url w video_id webpage handle_url :
  video_id_of ie url = Some video_id ->
  web_page w (page_url ie ++ video_id) = Some (webpage, handle_url) ->
  handle_url ≠ sorry_url ->
  py_in server_error_marker webpage = false ->
  py_in (u "class=" ++ dq) webpage = false ->
  FieldMap webpage = ∅
  /\ run (real_extract ie url) w
     = (Raise (KeyError k_user_name), [GetPage (page_url ie ++ video_id)]).
Proof.
  intros Hid Hpage Hurl Hmark Hclass.
  assert (re_finditer re_field webpage = []) as Hnil.
  { destruct (re_finditer re_field webpage) as [|g l] eqn:E; [done|]. exfalso.
    assert (g ∈ re_finditer re_field webpage) as Hin
      by (rewrite E; apply elem_of_cons; by left).
    apply finditer_field_shape in Hin
      as (pre & tag & ws & label & content & rest & Hw & _).
    assert (py_in (u "class=" ++ dq) webpage = true) as Hin; [|congruence].
    apply py_in_true.
    exists (pre ++ u "<" ++ tag ++ ws),
           (label ++ (dq ++ u ">") ++ content ++ closing tag ++ rest).
    rewrite Hw. unfold field_text. by rewrite <- !app_assoc. }
  assert (FieldMap webpage = ∅) as Hfm.
  { unfold FieldMap. rewrite Hnil. cbn [foldl].
    by rewrite map_filter_empty, fmap_empty. }
  split; [exact Hfm|].
  rewrite run_real_extract. unfold extraction.
  rewrite Hid, Hpage, (pystr_eqb_ne _ _ Hurl), Hmark. cbv zeta.
  rewrite Hfm, lookup_empty. reflexivity.
Qed.

End Damtomo.

(** * The matcher on concrete inputs

    The values are those CPython (3.7 and later) gives for the same calls. *)

Example re_sub_empty_matches :
  re_sub unicode_decimal (Rep true 0 CDigit) (u "-") (u "a12b") = u "-a--b-"
  /\ re_sub unicode_decimal (Rep false 0 CDigit) (u "-") (u "a12b") = u "-a-----b-"
  /\ re_sub unicode_decimal (Alt (Lit []) (Lit (u "a"))) (u "-") (u "baac")
     = u "-b-----c-".
Proof. split_and!; vm_compute; reflexivity. Qed.

Example re_finditer_backreference :
  map (fun m => (m_text m, m_groups m !! 1%nat, m_groups m !! 2%nat))
      (re_finditer unicode_decimal
         (Grp 1 (Rep true 1 CDigit) +> Opt (Grp 2 (Lit (u "x"))) +> Ref 1)
         (u "12x12 33 4x5 77x7"))
  = [(u "12x12", Some (u "12"), Some (u "x"));
     (u "33", Some (u "3"), None);
     (u "77", Some (u "7"), None)].
Proof. vm_compute. reflexivity. Qed.

Example re_field_nested :
  map (fun m => (group m 2, group m 3))
      (re_finditer unicode_decimal re_field
         (u "<div  class=" ++ dq ++ u "a" ++ dq ++ u "><p class=" ++ dq ++ u "b"
          ++ dq ++ u ">x</p>
</div><p class=" ++ dq ++ u "c d" ++ dq ++ u ">y</p>"))
  = [(u "a", u "<p class=" ++ dq ++ u "b" ++ dq ++ u ">x</p>
")].
Proof. vm_compute. reflexivity. Qed.

Example strip_san_examples :
  strip_san unicode_decimal (u "さんさん") = u "さん"
  /\ strip_san unicode_decimal (u "Ａ　さん
") = u "Ａ"
  /\ strip_san unicode_decimal (u "さん Ａ") = u "さん Ａ".
Proof. split_and!; vm_compute; reflexivity. Qed.

Example search_examples :
  _search_regex unicode_decimal re_date (u "12021/07/211") = Some (u "2021/07/21")
  /\ _search_regex unicode_decimal re_date (u "2021/7/21") = None
  /\ count_of unicode_decimal default_max_str_digits (u "全１２回 3") = Some 12%Z
  /\ video_id_of unicode_decimal VideoIE video_input = Some sample_id
  /\ video_id_of unicode_decimal RecordIE video_input = None.
Proof. split_and!; vm_compute; reflexivity. Qed.

(** * The claims on concrete inputs *)

Lemma C1_rate_limited_witness :
  run (real_extract unicode_decimal strip_only
                    default_max_str_digits RecordIE record_input) sorry_web
    = (Raise (ExtractorError msg_rate_limited true),
       [GetPage (page_url RecordIE ++ sample_id)])
  /\ RateLimited = ExtractorError msg_rate_limited true.
Proof.
  apply (C1_rate_limited unicode_decimal strip_only
                         default_max_str_digits RecordIE record_input
           sorry_web sample_id record_page); vm_compute; reflexivity.
Defined.

Lemma C2_server_error_witness :
  run (real_extract unicode_decimal strip_only
                    default_max_str_digits RecordIE record_input) error_web
    = (Raise (ExtractorError msg_server_error true),
       [GetPage (page_url RecordIE ++ sample_id)])
  /\ ServerError = ExtractorError msg_server_error true.
Proof.
  apply (C2_server_error unicode_decimal strip_only
                         default_max_str_digits RecordIE record_input
           error_web sample_id (u "<html>") (u "</html>")
           (DamtomoRecordIE_page_url ++ sample_id)).
  - vm_compute; reflexivity.
  - vm_compute; reflexivity.
  - vm_compute. intros H. discriminate H.
Defined.

Lemma C3_manifest_witness :
  run (real_extract unicode_decimal strip_only
                    default_max_str_digits RecordIE record_input) no_manifest_web
    = (Raise (ExtractorError msg_no_m3u8 false),
       [GetPage (page_url RecordIE ++ sample_id);
        GetXML (xml_url RecordIE ++ sample_id)])
  /\ run (real_extract unicode_decimal strip_only
                       default_max_str_digits RecordIE record_input)
         blank_manifest_web
     = (Raise (ExtractorError msg_no_m3u8 false),
        [GetPage (page_url RecordIE ++ sample_id);
         GetXML (xml_url RecordIE ++ sample_id)])
  /\ exists r,
       run (real_extract unicode_decimal strip_only
                         default_max_str_digits RecordIE record_input) record_web
         = (Return r, [GetPage (page_url RecordIE ++ sample_id);
                       GetXML (xml_url RecordIE ++ sample_id)])
       /\ info_formats r = [hls_format sample_m3u8].
Proof.
  split_and!.
  - edestruct (C3_manifest unicode_decimal strip_only
                           default_max_str_digits RecordIE record_input
                 no_manifest_web sample_id record_page
                 (DamtomoRecordIE_page_url ++ sample_id)
                 (u "ＮＡＮＡさん") (u "イカSUMMER [良音]") (u "ORANGE RANGE")
                 video_doc) as (Hfail & _ & _);
      [vm_compute; reflexivity|vm_compute; reflexivity
      |vm_compute; intros H; discriminate H
      |vm_compute; reflexivity|vm_compute; reflexivity|vm_compute; reflexivity
      |vm_compute; reflexivity|vm_compute; reflexivity|].
    apply Hfail. left. vm_compute. reflexivity.
  - edestruct (C3_manifest unicode_decimal strip_only
                           default_max_str_digits RecordIE record_input
                 blank_manifest_web sample_id record_page
                 (DamtomoRecordIE_page_url ++ sample_id)
                 (u "ＮＡＮＡさん") (u "イカSUMMER [良音]") (u "ORANGE RANGE")
                 blank_doc) as (Hfail & _ & _);
      [vm_compute; reflexivity|vm_compute; reflexivity
      |vm_compute; intros H; discriminate H
      |vm_compute; reflexivity|vm_compute; reflexivity|vm_compute; reflexivity
      |vm_compute; reflexivity|vm_compute; reflexivity|].
    apply Hfail. right. right.
    exists (Elem (qname DamtomoRecordIE_ns (u "streamingUrl")) (Some (u "   ")) []),
           (u "   ").
    split_and!; vm_compute; reflexivity.
  - edestruct (C3_manifest unicode_decimal strip_only
                           default_max_str_digits RecordIE record_input
                 record_web sample_id record_page
                 (DamtomoRecordIE_page_url ++ sample_id)
                 (u "ＮＡＮＡさん") (u "イカSUMMER [良音]") (u "ORANGE RANGE")
                 record_doc) as (_ & Hok & _);
      [vm_compute; reflexivity|vm_compute; reflexivity
      |vm_compute; intros H; discriminate H
      |vm_compute; reflexivity|vm_compute; reflexivity|vm_compute; reflexivity
      |vm_compute; reflexivity|vm_compute; reflexivity|].
    edestruct (Hok (Elem (qname DamtomoRecordIE_ns (u "streamingUrl"))
                         (Some (u "
   https://example.invalid/27376862.m3u8
 ")) [])
                   (u "
   ") sample_m3u8 (u "
 ")) as (_ & Hret);
      [vm_compute; reflexivity|vm_compute; reflexivity|vm_compute; reflexivity
      |vm_compute; reflexivity|vm_compute; intros H; discriminate H
      |vm_compute; reflexivity|vm_compute; reflexivity|].
    apply (Hret (u "4 回視聴") (u "1")); vm_compute; reflexivity.
Defined.

Lemma C4_field_map_witness :
  FieldMap unicode_decimal strip_only record_page !! k_song_title
    = Some (u "イカSUMMER [良音]")
  /\ FieldMap unicode_decimal strip_only
       (field "p" "memo" "first" ++ field "p" "memo" "  ") !! u "memo" = None
  /\ re_sub unicode_decimal re_spaces (u " ") (u "イカSUMMER
      [良音]") = u "イカSUMMER [良音]".
Proof.
  split_and!.
  - destruct (C4_field_map unicode_decimal strip_only record_page)
      as (_ & _ & _ & Hlookup & _).
    rewrite Hlookup. vm_compute. reflexivity.
  - destruct (C4_field_map unicode_decimal strip_only
                (field "p" "memo" "first" ++ field "p" "memo" "  "))
      as (_ & _ & _ & Hlookup & _).
    rewrite Hlookup. vm_compute. reflexivity.
  - destruct (C4_field_map unicode_decimal strip_only [])
      as (_ & _ & _ & _ & Hsub).
    rewrite Hsub. vm_compute. reflexivity.
Defined.

Lemma C5_strip_san_witness :
  strip_san unicode_decimal (u "箱の「中の人」 さん") = u "箱の「中の人」"
  /\ strip_san unicode_decimal (u "さんま") = u "さんま"
  /\ FieldMap unicode_decimal strip_only record_page !! k_user_name
     = Some (u "ＮＡＮＡさん")
  /\ ends_clean (u "ＮＡＮＡさん") = true.
Proof.
  destruct (C5_strip_san unicode_decimal strip_only) as (Hcut & Hkeep & Hclean & _).
  split_and!.
  - apply (Hcut (u "箱の「中の人」") (u " ")); vm_compute; reflexivity.
  - apply Hkeep; vm_compute; reflexivity.
  - vm_compute. reflexivity.
  - apply (Hclean (fun html => ends_clean_rstrip (lstrip html)) record_page).
    vm_compute. reflexivity.
Defined.

Lemma C6_title_witness :
  exists r log,
    run (real_extract unicode_decimal strip_only
                      default_max_str_digits RecordIE record_input) record_web
      = (Return r, log)
    /\ info_title r = u "イカSUMMER [良音]-ORANGE RANGE-ＮＡＮＡ"
    /\ exists video_id webpage handle_url st sa un,
         video_id_of unicode_decimal RecordIE record_input = Some video_id
         /\ web_page record_web (page_url RecordIE ++ video_id)
              = Some (webpage, handle_url)
         /\ FieldMap unicode_decimal strip_only webpage !! k_song_title = Some st
         /\ FieldMap unicode_decimal strip_only webpage !! k_song_artist = Some sa
         /\ FieldMap unicode_decimal strip_only webpage !! k_user_name = Some un
         /\ info_title r = st ++ u "-" ++ sa ++ u "-" ++ strip_san unicode_decimal un.
Proof.
  eexists _, _. split_and!.
  - vm_compute. reflexivity.
  - vm_compute. reflexivity.
  - eapply (C6_title unicode_decimal strip_only
                     default_max_str_digits RecordIE record_input record_web).
    vm_compute. reflexivity.
Defined.

Lemma C7_upload_date_witness :
  FieldMap unicode_decimal strip_only record_page !! k_date
    = Some (u "2021/07/21 12:00")
  /\ exists r log,
       run (real_extract unicode_decimal strip_only
                         default_max_str_digits RecordIE record_input) record_web
         = (Return r, log)
       /\ info_upload_date r = Some (u "20210721").
Proof.
  split; [vm_compute; reflexivity|].
  eexists _, _. split; [vm_compute; reflexivity|].
  edestruct (C7_upload_date unicode_decimal strip_only
                            default_max_str_digits RecordIE record_input
               record_web sample_id record_page
               (DamtomoRecordIE_page_url ++ sample_id) (u "2021/07/21 12:00"))
    as (Hdate & _);
    [vm_compute; reflexivity|vm_compute; reflexivity|vm_compute; reflexivity|].
  edestruct Hdate as (Hfound & _); [vm_compute; reflexivity|].
  rewrite (Hfound [] (u "2021/07/21") (u " 12:00")).
  - vm_compute. reflexivity.
  - vm_compute. reflexivity.
  - vm_compute. reflexivity.
  - intros pre' t' post' _ _. simpl. lia.
Defined.

(** With 4301 digits in the [audience] field and the limit of CPython 3.11,
    the field does contain a run of decimal digits, and the [view_count] of
    the result is absent all the same. *)
Lemma C8_counterexample :
  all_digits unicode_decimal long_run = true
  /\ length long_run = 4301%nat
  /\ FieldMap unicode_decimal strip_only long_count_page !! k_audience
     = Some long_run
  /\ exists r log,
       run (real_extract unicode_decimal strip_only default_max_str_digits
              RecordIE record_input) long_count_web
         = (Return r, log)
       /\ info_view_count r = None
       /\ info_view_count r ≠ Some (int_of_digits unicode_decimal long_run).
Proof.
  split_and!; [vm_compute; reflexivity|vm_compute; reflexivity
              |vm_compute; reflexivity|].
  eexists _, _. split_and!; [vm_compute; reflexivity|reflexivity|].
  intros H. discriminate H.
Qed.

Lemma C8_counts_witness :
  FieldMap unicode_decimal strip_only record_page !! k_audience = Some (u "4 回視聴")
  /\ (exists r log,
        run (real_extract unicode_decimal strip_only default_max_str_digits
               RecordIE record_input) record_web
          = (Return r, log)
        /\ info_view_count r = Some 4%Z /\ info_like_count r = Some 1%Z)
  /\ (exists r log,
        run (real_extract unicode_decimal strip_only default_max_str_digits
               VideoIE video_input) video_web
          = (Return r, log)
        /\ info_view_count r = Some 4%Z /\ info_like_count r = Some 1%Z)
  /\ count_of unicode_decimal default_max_str_digits (u "再生無し") = None
  /\ count_of unicode_decimal default_max_str_digits (u "全１２回 3") = Some 12%Z.
Proof.
  split; [vm_compute; reflexivity|].
  split_and!.
  - edestruct (C8_counts unicode_decimal strip_only default_max_str_digits
                 RecordIE record_input record_web sample_id record_page
                 (DamtomoRecordIE_page_url ++ sample_id) (u "4 回視聴") (u "1"))
      as (Hcount & Hret);
      [vm_compute; reflexivity|vm_compute; reflexivity|vm_compute; reflexivity
      |vm_compute; reflexivity|].
    edestruct (Hret (u "ＮＡＮＡさん") (u "イカSUMMER [良音]") (u "ORANGE RANGE")
                    record_doc) as (r & log & Hrun);
      [vm_compute; intros H; discriminate H|vm_compute; reflexivity
      |vm_compute; reflexivity|vm_compute; reflexivity|vm_compute; reflexivity
      |vm_compute; reflexivity|vm_compute; reflexivity|].
    exists r, log. destruct (Hcount r log Hrun) as (Hview & _ & Hlike & _).
    split_and!; [exact Hrun| |].
    + rewrite (Hview [] (u "4") (u " 回視聴")); try (vm_compute; reflexivity).
      vm_compute. intros H. discriminate H.
    + rewrite (Hlike [] (u "1") []); try (vm_compute; reflexivity).
      vm_compute. intros H. discriminate H.
  - edestruct (C8_counts unicode_decimal strip_only default_max_str_digits
                 VideoIE video_input video_web sample_id record_page
                 (DamtomoVideoIE_page_url ++ sample_id) (u "4 回視聴") (u "1"))
      as (Hcount & Hret);
      [vm_compute; reflexivity|vm_compute; reflexivity|vm_compute; reflexivity
      |vm_compute; reflexivity|].
    edestruct (Hret (u "ＮＡＮＡさん") (u "イカSUMMER [良音]") (u "ORANGE RANGE")
                    video_doc) as (r & log & Hrun);
      [vm_compute; intros H; discriminate H|vm_compute; reflexivity
      |vm_compute; reflexivity|vm_compute; reflexivity|vm_compute; reflexivity
      |vm_compute; reflexivity|vm_compute; reflexivity|].
    exists r, log. destruct (Hcount r log Hrun) as (Hview & _ & Hlike & _).
    split_and!; [exact Hrun| |].
    + rewrite (Hview [] (u "4") (u " 回視聴")); try (vm_compute; reflexivity).
      vm_compute. intros H. discriminate H.
    + rewrite (Hlike [] (u "1") []); try (vm_compute; reflexivity).
      vm_compute. intros H. discriminate H.
  - vm_compute. reflexivity.
  - vm_compute. reflexivity.
Defined.

(** A page without a [date] field: the call succeeds all the same. *)
Lemma C9_counterexample :
  FieldMap unicode_decimal strip_only nodate_page !! k_date = None
  /\ exists r,
       run (real_extract unicode_decimal strip_only
                         default_max_str_digits RecordIE record_input) nodate_web
         = (Return r, [GetPage (page_url RecordIE ++ sample_id);
                       GetXML (xml_url RecordIE ++ sample_id)])
       /\ info_upload_date r = None.
Proof.
  split; [vm_compute; reflexivity|].
  eexists. split; vm_compute; reflexivity.
Qed.

Lemma C9_required_keys_witness :
  (exists k,
     run (real_extract unicode_decimal strip_only
                       default_max_str_digits RecordIE record_input)
         (record_serve (page_around (field "p" "user_name" "ＮＡＮＡさん"))
                       (DamtomoRecordIE_page_url ++ sample_id) record_doc)
       = (Raise (MissingField k), [GetPage (page_url RecordIE ++ sample_id)])
     /\ FieldMap unicode_decimal strip_only
          (page_around (field "p" "user_name" "ＮＡＮＡさん")) !! k = None)
  /\ exists r,
       run (real_extract unicode_decimal strip_only
                         default_max_str_digits RecordIE record_input) nodate_web
         = (Return r, [GetPage (page_url RecordIE ++ sample_id);
                       GetXML (xml_url RecordIE ++ sample_id)])
       /\ (FieldMap unicode_decimal strip_only nodate_page !! k_date = None ->
           info_upload_date r = None).
Proof.
  split.
  - edestruct (C9_required_keys unicode_decimal strip_only
                                default_max_str_digits RecordIE record_input
                 (record_serve (page_around (field "p" "user_name" "ＮＡＮＡさん"))
                               (DamtomoRecordIE_page_url ++ sample_id) record_doc)
                 sample_id (page_around (field "p" "user_name" "ＮＡＮＡさん"))
                 (DamtomoRecordIE_page_url ++ sample_id))
      as (_ & Hmiss & _);
      [vm_compute; reflexivity|vm_compute; reflexivity
      |vm_compute; intros H; discriminate H|vm_compute; reflexivity|].
    apply Hmiss. right. left. vm_compute. reflexivity.
  - edestruct (C9_required_keys unicode_decimal strip_only
                                default_max_str_digits RecordIE record_input
                 nodate_web sample_id nodate_page
                 (DamtomoRecordIE_page_url ++ sample_id))
      as (_ & _ & Hxml);
      [vm_compute; reflexivity|vm_compute; reflexivity
      |vm_compute; intros H; discriminate H|vm_compute; reflexivity|].
    edestruct (Hxml record_doc) as (_ & Hok);
      [vm_compute; eexists; reflexivity|vm_compute; eexists; reflexivity
      |vm_compute; eexists; reflexivity|vm_compute; reflexivity
      |vm_compute; reflexivity|].
    apply Hok; vm_compute; eexists; reflexivity.
Defined.

Lemma C10_same_logic_witness :
  (run (DamtomoVideoIE_real_extract unicode_decimal strip_only
                                    default_max_str_digits video_input) video_web).1
    = (run (DamtomoRecordIE_real_extract unicode_decimal strip_only
                                         default_max_str_digits record_input)
           record_web).1
  /\ exists n,
       (run (DamtomoVideoIE_real_extract unicode_decimal strip_only
                                         default_max_str_digits video_input)
            video_web).2
         = take n [GetPage (DamtomoVideoIE_page_url ++ sample_id);
                   GetXML (DamtomoVideoIE_xml_url ++ sample_id)]
       /\ (run (DamtomoRecordIE_real_extract unicode_decimal strip_only
                                             default_max_str_digits record_input)
               record_web).2
            = take n [GetPage (DamtomoRecordIE_page_url ++ sample_id);
                      GetXML (DamtomoRecordIE_xml_url ++ sample_id)].
Proof.
  apply (C10_same_logic unicode_decimal strip_only
                        default_max_str_digits video_input record_input
           video_web record_web sample_id record_page
           (DamtomoVideoIE_page_url ++ sample_id)
           (DamtomoRecordIE_page_url ++ sample_id) video_doc record_doc);
    vm_compute; reflexivity.
Defined.

(** * The further properties on concrete inputs *)

Lemma valid_url_shape_witness :
  video_id_of unicode_decimal VideoIE
    (u "https://www.clubdam.com/app/damtomo/karaokeMovie/StreamingDkm.do?karaokeMovieId=2414316")
    = Some (u "2414316")
  /\ video_id_of unicode_decimal RecordIE
       (u "http://clubdam.com/app/damtomo/SP/karaokePost/StreamingKrk.do?karaokeContributeId=27489418&from=top")
     = Some (u "27489418")
  /\ video_id_of unicode_decimal VideoIE
       (u "https://www.clubdam.com/app/damtomo/karaokeMovie/StreamingDkm.do?karaokeMovieId=２４１")
     = Some (u "２４１")
  /\ exists tls www sp rest,
       record_input = clubdam_url RecordIE tls www sp sample_id rest.
Proof.
  split_and!.
  - apply (proj2 (valid_url_shape unicode_decimal VideoIE _ _)).
    exists true, true, false, [].
    split_and!; vm_compute;
      [reflexivity|intros H; discriminate H|reflexivity|reflexivity].
  - apply (proj2 (valid_url_shape unicode_decimal RecordIE _ _)).
    exists false, false, true, (u "&from=top").
    split_and!; vm_compute;
      [reflexivity|intros H; discriminate H|reflexivity|reflexivity].
  - apply (proj2 (valid_url_shape unicode_decimal VideoIE _ _)).
    exists true, true, false, [].
    split_and!; vm_compute;
      [reflexivity|intros H; discriminate H|reflexivity|reflexivity].
  - destruct (proj1 (valid_url_shape unicode_decimal RecordIE record_input sample_id))
      as (tls & www & sp & rest & H & _); [vm_compute; reflexivity|].
    exists tls, www, sp, rest. exact H.
Defined.

Lemma url_variants_witness :
  clubdam_url VideoIE false false true sample_id (u "&from=top")
    = u "http://clubdam.com/app/damtomo/SP/karaokeMovie/StreamingDkm.do?karaokeMovieId=27376862&from=top"
  /\ video_id_of unicode_decimal VideoIE (page_url VideoIE ++ sample_id)
     = Some sample_id
  /\ run (real_extract unicode_decimal strip_only default_max_str_digits VideoIE
            (clubdam_url VideoIE false false true sample_id (u "&from=top")))
         video_web
     = run (real_extract unicode_decimal strip_only default_max_str_digits VideoIE
              (page_url VideoIE ++ sample_id)) video_web.
Proof.
  split; [vm_compute; reflexivity|].
  apply (url_variants unicode_decimal strip_only
                      default_max_str_digits VideoIE false false true
           sample_id (u "&from=top") video_web);
    vm_compute; [intros H; discriminate H|reflexivity|reflexivity].
Defined.

Lemma description_trimmed_witness :
  _search_regex unicode_decimal re_description comment_page = Some comment_text
  /\ strip comment_text = comment_text /\ lacks lt_sign comment_text = true.
Proof.
  split; [vm_compute; reflexivity|].
  apply (description_trimmed unicode_decimal comment_page comment_text).
  vm_compute. reflexivity.
Defined.

Lemma description_found_witness :
  _search_regex unicode_decimal re_description comment_page = Some comment_text.
Proof.
  apply (description_found unicode_decimal comment_page (u "<html>")
           (10 :: repeat 32 6%nat) (10 :: repeat 32 8%nat) comment_text
           (10 :: repeat 32 6%nat)
           (u "</div>" ++ profile_link (u "NjI1MjI2MjU") ++ box_fields
            ++ u "</html>"));
    vm_compute; reflexivity.
Defined.

Lemma description_none_witness :
  _search_regex unicode_decimal re_description box_fields = None
  /\ _search_regex unicode_decimal re_description markup_page = None.
Proof.
  split.
  - apply (proj1 (description_none unicode_decimal box_fields)).
    vm_compute. reflexivity.
  - apply (proj2 (description_none unicode_decimal markup_page) (u "<html>")
             (10 :: repeat 32 6%nat) (u " line one")
             (u "br>line two </p></div>" ++ profile_link [] ++ box_fields
              ++ u "</html>"));
      vm_compute; reflexivity.
Defined.

Lemma uploader_id_shape_witness :
  _search_regex unicode_decimal re_uploader_id comment_page = Some (u "NjI1MjI2MjU")
  /\ u "NjI1MjI2MjU" ≠ [] /\ lacks quote_sign (u "NjI1MjI2MjU") = true
  /\ exists pre post,
       comment_page = pre ++ profile_open ++ u "NjI1MjI2MjU" ++ dq ++ post.
Proof.
  split; [vm_compute; reflexivity|].
  apply (uploader_id_shape unicode_decimal comment_page (u "NjI1MjI2MjU")).
  vm_compute. reflexivity.
Defined.

Lemma uploader_id_found_witness :
  _search_regex unicode_decimal re_uploader_id comment_page = Some (u "NjI1MjI2MjU").
Proof.
  apply (uploader_id_found unicode_decimal comment_page
           (u "<html>" ++ comment_block (10 :: repeat 32 8%nat ++ comment_text
                                          ++ 10 :: repeat 32 6%nat))
           (u "NjI1MjI2MjU") (u ">profile</a>" ++ box_fields ++ u "</html>"));
    vm_compute; [reflexivity|reflexivity|intros H; discriminate H|reflexivity].
Defined.

Lemma uploader_id_none_witness :
  _search_regex unicode_decimal re_uploader_id box_fields = None
  /\ _search_regex unicode_decimal re_uploader_id markup_page = None.
Proof.
  split.
  - apply (proj1 (uploader_id_none unicode_decimal box_fields)).
    vm_compute. reflexivity.
  - apply (proj2 (uploader_id_none unicode_decimal markup_page)
             (u "<html>" ++ comment_block (u " line one<br>line two "))
             (u ">profile</a>" ++ box_fields ++ u "</html>"));
      vm_compute; reflexivity.
Defined.

Lemma FieldMap_values_witness :
  FieldMap unicode_decimal strip_only record_page !! k_song_title
    = Some (u "イカSUMMER [良音]")
  /\ u "イカSUMMER [良音]" ≠ []
  /\ (forall c, c ∈ u "イカSUMMER [良音]" -> is_space c = true -> c = space)
  /\ py_in (u "  ") (u "イカSUMMER [良音]") = false.
Proof.
  split; [vm_compute; reflexivity|].
  apply (FieldMap_values unicode_decimal strip_only record_page k_song_title).
  vm_compute. reflexivity.
Defined.

Lemma FieldMap_keys_witness :
  is_Some (FieldMap unicode_decimal strip_only record_page !! k_date)
  /\ k_date ≠ [] /\ lacks quote_sign k_date = true /\ lacks space k_date = true
  /\ exists pre tag ws content rest,
       record_page = pre ++ field_text tag ws k_date content ++ rest.
Proof.
  assert (is_Some (FieldMap unicode_decimal strip_only record_page !! k_date))
    as H by (vm_compute; eexists; reflexivity).
  split; [exact H|].
  exact (FieldMap_keys unicode_decimal strip_only record_page k_date H).
Defined.

Lemma expected_error_cause_witness :
  run (real_extract unicode_decimal strip_only
                    default_max_str_digits RecordIE record_input) error_web
    = (Raise ServerError, [GetPage (page_url RecordIE ++ sample_id)])
  /\ exists video_id webpage handle_url,
       video_id_of unicode_decimal RecordIE record_input = Some video_id
       /\ web_page error_web (page_url RecordIE ++ video_id)
          = Some (webpage, handle_url)
       /\ handle_url ≠ sorry_url
       /\ exists pre post, webpage = pre ++ server_error_marker ++ post.
Proof.
  assert (run (real_extract unicode_decimal strip_only
                            default_max_str_digits RecordIE record_input)
              error_web
          = (Raise ServerError, [GetPage (page_url RecordIE ++ sample_id)]))
    as Hrun by (vm_compute; reflexivity).
  split; [exact Hrun|].
  destruct (expected_error_cause unicode_decimal strip_only
                                 default_max_str_digits RecordIE record_input
              error_web ServerError _ Hrun (or_intror eq_refl))
    as (video_id & webpage & handle_url & Hid & Hpage & _ & Hcause).
  exists video_id, webpage, handle_url.
  destruct Hcause as [[He _]|(_ & Hne & Hin)]; [|by split_and!].
  vm_compute in He. discriminate He.
Defined.

Lemma manifest_error_cause_witness :
  run (real_extract unicode_decimal strip_only
                    default_max_str_digits RecordIE record_input)
      blank_manifest_web
    = (Raise ManifestNotFound,
       [GetPage (page_url RecordIE ++ sample_id);
        GetXML (xml_url RecordIE ++ sample_id)])
  /\ exists video_id webpage handle_url stream_tree,
       video_id_of unicode_decimal RecordIE record_input = Some video_id
       /\ web_page blank_manifest_web (page_url RecordIE ++ video_id)
          = Some (webpage, handle_url)
       /\ is_Some (FieldMap unicode_decimal strip_only webpage !! k_user_name)
       /\ web_xml blank_manifest_web (xml_url RecordIE ++ video_id)
          = Some stream_tree.
Proof.
  assert (run (real_extract unicode_decimal strip_only
                            default_max_str_digits RecordIE record_input)
              blank_manifest_web
          = (Raise ManifestNotFound,
             [GetPage (page_url RecordIE ++ sample_id);
              GetXML (xml_url RecordIE ++ sample_id)])) as Hrun
    by (vm_compute; reflexivity).
  split; [exact Hrun|].
  destruct (manifest_error_cause unicode_decimal strip_only
                                 default_max_str_digits RecordIE record_input
              blank_manifest_web _ Hrun)
    as (video_id & webpage & handle_url & stream_tree & Hid & Hpage & _ & _ & Hun
        & _ & _ & Hxml & _).
  exists video_id, webpage, handle_url, stream_tree. by split_and!.
Defined.

Lemma key_error_cause_witness :
  run (real_extract unicode_decimal strip_only
                    default_max_str_digits RecordIE record_input) no_nice_web
    = (Raise (KeyError k_nice),
       [GetPage (page_url RecordIE ++ sample_id);
        GetXML (xml_url RecordIE ++ sample_id)])
  /\ exists video_id webpage handle_url,
       video_id_of unicode_decimal RecordIE record_input = Some video_id
       /\ web_page no_nice_web (page_url RecordIE ++ video_id)
          = Some (webpage, handle_url)
       /\ FieldMap unicode_decimal strip_only webpage !! k_nice = None.
Proof.
  assert (run (real_extract unicode_decimal strip_only
                            default_max_str_digits RecordIE record_input)
              no_nice_web
          = (Raise (KeyError k_nice),
             [GetPage (page_url RecordIE ++ sample_id);
              GetXML (xml_url RecordIE ++ sample_id)])) as Hrun
    by (vm_compute; reflexivity).
  split; [exact Hrun|].
  destruct (key_error_cause unicode_decimal strip_only
                            default_max_str_digits RecordIE record_input
              no_nice_web k_nice _ Hrun)
    as (video_id & webpage & handle_url & Hid & Hpage & Hnone & _).
  exists video_id, webpage, handle_url. by split_and!.
Defined.

Lemma requests_in_order_witness :
  (run (real_extract unicode_decimal strip_only
                     default_max_str_digits RecordIE record_input) record_web).2
    = [GetPage (page_url RecordIE ++ sample_id);
       GetXML (xml_url RecordIE ++ sample_id)]
  /\ exists webpage handle_url,
       web_page record_web (page_url RecordIE ++ sample_id)
         = Some (webpage, handle_url)
       /\ handle_url ≠ sorry_url
       /\ py_in server_error_marker webpage = false
       /\ is_Some (FieldMap unicode_decimal strip_only webpage !! k_user_name)
       /\ is_Some (FieldMap unicode_decimal strip_only webpage !! k_song_title)
       /\ is_Some (FieldMap unicode_decimal strip_only webpage !! k_song_artist).
Proof.
  assert ((run (real_extract unicode_decimal strip_only
                             default_max_str_digits RecordIE record_input)
               record_web).2
          = [GetPage (page_url RecordIE ++ sample_id);
             GetXML (xml_url RecordIE ++ sample_id)]) as Hlog
    by (vm_compute; reflexivity).
  split; [exact Hlog|].
  destruct (requests_in_order unicode_decimal strip_only
                              default_max_str_digits RecordIE record_input
              record_web sample_id) as (_ & _ & Hboth);
    [vm_compute; reflexivity|].
  exact (Hboth Hlog).
Defined.

Lemma result_id_witness :
  exists r log,
    run (real_extract unicode_decimal strip_only
                      default_max_str_digits RecordIE record_input) record_web
      = (Return r, log)
    /\ video_id_of unicode_decimal RecordIE record_input = Some (info_id r)
    /\ info_id r ≠ [] /\ all_digits unicode_decimal (info_id r) = true.
Proof.
  eexists _, _. split; [vm_compute; reflexivity|].
  eapply (result_id unicode_decimal strip_only
                    default_max_str_digits RecordIE record_input record_web).
  vm_compute. reflexivity.
Defined.

Lemma result_title_parts_witness :
  exists r log,
    run (real_extract unicode_decimal strip_only
                      default_max_str_digits RecordIE record_input) comment_web
      = (Return r, log)
    /\ info_title r = u "心みだれて〜say it with flowers〜(生音)-小林明子-箱の「中の人」"
    /\ info_title r
       = info_song_title r ++ u "-" ++ info_song_artist r ++ u "-" ++ info_uploader r
    /\ info_song_title r ≠ [] /\ info_song_artist r ≠ [].
Proof.
  eexists _, _. split; [vm_compute; reflexivity|].
  split; [vm_compute; reflexivity|].
  eapply (result_title_parts unicode_decimal strip_only
                             default_max_str_digits RecordIE record_input
            comment_web).
  vm_compute. reflexivity.
Defined.

Lemma result_format_witness :
  exists r log,
    run (real_extract unicode_decimal strip_only
                      default_max_str_digits RecordIE record_input) record_web
      = (Return r, log)
    /\ exists m, info_formats r = [hls_format m] /\ m ≠ [] /\ strip m = m
                 /\ m = sample_m3u8.
Proof.
  eexists _, _. split; [vm_compute; reflexivity|].
  edestruct (result_format unicode_decimal strip_only
                           default_max_str_digits RecordIE record_input
               record_web) as (m & Hf & Hne & Hs & _);
    [vm_compute; reflexivity|].
  exists m. split_and!; [exact Hf|exact Hne|exact Hs|].
  vm_compute in Hf. injection Hf as <-. vm_compute. reflexivity.
Defined.

Lemma upload_date_digits_witness :
  exists r log,
    run (real_extract unicode_decimal strip_only
                      default_max_str_digits RecordIE record_input) record_web
      = (Return r, log)
    /\ info_upload_date r = Some (u "20210721")
    /\ length (u "20210721") = 8%nat
    /\ all_digits unicode_decimal (u "20210721") = true.
Proof.
  eexists _, _. split; [vm_compute; reflexivity|].
  split; [vm_compute; reflexivity|].
  eapply (upload_date_digits unicode_decimal strip_only
                             default_max_str_digits RecordIE record_input
            record_web); vm_compute; reflexivity.
Defined.

Lemma manifest_first_element_witness :
  streaming_url_at RecordIE two_url_doc [0; 0]%nat
    (Elem (qname DamtomoRecordIE_ns (u "streamingUrl")) (Some (u " ")) [])
  /\ manifest_text RecordIE two_url_doc = Some []
  /\ manifest_text RecordIE root_only_doc = None.
Proof.
  assert (streaming_url_at RecordIE two_url_doc [0; 0]%nat
            (Elem (qname DamtomoRecordIE_ns (u "streamingUrl")) (Some (u " ")) []))
    as Hat.
  { split_and!; [discriminate|vm_compute; reflexivity|vm_compute; reflexivity]. }
  split_and!.
  - exact Hat.
  - rewrite (proj1 (manifest_first_element RecordIE two_url_doc) _ _ Hat).
    + vm_compute. reflexivity.
    + intros p' y (Hne & Hp & Hy). destruct p' as [|[|[|i]] q].
      * by destruct Hne.
      * destruct q as [|[|j] q].
        -- vm_compute in Hp. injection Hp as <-. vm_compute in Hy.
           discriminate Hy.
        -- reflexivity.
        -- vm_compute in Hp. discriminate Hp.
      * reflexivity.
      * vm_compute in Hp. discriminate Hp.
  - apply (proj2 (proj2 (manifest_first_element RecordIE root_only_doc))).
    intros p y (Hne & Hp & _). destruct p as [|i q]; [by destruct Hne|].
    vm_compute in Hp. discriminate Hp.
Defined.

Lemma page_without_fields_witness :
  FieldMap unicode_decimal strip_only [] = ∅
  /\ run (real_extract unicode_decimal strip_only
                       default_max_str_digits RecordIE record_input) empty_web
     = (Raise (KeyError k_user_name), [GetPage (page_url RecordIE ++ sample_id)]).
Proof.
  apply (page_without_fields unicode_decimal strip_only
                             default_max_str_digits RecordIE record_input
           empty_web sample_id [] (DamtomoRecordIE_page_url ++ sample_id));
    vm_compute; [reflexivity|reflexivity|intros H; discriminate H
                |reflexivity|reflexivity].
Defined.

Lemma result_fields_witness :
  exists r log,
    run (real_extract unicode_decimal strip_only
                      default_max_str_digits RecordIE record_input) comment_web
      = (Return r, log)
    /\ info_description r = Some comment_text
    /\ info_uploader_id r = Some (u "NjI1MjI2MjU")
    /\ info_uploader r = u "箱の「中の人」"
    /\ exists video_id webpage handle_url un st sa,
         video_id_of unicode_decimal RecordIE record_input = Some video_id
         /\ web_page comment_web (page_url RecordIE ++ video_id)
            = Some (webpage, handle_url)
         /\ FieldMap unicode_decimal strip_only webpage !! k_user_name = Some un
         /\ FieldMap unicode_decimal strip_only webpage !! k_song_title = Some st
         /\ FieldMap unicode_decimal strip_only webpage !! k_song_artist = Some sa
         /\ info_description r
            = _search_regex unicode_decimal re_description webpage
         /\ info_uploader_id r
            = _search_regex unicode_decimal re_uploader_id webpage
         /\ info_uploader r = strip_san unicode_decimal un
         /\ info_song_title r = st
         /\ info_song_artist r = sa.
Proof.
  eexists _, _. split; [vm_compute; reflexivity|].
  split_and!; [vm_compute; reflexivity|vm_compute; reflexivity
              |vm_compute; reflexivity|].
  eapply (result_fields unicode_decimal strip_only
                        default_max_str_digits RecordIE record_input
            comment_web).
  vm_compute. reflexivity.
Defined.

Lemma counts_absent_witness :
  (exists r log,
     run (real_extract unicode_decimal strip_only default_max_str_digits
            RecordIE record_input)
         (record_serve
            (page_around (five_fields ++ field "p" "audience" "再生無し"))
            (DamtomoRecordIE_page_url ++ sample_id) record_doc)
       = (Return r, log)
     /\ info_view_count r = None /\ info_like_count r = Some 1%Z
     /\ exists au ni,
          (info_view_count r = None
           <-> no_digit unicode_decimal au = true
               \/ int_refuses default_max_str_digits
                    (first_digits unicode_decimal au) = true)
          /\ (info_like_count r = None
              <-> no_digit unicode_decimal ni = true
                  \/ int_refuses default_max_str_digits
                       (first_digits unicode_decimal ni) = true))
  /\ no_digit unicode_decimal long_run = false
  /\ int_refuses default_max_str_digits (first_digits unicode_decimal long_run)
     = true
  /\ exists r log,
       run (real_extract unicode_decimal strip_only default_max_str_digits
              RecordIE record_input) long_count_web
         = (Return r, log)
       /\ info_view_count r = None.
Proof.
  split_and!.
  - eexists _, _. split; [vm_compute; reflexivity|].
    split; [vm_compute; reflexivity|]. split; [vm_compute; reflexivity|].
    edestruct (counts_absent unicode_decimal strip_only default_max_str_digits
                 RecordIE record_input
                 (record_serve
                    (page_around (five_fields ++ field "p" "audience" "再生無し"))
                    (DamtomoRecordIE_page_url ++ sample_id) record_doc))
      as (video_id & webpage & handle_url & au & ni & _ & _ & _ & _ & Hv & Hl & _);
      [vm_compute; reflexivity|].
    exists au, ni. split; [exact Hv|exact Hl].
  - vm_compute. reflexivity.
  - vm_compute. reflexivity.
  - eexists _, _. split; [vm_compute; reflexivity|reflexivity].
Defined.
